(** * parquet-cpp: the column writer ([src/parquet/column/writer.cc])

    A shallow embedding of [ColumnWriter] and [TypedColumnWriter<Type>] and
    the properties of the page-staging protocol: what a page cut stages, what
    [Close] hands to the page sink and in which order, and how the row count
    is checked; then the way of the levels into a page, the byte total, the
    failures of [Close], and the dynamic constructor [ColumnWriter::Make].

    Conventions.
    - A C++ [int64_t] is a [Z] and every [+=] is followed by [int64], the
      two's-complement wrap-around; [uint32_t] likewise with [uint32].
    - A buffer is a [list byte]. The host is little-endian, as parquet-cpp
      assumes throughout (the writer stores a [uint32_t] and reads back
      [int16_t] arrays through [reinterpret_cast]).
    - A member function that mutates the object and may throw is a function
      [TypedColumnWriter -> Result A * TypedColumnWriter]: the object is
      returned as the exception left it.
    - [DCHECK]s are compiled out (release build) and memory management
      ([allocator_], [pool_], [shared_ptr]) is not represented. *)

From Stdlib Require Import ZArith String List Bool Lia.
From Stdlib.Strings Require Import Byte.
Import ListNotations.
Open Scope Z_scope.

Set Implicit Arguments.

(** ** Fixed-width integers and raw bytes *)

Module Int.

Definition wrap_signed (bits z : Z) : Z :=
  (z + 2 ^ (bits - 1)) mod 2 ^ bits - 2 ^ (bits - 1).

Definition int64 (z : Z) : Z := wrap_signed 64 z.
Definition int16 (z : Z) : Z := wrap_signed 16 z.
Definition uint32 (z : Z) : Z := z mod 2 ^ 32.

Definition INT64_MAX : Z := 2 ^ 63 - 1.
Definition INT64_MIN : Z := - 2 ^ 63.
Definition INT32_MAX : Z := 2 ^ 31 - 1.

Definition in_int64 (z : Z) : Prop := INT64_MIN <= z <= INT64_MAX.

End Int.
Import Int.

Module Bytes.

Definition byte_of_Z (z : Z) : byte :=
  match Byte.of_N (Z.to_N (z mod 256)) with
  | Some b => b
  | None => x00
  end.

Definition Z_of_byte (b : byte) : Z := Z.of_N (Byte.to_N b).

(** [le_bytes n z]: the [n] low-order bytes of [z], least significant first. *)
Fixpoint le_bytes (n : nat) (z : Z) : list byte :=
  match n with
  | O => []
  | S n' => byte_of_Z z :: le_bytes n' (z / 256)
  end.

(** [le_value bs]: the unsigned number whose little-endian bytes are [bs]. *)
Fixpoint le_value (bs : list byte) : Z :=
  match bs with
  | [] => 0
  | b :: bs' => Z_of_byte b + 256 * le_value bs'
  end.

End Bytes.
Import Bytes.

(** ** Types the writer shares with its collaborators *)

(** [Encoding::type] is declared in [parquet/types.h]. [writer.cc] names four
    of its members; [OTHER_ENCODING] stands for the remaining ones (bit
    packing and the delta encodings), told apart by their thrift tag. *)
Inductive Encoding : Type :=
| PLAIN
| PLAIN_DICTIONARY
| RLE
| RLE_DICTIONARY
| OTHER_ENCODING (tag : nat).

(** What a [ColumnDescriptor] tells the writer: the two maximal levels
    ([int16_t] in the source). *)
Record ColumnDescriptor : Type := {
  max_definition_level : Z;
  max_repetition_level : Z
}.

(** The exceptions that can leave the writer. The two thrown by [writer.cc]
    itself carry the message of the source; a failure of the page sink or of
    the level encoder unwinds through the writer unchanged. *)
Inductive Exception : Type :=
| ParquetException (what : string)
| ParquetException_NYI (msg : string)
| SinkFailure (what : string)
| LevelOverflow (what : string)
| UndefinedBehaviour.

Definition RowCountMismatch : Exception :=
  ParquetException
    "Less then the number of expected rows written in the current column chunk".

(** Modelled from the spec: the fatal failure of a write to a writer in the
    Closed state (section 4.3). *)
Definition WriteAfterClose : Exception :=
  ParquetException "Write to a closed column writer".

Definition UnsupportedEncoding : Exception :=
  ParquetException_NYI "Selected encoding is not supported".

Inductive Result (A : Type) : Type :=
| Ok (a : A)
| Throw (e : Exception).
Arguments Throw {A} e.

(** The answer of a collaborator that is not part of [writer.cc]. *)
Inductive Outcome (A : Type) : Type :=
| Done (a : A)
| Failed (what : string).
Arguments Failed {A} what.

(** *** The page sink ([PageWriter], an abstract class)

    The writer talks to its sink through three virtual calls. The sink is
    represented by the calls it has received so far, each with its answer;
    how it answers is a parameter of the development. *)
Inductive PageRequest : Type :=
| WriteDictionaryPage_request
    (num_entries : Z) (dictionary : list byte) (encoding : Encoding)
| WriteDataPage_request
    (num_buffered_values num_buffered_encoded_values : Z)
    (definition_levels : list byte) (definition_level_encoding : Encoding)
    (repetition_levels : list byte) (repetition_level_encoding : Encoding)
    (values : list byte) (encoding : Encoding)
| Close_request.

Record PagerCall : Type := {
  call_request : PageRequest;
  call_outcome : Outcome Z
}.

Definition PageWriter : Type := list PagerCall -> PageRequest -> Outcome Z.

Definition is_dictionary_page (c : PagerCall) : bool :=
  match call_request c with WriteDictionaryPage_request _ _ _ => true | _ => false end.

Definition is_data_page (c : PagerCall) : bool :=
  match call_request c with
  | WriteDataPage_request _ _ _ _ _ _ _ _ => true
  | _ => false
  end.

Definition is_close (c : PagerCall) : bool :=
  match call_request c with Close_request => true | _ => false end.

(** The byte count a call contributed: what the sink returned for a page it
    accepted. [Close] returns nothing. *)
Definition bytes_written (c : PagerCall) : Z :=
  match call_request c, call_outcome c with
  | Close_request, _ => 0
  | _, Done n => n
  | _, Failed _ => 0
  end.

Definition total_bytes (calls : list PagerCall) : Z :=
  fold_right (fun c acc => bytes_written c + acc) 0 calls.

(** *** The level encoder ([LevelEncoder], [parquet/column/levels.h])

    Its run-length/bit-packing code is not part of [writer.cc]; the writer
    only relies on its interface. [MaxBufferSize encoding max_level n] bounds
    the size of the output; [Encode max_level n capacity levels] is
    [Init (RLE, max_level, n, out, capacity)] followed by [Encode (n, levels)]
    and answers the number of levels consumed and the bytes left in [out],
    whose count is [len ()]. *)
Record LevelEncoder : Type := {
  MaxBufferSize : Encoding -> Z -> Z -> Z;
  Encode : Z -> Z -> Z -> list Z -> Outcome (Z * list byte)
}.

(** One use of the [level_encoder_] member. *)
Record LevelEncoderRun : Type := {
  run_max_level : Z;
  run_num_values : Z;
  run_levels : list Z
}.

(** *** Physical value types

    [TypedColumnWriter<Type>] is a template over the physical type. What the
    writer needs of a type is its plain byte layout; [plain_valid] tells the
    values of the embedding's carrier that the C++ type can hold. *)
Class PlainType (T : Type) : Type := {
  value_eq_dec : forall x y : T, {x = y} + {x <> y};
  plain_valid : T -> bool;
  plain_encode : T -> list byte;
  plain_decode : list byte -> option (T * list byte)
}.

(** Reading a value back from the front of a buffer. *)
Class PlainTypeLaws (T : Type) {plain_type : PlainType T} : Prop := {
  plain_decode_encode :
    forall v rest,
      plain_valid v = true ->
      plain_decode (plain_encode v ++ rest) = Some (v, rest)
}.
Arguments PlainTypeLaws T {plain_type}.

(** [Int64Type]: a 64-bit signed integer. *)
Definition in_int64b (z : Z) : bool := (INT64_MIN <=? z) && (z <=? INT64_MAX).

(** Modelled from the spec: the plain encoding ([encodings/plain-encoding.h])
    is not under src/. Section 4.2: "little-endian fixed-width for numeric
    types". *)
Definition int64_plain_encode (v : Z) : list byte := le_bytes 8 v.

(** Modelled from the spec: the plain decoder is not under src/; it reads
    the layout above back. *)
Definition int64_plain_decode (bs : list byte) : option (Z * list byte) :=
  if (length bs <? 8)%nat then None
  else Some (int64 (le_value (firstn 8 bs)), skipn 8 bs).

#[export] Instance Int64Type : PlainType Z := {|
  value_eq_dec := Z.eq_dec;
  plain_valid := in_int64b;
  plain_encode := int64_plain_encode;
  plain_decode := int64_plain_decode
|}.

(** ** Collaborators to run the writer with

    A page sink that accepts every page and answers its size in bytes, and a
    level encoder that writes run-length runs only (a valid instance of the
    hybrid format): each run is the run length shifted left by one as a
    varint, followed by the value in the level's byte width. *)
Module Example.

Definition counting_pager : PageWriter :=
  fun _ request =>
    match request with
    | WriteDictionaryPage_request _ dictionary _ => Done (Z.of_nat (length dictionary))
    | WriteDataPage_request _ _ def_levels _ rep_levels _ values _ =>
        Done (Z.of_nat (length def_levels + length rep_levels + length values))
    | Close_request => Done 0
    end.

Fixpoint runs (levels : list Z) : list (Z * Z) :=
  match levels with
  | [] => []
  | x :: rest =>
      match runs rest with
      | (count, y) :: more =>
          if x =? y then (count + 1, y) :: more else (1, x) :: (count, y) :: more
      | [] => [(1, x)]
      end
  end.

Fixpoint varint (fuel : nat) (z : Z) : list byte :=
  match fuel with
  | O => []
  | S fuel' =>
      if z <? 128 then [byte_of_Z z]
      else byte_of_Z (z mod 128 + 128) :: varint fuel' (z / 128)
  end.

Definition byte_width (max_level : Z) : nat :=
  Z.to_nat ((Z.log2_up (max_level + 1) + 7) / 8).

Definition encode_runs (max_level : Z) (levels : list Z) : list byte :=
  flat_map
    (fun run => varint 10 (2 * fst run) ++ le_bytes (byte_width max_level) (snd run))
    (runs levels).

Definition rle_level_encoder : LevelEncoder :=
  {| MaxBufferSize := fun _ max_level n =>
       Z.min INT32_MAX ((10 + Z.of_nat (byte_width max_level)) * Z.max n 0);
     Encode := fun max_level n capacity levels =>
       if forallb (fun l => (0 <=? l) && (l <=? max_level)) levels then
         let payload := encode_runs max_level levels in
         if Z.of_nat (length payload) <=? Z.min capacity INT32_MAX
         then Done (Z.of_nat (length levels), payload)
         else Failed "level buffer full"
       else Failed "level exceeds the maximal level" |}.

(** Dictionary indices, each as a varint; reading takes [n] of them. *)
Fixpoint varint_decode (bs : list byte) : option (Z * list byte) :=
  match bs with
  | [] => None
  | b :: rest =>
      let v := Z_of_byte b in
      if v <? 128 then Some (v, rest)
      else
        match varint_decode rest with
        | Some (high, rest') => Some (v - 128 + 128 * high, rest')
        | None => None
        end
  end.

Definition varint_index (i : nat) : list byte := varint (S i) (Z.of_nat i).

Definition varint_indices (cardinality : nat) (indices : list nat) : list byte :=
  flat_map varint_index indices.

Fixpoint varint_indices_decode (n : nat) (bs : list byte) : list nat :=
  match n with
  | O => []
  | S n' =>
      match varint_decode bs with
      | Some (z, rest) => Z.to_nat z :: varint_indices_decode n' rest
      | None => []
      end
  end.

Definition required : ColumnDescriptor :=
  {| max_definition_level := 0; max_repetition_level := 0 |}.

Definition optional : ColumnDescriptor :=
  {| max_definition_level := 1; max_repetition_level := 0 |}.

Definition repeated : ColumnDescriptor :=
  {| max_definition_level := 1; max_repetition_level := 1 |}.

(** A sink with room for [k] calls, which refuses every call after them. *)
Definition full_after (k : nat) : PageWriter :=
  fun calls request =>
    if (length calls <? k)%nat then counting_pager calls request
    else Failed "disk full".

End Example.

(** ** The dynamic constructor ([ColumnWriter::Make])

    [Make] reads the physical type and the path of the column off the
    descriptor, asks the writer properties for the encoding configured for
    that path, and builds the typed writer of the physical type. *)

(** [Type::type] ([parquet/types.h]): the eight enumerators the switch of
    [Make] names; [OTHER_TYPE] stands for any other value, which reaches its
    [default] label. *)
Inductive PhysicalType : Type :=
| BOOLEAN
| INT32
| INT64
| INT96
| FLOAT
| DOUBLE
| BYTE_ARRAY
| FIXED_LEN_BYTE_ARRAY
| OTHER_TYPE (tag : nat).

Definition ColumnPath : Type := list string.

(** The descriptor as [Make] uses it: [physical_type ()] and [path ()]
    besides the levels, which are all the typed writer reads of it. *)
Record Column : Type := {
  descriptor : ColumnDescriptor;
  physical_type : PhysicalType;
  path : ColumnPath
}.

(** [WriterProperties] ([parquet/column/properties.h]): the encoding
    configured for a column path. *)
Record WriterProperties : Type := {
  encoding : ColumnPath -> Encoding
}.

Definition TypeNotImplemented : Exception :=
  ParquetException_NYI "type reader not implemented".

Section Make.

(** [Writer t] is the class [TypedColumnWriter<Type>] of the physical type
    [t] and [new_Writer t] its constructor; the properties take them to be
    [TypedColumnWriter] and [new_TypedColumnWriter] below. *)
Variable Writer : PhysicalType -> Type.
Variable new_Writer :
  forall t : PhysicalType, ColumnDescriptor -> Z -> Encoding -> Result (Writer t).

(** A [std::shared_ptr<ColumnWriter>]: a typed writer with its dynamic type. *)
Definition ColumnWriter : Type := {t : PhysicalType & Writer t}.

(** [std::make_shared<...Writer>]: an exception of the constructor passes
    through. *)
Definition make_shared (t : PhysicalType) (descr : ColumnDescriptor)
    (expected_rows : Z) (encoding : Encoding) : Result ColumnWriter :=
  match new_Writer t descr expected_rows encoding with
  | Ok writer => Ok (existT Writer t writer)
  | Throw e => Throw e
  end.

Definition Make (descr : Column) (expected_rows : Z) (properties : WriterProperties)
  : Result ColumnWriter :=
  let encoding := encoding properties (path descr) in
  match physical_type descr with
  | BOOLEAN => make_shared BOOLEAN (descriptor descr) expected_rows encoding
  | INT32 => make_shared INT32 (descriptor descr) expected_rows encoding
  | INT64 => make_shared INT64 (descriptor descr) expected_rows encoding
  | INT96 => make_shared INT96 (descriptor descr) expected_rows encoding
  | FLOAT => make_shared FLOAT (descriptor descr) expected_rows encoding
  | DOUBLE => make_shared DOUBLE (descriptor descr) expected_rows encoding
  | BYTE_ARRAY => make_shared BYTE_ARRAY (descriptor descr) expected_rows encoding
  | FIXED_LEN_BYTE_ARRAY =>
      make_shared FIXED_LEN_BYTE_ARRAY (descriptor descr) expected_rows encoding
  | OTHER_TYPE _ => Throw TypeNotImplemented
  end.

End Make.

Definition is_physical_type (t : PhysicalType) : bool :=
  match t with OTHER_TYPE _ => false | _ => true end.

(** ** The writer *)

Section Writer.

Context {T : Type} {plain_type : PlainType T}.

(** *** Value encoders ([PlainEncoder<Type>], [DictEncoder<Type>]) *)

(** The bit-packing of dictionary indices, given the dictionary's size. *)
Variable encode_indices : nat -> list nat -> list byte.

Definition plain_encode_all (vs : list T) : list byte :=
  flat_map plain_encode vs.

(** Modelled from the spec: [DictEncoder]'s state ([encodings/
    dictionary-encoding.h], not under src/). Section 4.2: the distinct values
    in code order and "an index buffer of codes for every put call". *)
Record DictEncoderState : Type := {
  dict_entries : list T;
  dict_indices : list nat
}.

(** Modelled from the spec: the two variants of the value encoder (section
    4.2); Plain is "an accumulation buffer". *)
Inductive Encoder : Type :=
| PlainEncoder (buffer : list byte)
| DictEncoder (dict : DictEncoderState).

(** Modelled from the spec: the code of a value already in the dictionary
    (section 4.2, "first occurrence order defines code assignment"). *)
Fixpoint dict_lookup (v : T) (entries : list T) : option nat :=
  match entries with
  | [] => None
  | e :: rest =>
      if value_eq_dec e v then Some O
      else option_map S (dict_lookup v rest)
  end.

(** Modelled from the spec: [put] of one value on the dictionary (section
    4.2): a new value is appended to the mapping, its code to the index
    buffer. *)
Definition dict_put (d : DictEncoderState) (v : T) : DictEncoderState :=
  match dict_lookup v (dict_entries d) with
  | Some i =>
      {| dict_entries := dict_entries d; dict_indices := dict_indices d ++ [i] |}
  | None =>
      {| dict_entries := dict_entries d ++ [v];
         dict_indices := dict_indices d ++ [length (dict_entries d)] |}
  end.

(** Modelled from the spec: the value encoders are not under src/. Section
    4.2: Plain has "no state beyond an accumulation buffer", [put] appends
    the type's byte layout of each value and "flushValues returns the
    concatenation of everything written and clears the buffer". Dictionary
    keeps "an append-only mapping from distinct values to small integer
    codes (first occurrence order defines code assignment), plus an index
    buffer of codes for every put call"; its flush "returns only the
    index-code buffer" bit-packed for the current dictionary size. *)
Definition Put (vs : list T) (e : Encoder) : Encoder :=
  match e with
  | PlainEncoder buffer => PlainEncoder (buffer ++ plain_encode_all vs)
  | DictEncoder d => DictEncoder (fold_left dict_put vs d)
  end.

(** Modelled from the spec: [FlushValues] of the value encoders, not under
    src/ (section 4.2, as quoted above). *)
Definition FlushValues (e : Encoder) : list byte * Encoder :=
  match e with
  | PlainEncoder buffer => (buffer, PlainEncoder [])
  | DictEncoder d =>
      (encode_indices (length (dict_entries d)) (dict_indices d),
       DictEncoder {| dict_entries := dict_entries d; dict_indices := [] |})
  end.

(** Modelled from the spec: [DictEncoder]'s dictionary accessors are not
    under src/. Section 4.2: [serializeDictionary] "writes the distinct
    values in code order", [dictionaryByteSize] is the size of that. *)
Definition WriteDict (d : DictEncoderState) : list byte :=
  plain_encode_all (dict_entries d).

(** Modelled from the spec: [dict_encoded_size], not under src/; section
    4.2, [dictionaryByteSize]. *)
Definition dict_encoded_size (d : DictEncoderState) : Z :=
  Z.of_nat (length (WriteDict d)).

(** Modelled from the spec: [num_entries], not under src/; the dictionary's
    cardinality (section 9, "current dictionary cardinality"). *)
Definition num_entries (d : DictEncoderState) : Z :=
  Z.of_nat (length (dict_entries d)).

Definition is_dict_encoder (e : Encoder) : bool :=
  match e with DictEncoder _ => true | PlainEncoder _ => false end.

(** *** The object *)

(** Modelled from the spec: the states of a writer, which [writer.h] (not
    under src/) would declare. Section 4.3: "States: Open (accepting
    batches) -> Closed (terminal; any further write fails fatally). No other
    states." *)
Inductive WriterState : Type :=
| Open
| Closed.

(** [DataPageBuffers] ([writer.h]), filled in [AddDataPage]. *)
Record DataPageBuffers : Type := {
  num_buffered_values : Z;
  num_buffered_encoded_values : Z;
  definition_levels : list byte;
  repetition_levels : list byte;
  values : list byte
}.

(** An object of class [TypedColumnWriter<Type>]: the members of the base
    class [ColumnWriter] in the order of its initialiser list, the members
    [writer.cc] uses without initialising them there, and the derived
    class's [current_encoder_]. [pager_] holds the calls the sink has
    received and [level_encoder_] the runs of the level encoder so far. A
    level sink is an [InMemoryOutputStream]: the bytes written to it, and
    whether it still owns its buffer, which [GetBuffer] takes away
    ("GetBuffer made them invalid", [AddDataPage]). [writer_state] is the
    state of the spec's section 4.3, which [WriteBatch] tests; no statement
    of [writer.cc] reads or writes such a member. *)
Record TypedColumnWriter : Type := {
  descr_ : ColumnDescriptor;
  pager_ : list PagerCall;
  expected_rows_ : Z;
  has_dictionary_ : bool;
  num_buffered_values_ : Z;
  num_buffered_encoded_values_ : Z;
  num_rows_ : Z;
  total_bytes_written_ : Z;
  definition_levels_sink_ : list byte;
  repetition_levels_sink_ : list byte;
  definition_levels_sink_valid : bool;
  repetition_levels_sink_valid : bool;
  level_encoder_ : list LevelEncoderRun;
  data_page_buffers_ : list DataPageBuffers;
  current_encoder_ : Encoder;
  writer_state : WriterState
}.

Definition set_pager_ (x : list PagerCall) (w : TypedColumnWriter) :=
  {| descr_ := descr_ w; pager_ := x; expected_rows_ := expected_rows_ w;
     has_dictionary_ := has_dictionary_ w;
     num_buffered_values_ := num_buffered_values_ w;
     num_buffered_encoded_values_ := num_buffered_encoded_values_ w;
     num_rows_ := num_rows_ w; total_bytes_written_ := total_bytes_written_ w;
     definition_levels_sink_ := definition_levels_sink_ w;
     repetition_levels_sink_ := repetition_levels_sink_ w;
     definition_levels_sink_valid := definition_levels_sink_valid w;
     repetition_levels_sink_valid := repetition_levels_sink_valid w;
     level_encoder_ := level_encoder_ w;
     data_page_buffers_ := data_page_buffers_ w;
     current_encoder_ := current_encoder_ w;
     writer_state := writer_state w |}.

Definition set_num_buffered_values_ (x : Z) (w : TypedColumnWriter) :=
  {| descr_ := descr_ w; pager_ := pager_ w; expected_rows_ := expected_rows_ w;
     has_dictionary_ := has_dictionary_ w;
     num_buffered_values_ := x;
     num_buffered_encoded_values_ := num_buffered_encoded_values_ w;
     num_rows_ := num_rows_ w; total_bytes_written_ := total_bytes_written_ w;
     definition_levels_sink_ := definition_levels_sink_ w;
     repetition_levels_sink_ := repetition_levels_sink_ w;
     definition_levels_sink_valid := definition_levels_sink_valid w;
     repetition_levels_sink_valid := repetition_levels_sink_valid w;
     level_encoder_ := level_encoder_ w;
     data_page_buffers_ := data_page_buffers_ w;
     current_encoder_ := current_encoder_ w;
     writer_state := writer_state w |}.

Definition set_num_buffered_encoded_values_ (x : Z) (w : TypedColumnWriter) :=
  {| descr_ := descr_ w; pager_ := pager_ w; expected_rows_ := expected_rows_ w;
     has_dictionary_ := has_dictionary_ w;
     num_buffered_values_ := num_buffered_values_ w;
     num_buffered_encoded_values_ := x;
     num_rows_ := num_rows_ w; total_bytes_written_ := total_bytes_written_ w;
     definition_levels_sink_ := definition_levels_sink_ w;
     repetition_levels_sink_ := repetition_levels_sink_ w;
     definition_levels_sink_valid := definition_levels_sink_valid w;
     repetition_levels_sink_valid := repetition_levels_sink_valid w;
     level_encoder_ := level_encoder_ w;
     data_page_buffers_ := data_page_buffers_ w;
     current_encoder_ := current_encoder_ w;
     writer_state := writer_state w |}.

Definition set_num_rows_ (x : Z) (w : TypedColumnWriter) :=
  {| descr_ := descr_ w; pager_ := pager_ w; expected_rows_ := expected_rows_ w;
     has_dictionary_ := has_dictionary_ w;
     num_buffered_values_ := num_buffered_values_ w;
     num_buffered_encoded_values_ := num_buffered_encoded_values_ w;
     num_rows_ := x; total_bytes_written_ := total_bytes_written_ w;
     definition_levels_sink_ := definition_levels_sink_ w;
     repetition_levels_sink_ := repetition_levels_sink_ w;
     definition_levels_sink_valid := definition_levels_sink_valid w;
     repetition_levels_sink_valid := repetition_levels_sink_valid w;
     level_encoder_ := level_encoder_ w;
     data_page_buffers_ := data_page_buffers_ w;
     current_encoder_ := current_encoder_ w;
     writer_state := writer_state w |}.

Definition set_total_bytes_written_ (x : Z) (w : TypedColumnWriter) :=
  {| descr_ := descr_ w; pager_ := pager_ w; expected_rows_ := expected_rows_ w;
     has_dictionary_ := has_dictionary_ w;
     num_buffered_values_ := num_buffered_values_ w;
     num_buffered_encoded_values_ := num_buffered_encoded_values_ w;
     num_rows_ := num_rows_ w; total_bytes_written_ := x;
     definition_levels_sink_ := definition_levels_sink_ w;
     repetition_levels_sink_ := repetition_levels_sink_ w;
     definition_levels_sink_valid := definition_levels_sink_valid w;
     repetition_levels_sink_valid := repetition_levels_sink_valid w;
     level_encoder_ := level_encoder_ w;
     data_page_buffers_ := data_page_buffers_ w;
     current_encoder_ := current_encoder_ w;
     writer_state := writer_state w |}.

Definition set_definition_levels_sink_ (x : list byte) (w : TypedColumnWriter) :=
  {| descr_ := descr_ w; pager_ := pager_ w; expected_rows_ := expected_rows_ w;
     has_dictionary_ := has_dictionary_ w;
     num_buffered_values_ := num_buffered_values_ w;
     num_buffered_encoded_values_ := num_buffered_encoded_values_ w;
     num_rows_ := num_rows_ w; total_bytes_written_ := total_bytes_written_ w;
     definition_levels_sink_ := x;
     repetition_levels_sink_ := repetition_levels_sink_ w;
     definition_levels_sink_valid := definition_levels_sink_valid w;
     repetition_levels_sink_valid := repetition_levels_sink_valid w;
     level_encoder_ := level_encoder_ w;
     data_page_buffers_ := data_page_buffers_ w;
     current_encoder_ := current_encoder_ w;
     writer_state := writer_state w |}.

Definition set_repetition_levels_sink_ (x : list byte) (w : TypedColumnWriter) :=
  {| descr_ := descr_ w; pager_ := pager_ w; expected_rows_ := expected_rows_ w;
     has_dictionary_ := has_dictionary_ w;
     num_buffered_values_ := num_buffered_values_ w;
     num_buffered_encoded_values_ := num_buffered_encoded_values_ w;
     num_rows_ := num_rows_ w; total_bytes_written_ := total_bytes_written_ w;
     definition_levels_sink_ := definition_levels_sink_ w;
     repetition_levels_sink_ := x;
     definition_levels_sink_valid := definition_levels_sink_valid w;
     repetition_levels_sink_valid := repetition_levels_sink_valid w;
     level_encoder_ := level_encoder_ w;
     data_page_buffers_ := data_page_buffers_ w;
     current_encoder_ := current_encoder_ w;
     writer_state := writer_state w |}.

Definition set_definition_levels_sink_valid (x : bool) (w : TypedColumnWriter) :=
  {| descr_ := descr_ w; pager_ := pager_ w; expected_rows_ := expected_rows_ w;
     has_dictionary_ := has_dictionary_ w;
     num_buffered_values_ := num_buffered_values_ w;
     num_buffered_encoded_values_ := num_buffered_encoded_values_ w;
     num_rows_ := num_rows_ w; total_bytes_written_ := total_bytes_written_ w;
     definition_levels_sink_ := definition_levels_sink_ w;
     repetition_levels_sink_ := repetition_levels_sink_ w;
     definition_levels_sink_valid := x;
     repetition_levels_sink_valid := repetition_levels_sink_valid w;
     level_encoder_ := level_encoder_ w;
     data_page_buffers_ := data_page_buffers_ w;
     current_encoder_ := current_encoder_ w;
     writer_state := writer_state w |}.

Definition set_repetition_levels_sink_valid (x : bool) (w : TypedColumnWriter) :=
  {| descr_ := descr_ w; pager_ := pager_ w; expected_rows_ := expected_rows_ w;
     has_dictionary_ := has_dictionary_ w;
     num_buffered_values_ := num_buffered_values_ w;
     num_buffered_encoded_values_ := num_buffered_encoded_values_ w;
     num_rows_ := num_rows_ w; total_bytes_written_ := total_bytes_written_ w;
     definition_levels_sink_ := definition_levels_sink_ w;
     repetition_levels_sink_ := repetition_levels_sink_ w;
     definition_levels_sink_valid := definition_levels_sink_valid w;
     repetition_levels_sink_valid := x;
     level_encoder_ := level_encoder_ w;
     data_page_buffers_ := data_page_buffers_ w;
     current_encoder_ := current_encoder_ w;
     writer_state := writer_state w |}.

Definition set_level_encoder_ (x : list LevelEncoderRun) (w : TypedColumnWriter) :=
  {| descr_ := descr_ w; pager_ := pager_ w; expected_rows_ := expected_rows_ w;
     has_dictionary_ := has_dictionary_ w;
     num_buffered_values_ := num_buffered_values_ w;
     num_buffered_encoded_values_ := num_buffered_encoded_values_ w;
     num_rows_ := num_rows_ w; total_bytes_written_ := total_bytes_written_ w;
     definition_levels_sink_ := definition_levels_sink_ w;
     repetition_levels_sink_ := repetition_levels_sink_ w;
     definition_levels_sink_valid := definition_levels_sink_valid w;
     repetition_levels_sink_valid := repetition_levels_sink_valid w;
     level_encoder_ := x;
     data_page_buffers_ := data_page_buffers_ w;
     current_encoder_ := current_encoder_ w;
     writer_state := writer_state w |}.

Definition set_data_page_buffers_ (x : list DataPageBuffers) (w : TypedColumnWriter) :=
  {| descr_ := descr_ w; pager_ := pager_ w; expected_rows_ := expected_rows_ w;
     has_dictionary_ := has_dictionary_ w;
     num_buffered_values_ := num_buffered_values_ w;
     num_buffered_encoded_values_ := num_buffered_encoded_values_ w;
     num_rows_ := num_rows_ w; total_bytes_written_ := total_bytes_written_ w;
     definition_levels_sink_ := definition_levels_sink_ w;
     repetition_levels_sink_ := repetition_levels_sink_ w;
     definition_levels_sink_valid := definition_levels_sink_valid w;
     repetition_levels_sink_valid := repetition_levels_sink_valid w;
     level_encoder_ := level_encoder_ w;
     data_page_buffers_ := x;
     current_encoder_ := current_encoder_ w;
     writer_state := writer_state w |}.

Definition set_current_encoder_ (x : Encoder) (w : TypedColumnWriter) :=
  {| descr_ := descr_ w; pager_ := pager_ w; expected_rows_ := expected_rows_ w;
     has_dictionary_ := has_dictionary_ w;
     num_buffered_values_ := num_buffered_values_ w;
     num_buffered_encoded_values_ := num_buffered_encoded_values_ w;
     num_rows_ := num_rows_ w; total_bytes_written_ := total_bytes_written_ w;
     definition_levels_sink_ := definition_levels_sink_ w;
     repetition_levels_sink_ := repetition_levels_sink_ w;
     definition_levels_sink_valid := definition_levels_sink_valid w;
     repetition_levels_sink_valid := repetition_levels_sink_valid w;
     level_encoder_ := level_encoder_ w;
     data_page_buffers_ := data_page_buffers_ w;
     current_encoder_ := x;
     writer_state := writer_state w |}.

(** *** Member functions: state and exceptions *)

Definition M (A : Type) : Type := TypedColumnWriter -> Result A * TypedColumnWriter.

Definition ret {A} (a : A) : M A := fun w => (Ok a, w).

Definition bind {A B} (m : M A) (k : A -> M B) : M B :=
  fun w =>
    match m w with
    | (Ok a, w') => k a w'
    | (Throw e, w') => (Throw e, w')
    end.

Definition throw {A} (e : Exception) : M A := fun w => (Throw e, w).

Definition gets {A} (f : TypedColumnWriter -> A) : M A := fun w => (Ok (f w), w).

Definition modify (f : TypedColumnWriter -> TypedColumnWriter) : M unit :=
  fun w => (Ok tt, f w).

Definition when (b : bool) (m : M unit) : M unit := if b then m else ret tt.

Fixpoint for_each {A} (l : list A) (body : A -> M unit) : M unit :=
  match l with
  | [] => ret tt
  | x :: l' => bind (body x) (fun _ => for_each l' body)
  end.

Local Notation "x <- m ;; k" := (bind m (fun x => k))
  (at level 61, m at next level, right associativity).
Local Notation "m ;;; k" := (bind m (fun _ => k))
  (at level 61, right associativity).

(** *** [ColumnWriter] *)

Variable level_encoder : LevelEncoder.
Variable pager : PageWriter.

(** The constructor's initialiser list and its call of [InitSinks]; the
    encoder is what the derived constructor then stores. A writer is
    created Open (sections 3 and 4.3 of the spec). *)
Definition ColumnWriter_init (descr : ColumnDescriptor) (expected_rows : Z)
    (has_dictionary : bool) (encoder : Encoder) : TypedColumnWriter :=
  {| descr_ := descr;
     pager_ := [];
     expected_rows_ := expected_rows;
     has_dictionary_ := has_dictionary;
     num_buffered_values_ := 0;
     num_buffered_encoded_values_ := 0;
     num_rows_ := 0;
     total_bytes_written_ := 0;
     definition_levels_sink_ := [];
     repetition_levels_sink_ := [];
     definition_levels_sink_valid := true;
     repetition_levels_sink_valid := true;
     level_encoder_ := [];
     data_page_buffers_ := [];
     current_encoder_ := encoder;
     writer_state := Open |}.

(** [reset (new InMemoryOutputStream ())]: a stream that owns an empty
    buffer. *)
Definition new_definition_levels_sink (w : TypedColumnWriter) : TypedColumnWriter :=
  set_definition_levels_sink_valid true (set_definition_levels_sink_ [] w).

Definition new_repetition_levels_sink (w : TypedColumnWriter) : TypedColumnWriter :=
  set_repetition_levels_sink_valid true (set_repetition_levels_sink_ [] w).

Definition InitSinks : M unit :=
  modify new_definition_levels_sink ;;;
  modify new_repetition_levels_sink.

(** An [int16_t] array seen as bytes, and bytes seen as an [int16_t] array
    (the two [reinterpret_cast]s). *)
Definition levels_bytes (levels : list Z) : list byte :=
  flat_map (le_bytes 2) levels.

Fixpoint int16s_of_bytes (bs : list byte) : list Z :=
  match bs with
  | b0 :: b1 :: rest => int16 (le_value [b0; b1]) :: int16s_of_bytes rest
  | _ => []
  end.

(** [Write (levels, sizeof(int16_t) * num_levels)]. The array holds at least
    [num_levels] entries and [num_levels] is not negative: anything else
    reads outside the caller's array. *)
Definition WriteDefinitionLevels (num_levels : Z) (levels : list Z) : M unit :=
  modify (fun w =>
    set_definition_levels_sink_
      (definition_levels_sink_ w
         ++ firstn (Z.to_nat (2 * num_levels)) (levels_bytes levels)) w).

Definition WriteRepetitionLevels (num_levels : Z) (levels : list Z) : M unit :=
  modify (fun w =>
    set_repetition_levels_sink_
      (repetition_levels_sink_ w
         ++ firstn (Z.to_nat (2 * num_levels)) (levels_bytes levels)) w).

(** [buffer_rle] is four bytes followed by the area the level encoder writes
    to; the length is stored in the first four and [Resize] cuts the buffer
    after the encoder's last byte. Encoding reads [num_buffered_values_]
    levels from [buffer]; a shorter buffer is read past its end. *)
Definition RleEncodeLevels (buffer : list byte) (max_level : Z) : M (list byte) :=
  n <- gets num_buffered_values_ ;;
  let rle_size := int64 (MaxBufferSize level_encoder RLE max_level n + 4) in
  let levels := int16s_of_bytes buffer in
  if Z.of_nat (length levels) <? n then throw UndefinedBehaviour
  else
    let read := firstn (Z.to_nat n) levels in
    modify (fun w =>
      set_level_encoder_
        (level_encoder_ w ++
           [{| run_max_level := max_level; run_num_values := n; run_levels := read |}])
        w) ;;;
    match Encode level_encoder max_level n (rle_size - 4) read with
    | Failed what => throw (LevelOverflow what)
    | Done (encoded, payload) =>
        let len := Z.of_nat (length payload) in
        ret (le_bytes 4 (uint32 len) ++ payload)
    end.

(** [InMemoryOutputStream::GetBuffer] hands the buffer over and leaves the
    stream without one: invalid, until [InitSinks] replaces it. What a write
    to a stream without a buffer does is for [util/output.h] to say; no
    function of [writer.cc] makes one. *)
Definition GetBuffer_definition_levels : M (list byte) :=
  buffer <- gets definition_levels_sink_ ;;
  modify (fun w =>
    set_definition_levels_sink_valid false (set_definition_levels_sink_ [] w)) ;;;
  ret buffer.

Definition GetBuffer_repetition_levels : M (list byte) :=
  buffer <- gets repetition_levels_sink_ ;;
  modify (fun w =>
    set_repetition_levels_sink_valid false (set_repetition_levels_sink_ [] w)) ;;;
  ret buffer.

(** Modelled from the spec: [GetValuesBuffer] is a virtual function defined
    in [writer.h], not under src/. Section 4.3: the page cut "calls Value
    Encoder flushValues() for the values component". *)
Definition GetValuesBuffer : M (list byte) :=
  e <- gets current_encoder_ ;;
  let (buffer, e') := FlushValues e in
  modify (set_current_encoder_ e') ;;;
  ret buffer.

Definition AddDataPage : M unit :=
  n <- gets num_buffered_values_ ;;
  ne <- gets num_buffered_encoded_values_ ;;
  def_buffer <- GetBuffer_definition_levels ;;
  rep_buffer <- GetBuffer_repetition_levels ;;
  values_buffer <- GetValuesBuffer ;;
  descr <- gets descr_ ;;
  def_levels <-
    (if 0 <? max_definition_level descr
     then RleEncodeLevels def_buffer (max_definition_level descr)
     else ret def_buffer) ;;
  rep_levels <-
    (if 0 <? max_repetition_level descr
     then RleEncodeLevels rep_buffer (max_repetition_level descr)
     else ret rep_buffer) ;;
  modify (fun w =>
    set_data_page_buffers_
      (data_page_buffers_ w ++
         [{| num_buffered_values := n;
             num_buffered_encoded_values := ne;
             definition_levels := def_levels;
             repetition_levels := rep_levels;
             values := values_buffer |}])
      w) ;;;
  InitSinks ;;;
  modify (set_num_buffered_values_ 0) ;;;
  modify (set_num_buffered_encoded_values_ 0).

(** One virtual call on [pager_]: the call is recorded with its answer, and
    a failure of the sink unwinds. *)
Definition call_pager (request : PageRequest) : M Z :=
  calls <- gets pager_ ;;
  let answer := pager calls request in
  modify (set_pager_
    (calls ++ [{| call_request := request; call_outcome := answer |}])) ;;;
  match answer with
  | Done n => ret n
  | Failed what => throw (SinkFailure what)
  end.

Definition WriteNewPage (buffers : DataPageBuffers) : M unit :=
  has_dictionary <- gets has_dictionary_ ;;
  let encoding := if has_dictionary then PLAIN_DICTIONARY else PLAIN in
  bytes <- call_pager
    (WriteDataPage_request
       (num_buffered_values buffers) (num_buffered_encoded_values buffers)
       (definition_levels buffers) RLE (repetition_levels buffers) RLE
       (values buffers) encoding) ;;
  modify (fun w => set_total_bytes_written_ (int64 (total_bytes_written_ w + bytes)) w).

(** [TypedColumnWriter<Type>::WriteDictionaryPage]. The [static_cast] is
    only right for a [DictEncoder]. The buffer has [dict_encoded_size ()]
    bytes, which [WriteDict] fills. The last statement, [FreeAll] on the
    encoder's memory pool, releases storage that is not represented here:
    what a later [WriteDict] would read from it is left open (see
    [outline]). *)
Definition WriteDictionaryPage : M unit :=
  e <- gets current_encoder_ ;;
  match e with
  | PlainEncoder _ => throw UndefinedBehaviour
  | DictEncoder dict_encoder =>
      let buffer :=
        firstn (Z.to_nat (dict_encoded_size dict_encoder)) (WriteDict dict_encoder) in
      bytes <- call_pager
        (WriteDictionaryPage_request (num_entries dict_encoder) buffer PLAIN_DICTIONARY) ;;
      modify (fun w => set_total_bytes_written_ (int64 (total_bytes_written_ w + bytes)) w)
  end.

(** The loop counter is an [int]; fewer than [2 ^ 31] pages are staged. *)
Definition Close : M Z :=
  has_dictionary <- gets has_dictionary_ ;;
  when has_dictionary WriteDictionaryPage ;;;
  n <- gets num_buffered_values_ ;;
  when (0 <? n) AddDataPage ;;;
  pages <- gets data_page_buffers_ ;;
  for_each pages WriteNewPage ;;;
  num_rows <- gets num_rows_ ;;
  expected_rows <- gets expected_rows_ ;;
  when (negb (num_rows =? expected_rows)) (throw RowCountMismatch) ;;;
  call_pager Close_request ;;;
  gets total_bytes_written_.

(** *** [TypedColumnWriter<Type>] *)

Definition is_dictionary_encoding (encoding : Encoding) : bool :=
  match encoding with
  | PLAIN_DICTIONARY | RLE_DICTIONARY => true
  | _ => false
  end.

Definition new_TypedColumnWriter (schema : ColumnDescriptor) (expected_rows : Z)
    (encoding : Encoding) : Result TypedColumnWriter :=
  let base :=
    ColumnWriter_init schema expected_rows (is_dictionary_encoding encoding) in
  match encoding with
  | PLAIN => Ok (base (PlainEncoder []))
  | PLAIN_DICTIONARY
  | RLE_DICTIONARY =>
      Ok (base (DictEncoder {| dict_entries := []; dict_indices := [] |}))
  | _ => Throw UnsupportedEncoding
  end.

(** The page-size policy that makes [WriteBatch] cut a page: an injected
    parameter (section 9 of the spec). *)
Variable page_size_exceeded : TypedColumnWriter -> bool.

Definition count_levels (x : Z) (levels : list Z) : Z :=
  Z.of_nat (length (filter (Z.eqb x) levels)).

(** Modelled from the spec: [WriteValues] is defined in [writer.h], not
    under src/. Section 4.3: "feeds packedValues to the Value Encoder via
    put". *)
Definition WriteValues (packed_values : list T) : M unit :=
  modify (fun w => set_current_encoder_ (Put packed_values (current_encoder_ w)) w).

(** Modelled from the spec: [WriteBatch] is defined in [writer.h], not under
    src/. Section 4.3, in its order: absent definition levels count as
    [num_values] entries equal to the maximal level; the levels go to the
    live sinks through the two functions of [writer.cc] above; the packed
    values, as many as there are entries at the maximal definition level
    (all of them when the levels are absent), go to the value encoder; the
    three counters grow; the policy may cut a page. Sections 4.1 and 6:
    level arrays of a kind whose maximal level is 0 "are never encoded or
    emitted" and "contribute no buffer", so nothing is appended to the sink
    of such a kind, whose content [AddDataPage] passes on as it is. Absent
    repetition levels mean a column without repetition: one row per value.
    First of all, a writer in the Closed state accepts no batch: "any
    further write fails fatally". *)
Definition WriteBatch (num_values : Z) (def_levels rep_levels : option (list Z))
    (packed : list T) : M unit :=
  state <- gets writer_state ;;
  match state with Closed => throw WriteAfterClose | Open => ret tt end ;;;
  descr <- gets descr_ ;;
  let max_def := max_definition_level descr in
  let max_rep := max_repetition_level descr in
  let n := Z.to_nat num_values in
  let defs :=
    match def_levels with
    | Some levels => firstn n levels
    | None => repeat max_def n
    end in
  let values_to_write :=
    match def_levels with
    | Some _ => count_levels max_def defs
    | None => num_values
    end in
  let rows :=
    match rep_levels with
    | Some levels =>
        if 0 <? max_rep then count_levels 0 (firstn n levels) else num_values
    | None => num_values
    end in
  let packed_values := firstn (Z.to_nat values_to_write) packed in
  when (0 <? max_def) (WriteDefinitionLevels num_values defs) ;;;
  match rep_levels with
  | Some levels => when (0 <? max_rep) (WriteRepetitionLevels num_values levels)
  | None => ret tt
  end ;;;
  WriteValues packed_values ;;;
  modify (fun w => set_num_buffered_values_ (int64 (num_buffered_values_ w + num_values)) w) ;;;
  modify (fun w =>
    set_num_buffered_encoded_values_
      (int64 (num_buffered_encoded_values_ w + Z.of_nat (length packed_values))) w) ;;;
  modify (fun w => set_num_rows_ (int64 (num_rows_ w + rows)) w) ;;;
  exceeded <- gets page_size_exceeded ;;
  when exceeded AddDataPage.

(** *** A writer's life

    What a caller can do with a writer, and the object a sequence of such
    operations leaves behind. An operation that throws leaves the object as
    the exception found it. *)
Inductive Operation : Type :=
| Op_WriteBatch (num_values : Z) (def_levels rep_levels : option (list Z))
    (packed : list T)
| Op_AddDataPage
| Op_Close.

Definition perform (op : Operation) (w : TypedColumnWriter) : TypedColumnWriter :=
  match op with
  | Op_WriteBatch num_values def_levels rep_levels packed =>
      snd (WriteBatch num_values def_levels rep_levels packed w)
  | Op_AddDataPage => snd (AddDataPage w)
  | Op_Close => snd (Close w)
  end.

Definition perform_all (ops : list Operation) (w : TypedColumnWriter)
  : TypedColumnWriter :=
  fold_left (fun w op => perform op w) ops w.

Definition is_write (op : Operation) : bool :=
  match op with Op_Close => false | _ => true end.

Definition encoding_supported (encoding : Encoding) : bool :=
  match encoding with
  | PLAIN | PLAIN_DICTIONARY | RLE_DICTIONARY => true
  | _ => false
  end.

(** *** Notions the properties are stated with *)

(** What a step did to the sink: [calls] were made and the accepted byte
    counts added up; nothing else in the object moved. *)
Definition sink_update (calls : list PagerCall) (w : TypedColumnWriter) : TypedColumnWriter :=
  set_total_bytes_written_ (int64 (total_bytes_written_ w + total_bytes calls))
    (set_pager_ (pager_ w ++ calls) w).

Definition page_request (has_dictionary : bool) (buffers : DataPageBuffers) : PageRequest :=
  WriteDataPage_request
    (num_buffered_values buffers) (num_buffered_encoded_values buffers)
    (definition_levels buffers) RLE (repetition_levels buffers) RLE
    (values buffers) (if has_dictionary then PLAIN_DICTIONARY else PLAIN).

Definition accepted (c : PagerCall) : bool :=
  match call_outcome c with Done _ => true | Failed _ => false end.

(** The level component of a page: run through the level encoder when the
    column has levels of that kind, the sink's bytes as they are otherwise. *)
Definition level_component (buffer : list byte) (max_level : Z) : M (list byte) :=
  if 0 <? max_level then RleEncodeLevels buffer max_level else ret buffer.

(** *** What the member functions leave alone

    [preserves P m]: whatever [m] does, and however it ends, a property [P]
    of the object survives it. *)
Definition preserves {A} (P : TypedColumnWriter -> Prop) (m : M A) : Prop :=
  forall w r w', P w -> m w = (r, w') -> P w'.

(** A property is [untouched_by_cut] when it does not read what a page cut
    writes, and [untouched_by_sink] when it does not read what talking to
    the sink writes. *)
Record untouched_by_cut (P : TypedColumnWriter -> Prop) : Prop := {
  cut_definition_levels_sink : forall w x, P w -> P (set_definition_levels_sink_ x w);
  cut_repetition_levels_sink : forall w x, P w -> P (set_repetition_levels_sink_ x w);
  cut_definition_levels_sink_valid :
    forall w x, P w -> P (set_definition_levels_sink_valid x w);
  cut_repetition_levels_sink_valid :
    forall w x, P w -> P (set_repetition_levels_sink_valid x w);
  cut_current_encoder :
    forall w, P w ->
      P (set_current_encoder_ (snd (FlushValues (current_encoder_ w))) w);
  cut_level_encoder : forall w x, P w -> P (set_level_encoder_ x w);
  cut_data_page_buffers : forall w x, P w -> P (set_data_page_buffers_ x w);
  cut_num_buffered_values : forall w x, P w -> P (set_num_buffered_values_ x w);
  cut_num_buffered_encoded_values :
    forall w x, P w -> P (set_num_buffered_encoded_values_ x w)
}.

Record untouched_by_sink (P : TypedColumnWriter -> Prop) : Prop := {
  sink_pager : forall w x, P w -> P (set_pager_ x w);
  sink_total_bytes_written :
    forall w x, P w -> P (set_total_bytes_written_ (int64 x) w)
}.

Record untouched_by_batch (P : TypedColumnWriter -> Prop) : Prop := {
  batch_cut : untouched_by_cut P;
  batch_current_encoder :
    forall w vs, P w -> P (set_current_encoder_ (Put vs (current_encoder_ w)) w);
  batch_num_rows : forall w x, P w -> P (set_num_rows_ x w)
}.

Definition answered (calls : list PagerCall) (request : PageRequest) : PagerCall :=
  {| call_request := request; call_outcome := pager calls request |}.

Definition dictionary_request (d : DictEncoderState) : PageRequest :=
  WriteDictionaryPage_request (num_entries d) (WriteDict d) PLAIN_DICTIONARY.

(** The calls of the first line of [Close]. *)
Definition dictionary_calls (w : TypedColumnWriter) : list PagerCall :=
  if has_dictionary_ w then
    match current_encoder_ w with
    | DictEncoder d => [answered (pager_ w) (dictionary_request d)]
    | PlainEncoder _ => []
    end
  else [].

(** The second line of [Close]: [wc] is the object after it. *)
Definition final_cut (w wc : TypedColumnWriter) : Prop :=
  if 0 <? num_buffered_values_ w then AddDataPage w = (Ok tt, wc) else wc = w.

(** The loop of [Close] ran to its end from [wc], making [calls]. *)
Definition pages_sent (wc : TypedColumnWriter) (calls : list PagerCall) : Prop :=
  map call_request calls
  = map (page_request (has_dictionary_ wc)) (data_page_buffers_ wc) /\
  forallb accepted calls = true /\
  forallb is_data_page calls = true.

Inductive Close_run (w : TypedColumnWriter) : Result Z -> TypedColumnWriter -> Prop :=
| Close_bad_cast :
    has_dictionary_ w = true ->
    is_dict_encoder (current_encoder_ w) = false ->
    Close_run w (Throw UndefinedBehaviour) w
| Close_dictionary_refused d what :
    has_dictionary_ w = true ->
    current_encoder_ w = DictEncoder d ->
    pager (pager_ w) (dictionary_request d) = Failed what ->
    Close_run w (Throw (SinkFailure what)) (sink_update (dictionary_calls w) w)
| Close_cut_failed e w' :
    forallb accepted (dictionary_calls w) = true ->
    0 < num_buffered_values_ w ->
    AddDataPage (sink_update (dictionary_calls w) w) = (Throw e, w') ->
    (e = UndefinedBehaviour \/ exists what, e = LevelOverflow what) ->
    pager_ w' = pager_ w ++ dictionary_calls w ->
    Close_run w (Throw e) w'
| Close_page_refused wc calls sent what :
    forallb accepted (dictionary_calls w) = true ->
    final_cut (sink_update (dictionary_calls w) w) wc ->
    map call_request calls = map (page_request (has_dictionary_ wc)) sent ->
    sent = firstn (length sent) (data_page_buffers_ wc) ->
    forallb is_data_page calls = true ->
    Close_run w (Throw (SinkFailure what)) (sink_update calls wc)
| Close_row_count_mismatch wc calls :
    forallb accepted (dictionary_calls w) = true ->
    final_cut (sink_update (dictionary_calls w) w) wc ->
    pages_sent wc calls ->
    num_rows_ w <> expected_rows_ w ->
    Close_run w (Throw RowCountMismatch) (sink_update calls wc)
| Close_close_refused wc calls what :
    forallb accepted (dictionary_calls w) = true ->
    final_cut (sink_update (dictionary_calls w) w) wc ->
    pages_sent wc calls ->
    num_rows_ w = expected_rows_ w ->
    pager (pager_ wc ++ calls) Close_request = Failed what ->
    Close_run w (Throw (SinkFailure what))
      (sink_update (calls ++ [answered (pager_ wc ++ calls) Close_request]) wc)
| Close_completed wc calls n :
    forallb accepted (dictionary_calls w) = true ->
    final_cut (sink_update (dictionary_calls w) w) wc ->
    pages_sent wc calls ->
    num_rows_ w = expected_rows_ w ->
    pager (pager_ wc ++ calls) Close_request = Done n ->
    Close_run w
      (Ok (int64 (total_bytes_written_ wc + total_bytes calls)))
      (sink_update (calls ++ [answered (pager_ wc ++ calls) Close_request]) wc).

(** [constructed w]: [w] was built by the constructor and has since gone
    through some operations; [still_open w]: none of them was [Close]. *)
Definition constructed (w : TypedColumnWriter) : Prop :=
  exists schema expected_rows encoding w0 ops,
    new_TypedColumnWriter schema expected_rows encoding = Ok w0 /\
    w = perform_all ops w0.

Definition still_open (w : TypedColumnWriter) : Prop :=
  exists schema expected_rows encoding w0 ops,
    new_TypedColumnWriter schema expected_rows encoding = Ok w0 /\
    forallb is_write ops = true /\
    w = perform_all ops w0.


(** [len ()] is a C++ [int]. *)
Definition len_is_int (encoder : LevelEncoder) : Prop :=
  forall max_level n capacity levels encoded payload,
    Encode encoder max_level n capacity levels = Done (encoded, payload) ->
    Z.of_nat (length payload) <= INT32_MAX.

(** What [RleEncodeLevels] asks of the level encoder for [n] buffered
    values. *)
Definition level_payload (n : Z) (buffer : list byte) (max_level : Z)
  : Outcome (Z * list byte) :=
  Encode level_encoder max_level n
    (int64 (MaxBufferSize level_encoder RLE max_level n + 4) - 4)
    (firstn (Z.to_nat n) (int16s_of_bytes buffer)).

(** [out] is [payload] behind its length as four little-endian bytes. *)
Definition framing (payload out : list byte) : Prop :=
  length out = (length payload + 4)%nat /\
  le_value (firstn 4 out) = Z.of_nat (length payload) /\
  skipn 4 out = payload.

(** What a page holds for one kind of levels when [n] values are buffered.
    For a kind the column has: what the level encoder made of the first [n]
    levels of the kind's sink, behind its length in bytes as a [uint32_t].
    For a kind it does not have: the bytes of the sink as they are. *)
Definition staged_levels (n : Z) (buffer : list byte) (max_level : Z)
    (out : list byte) : Prop :=
  if 0 <? max_level then
    exists encoded payload,
      level_payload n buffer max_level = Done (encoded, payload) /\
      out = le_bytes 4 (uint32 (Z.of_nat (length payload))) ++ payload
  else out = buffer.

Definition no_levels (page : DataPageBuffers) : Prop :=
  definition_levels page = [] /\ repetition_levels page = [].

Definition call_without_levels (c : PagerCall) : Prop :=
  match call_request c with
  | WriteDataPage_request _ _ def_levels _ rep_levels _ _ _ =>
      def_levels = [] /\ rep_levels = []
  | _ => True
  end.

(** The state of a writer for a column whose two maximal levels are 0:
    nothing in the level sinks, no run of the level encoder, no level
    buffer in a page, staged or sent. *)
Definition level_free (w : TypedColumnWriter) : Prop :=
  max_definition_level (descr_ w) = 0 /\
  max_repetition_level (descr_ w) = 0 /\
  definition_levels_sink_ w = [] /\
  repetition_levels_sink_ w = [] /\
  level_encoder_ w = [] /\
  Forall no_levels (data_page_buffers_ w) /\
  Forall call_without_levels (pager_ w).


(** The dictionary an encoder would serialize. *)
Definition encoder_dictionary (e : Encoder) : list T :=
  match e with
  | DictEncoder d => dict_entries d
  | PlainEncoder _ => []
  end.

(** The inverse of [encode_indices]: [decode_indices n buffer] reads [n]
    indices. *)
Variable decode_indices : nat -> list byte -> list nat.

(** Modelled from the spec: the reading side is not under src/ (the test
    reads through [Int64Reader] and [SerializedPageReader]). A reader of a
    column without levels takes, page by page in the order the sink
    received them, as many values as the page announces: from the plain
    layout of section 4.2 for a Plain page, and for a dictionary-index page
    by looking the page's indices up in the dictionary page, whose values
    are laid out "in code order". Only pages the sink accepted exist. *)
Fixpoint read_values (n : nat) (buffer : list byte) : list T :=
  match n with
  | O => []
  | S n' =>
      match plain_decode buffer with
      | Some (v, rest) => v :: read_values n' rest
      | None => []
      end
  end.

(** Modelled from the spec: the reader's dictionary, not under src/: the
    values of the dictionary page, as many as it announces. *)
Definition read_dictionary (calls : list PagerCall) : list T :=
  flat_map
    (fun c =>
       match call_request c, call_outcome c with
       | WriteDictionaryPage_request n dictionary _, Done _ =>
           read_values (Z.to_nat n) dictionary
       | _, _ => []
       end)
    calls.

Definition lookup_all (dictionary : list T) (indices : list nat) : list T :=
  flat_map
    (fun i => match nth_error dictionary i with Some v => [v] | None => [] end)
    indices.

(** Modelled from the spec: the values of one data page, not under src/:
    plain values, or dictionary entries by index (section 4.2). *)
Definition read_page (dictionary : list T) (c : PagerCall) : list T :=
  match call_request c, call_outcome c with
  | WriteDataPage_request _ n _ _ _ _ buffer PLAIN, Done _ =>
      read_values (Z.to_nat n) buffer
  | WriteDataPage_request _ n _ _ _ _ buffer PLAIN_DICTIONARY, Done _ =>
      lookup_all dictionary (decode_indices (Z.to_nat n) buffer)
  | _, _ => []
  end.

(** Modelled from the spec: [ReadColumn] of the test, for a column without
    levels: the values of all data pages in the order the sink got them. *)
Definition ReadColumn (calls : list PagerCall) : list T :=
  flat_map (read_page (read_dictionary calls)) calls.

Definition all_valid (vs : list T) : Prop := Forall (fun v => plain_valid v = true) vs.

Definition indices_round_trip : Prop :=
  forall cardinality indices,
    Forall (fun i => (i < cardinality)%nat) indices ->
    decode_indices (length indices) (encode_indices cardinality indices) = indices.

(** [WriteBatch] without levels on a column without levels. *)
Definition batch_recorded (vs : list T) (w : TypedColumnWriter) : TypedColumnWriter :=
  let n := Z.of_nat (length vs) in
  set_num_rows_ (int64 (num_rows_ w + n))
    (set_num_buffered_encoded_values_ (int64 (num_buffered_encoded_values_ w + n))
       (set_num_buffered_values_ (int64 (num_buffered_values_ w + n))
          (set_current_encoder_ (Put vs (current_encoder_ w)) w))).

(** The pages staged once [Close] has made its final cut, for a column
    without levels. *)
Definition staged_at_close (w : TypedColumnWriter) : list DataPageBuffers :=
  data_page_buffers_ w ++
  (if 0 <? num_buffered_values_ w then
     [{| num_buffered_values := num_buffered_values_ w;
         num_buffered_encoded_values := num_buffered_encoded_values_ w;
         definition_levels := definition_levels_sink_ w;
         repetition_levels := repetition_levels_sink_ w;
         values := fst (FlushValues (current_encoder_ w)) |}]
   else []).

(** *** Notions of the further properties *)

(** One call of [WriteDefinitionLevels] or of [WriteRepetitionLevels]. *)
Inductive LevelWrite : Type :=
| Definition_levels (num_levels : Z) (levels : list Z)
| Repetition_levels (num_levels : Z) (levels : list Z).

Definition write_levels (lw : LevelWrite) : M unit :=
  match lw with
  | Definition_levels num_levels levels => WriteDefinitionLevels num_levels levels
  | Repetition_levels num_levels levels => WriteRepetitionLevels num_levels levels
  end.

Definition is_int16 (z : Z) : Prop := - 2 ^ 15 <= z < 2 ^ 15.

(** The caller's side of a level write: an array of [int16_t] that holds
    [num_levels] entries at least. *)
Definition array_of_levels (lw : LevelWrite) : Prop :=
  match lw with
  | Definition_levels num_levels levels
  | Repetition_levels num_levels levels =>
      0 <= num_levels <= Z.of_nat (length levels) /\ Forall is_int16 levels
  end.

Definition written_definition_levels (writes : list LevelWrite) : list Z :=
  flat_map
    (fun lw =>
       match lw with
       | Definition_levels num_levels levels => firstn (Z.to_nat num_levels) levels
       | Repetition_levels _ _ => []
       end)
    writes.

Definition written_repetition_levels (writes : list LevelWrite) : list Z :=
  flat_map
    (fun lw =>
       match lw with
       | Definition_levels _ _ => []
       | Repetition_levels num_levels levels => firstn (Z.to_nat num_levels) levels
       end)
    writes.

(** The use [AddDataPage] makes of [level_encoder_] for one kind of levels
    when [n] values are buffered: none for a kind the column does not have. *)
Definition level_run (n : Z) (buffer : list byte) (max_level : Z)
  : list LevelEncoderRun :=
  if 0 <? max_level then
    [{| run_max_level := max_level;
        run_num_values := n;
        run_levels := firstn (Z.to_nat n) (int16s_of_bytes buffer) |}]
  else [].

Definition cut_runs (w : TypedColumnWriter) : list LevelEncoderRun :=
  level_run (num_buffered_values_ w) (definition_levels_sink_ w)
    (max_definition_level (descr_ w))
  ++ level_run (num_buffered_values_ w) (repetition_levels_sink_ w)
       (max_repetition_level (descr_ w)).

(** The sink of a kind of levels the column has holds a level for each of
    the [n] buffered values: what [RleEncodeLevels] reads lies inside the
    buffer. *)
Definition holds_levels (n : Z) (buffer : list byte) (max_level : Z) : Prop :=
  0 < max_level -> n <= Z.of_nat (length (int16s_of_bytes buffer)).

(** [total_bytes_written_] is what the sink answered, added up. *)
Definition accounted (w : TypedColumnWriter) : Prop :=
  total_bytes_written_ w = int64 (total_bytes (pager_ w)).

(** The encodings a call announces are those [writer.cc] writes down: RLE
    for both kinds of levels; PLAIN_DICTIONARY for the dictionary page, which
    only a dictionary writer sends, and for the values of its data pages;
    PLAIN for the values of any other writer. *)
Definition hard_coded (has_dictionary : bool) (c : PagerCall) : Prop :=
  match call_request c with
  | WriteDictionaryPage_request _ _ encoding =>
      has_dictionary = true /\ encoding = PLAIN_DICTIONARY
  | WriteDataPage_request _ _ _ definition_level_encoding
      _ repetition_level_encoding _ encoding =>
      definition_level_encoding = RLE /\
      repetition_level_encoding = RLE /\
      encoding = (if has_dictionary then PLAIN_DICTIONARY else PLAIN)
  | Close_request => True
  end.

(** The calls a member function made, read against its result: a sink
    failure means that the sink refused the last of them and accepted those
    before it; with any other result it accepted them all. *)
Definition refusals {A} (r : Result A) (calls : list PagerCall) : Prop :=
  match r with
  | Throw (SinkFailure what) =>
      exists before refused,
        calls = before ++ [refused] /\
        forallb accepted before = true /\
        call_outcome refused = Failed what
  | _ => forallb accepted calls = true
  end.

(** [m] talks to a sink that has accepted everything so far, and stops at
    the first call it refuses. *)
Definition stops_at_refusal {A} (m : M A) : Prop :=
  forall earlier calls w r w',
    pager_ w = earlier ++ calls ->
    forallb accepted calls = true ->
    m w = (r, w') ->
    exists calls', pager_ w' = earlier ++ calls' /\ refusals r calls'.

(** * Properties *)

(** ** Integers and bytes *)

Lemma int64_id z : in_int64 z -> int64 z = z.
Proof.
  unfold in_int64, INT64_MIN, INT64_MAX, int64, wrap_signed. intros H.
  rewrite Z.mod_small; lia.
Qed.

Lemma int64_range z : in_int64 (int64 z).
Proof.
  unfold in_int64, INT64_MIN, INT64_MAX, int64, wrap_signed.
  pose proof (Z.mod_pos_bound (z + 2 ^ (64 - 1)) (2 ^ 64) ltac:(lia)). lia.
Qed.

(** Wrapping an intermediate sum changes nothing once the result is wrapped. *)
Lemma int64_add_l a b : int64 (int64 a + b) = int64 (a + b).
Proof.
  unfold int64, wrap_signed. f_equal.
  replace ((a + 2 ^ (64 - 1)) mod 2 ^ 64 - 2 ^ (64 - 1) + b + 2 ^ (64 - 1))
    with ((a + 2 ^ (64 - 1)) mod 2 ^ 64 + b) by lia.
  rewrite Zplus_mod_idemp_l. f_equal. lia.
Qed.

Lemma Z_of_byte_of_Z z : Z_of_byte (byte_of_Z z) = z mod 256.
Proof.
  unfold byte_of_Z, Z_of_byte.
  pose proof (Z.mod_pos_bound z 256 ltac:(lia)) as Hr.
  destruct (Byte.of_N (Z.to_N (z mod 256))) as [b|] eqn:E.
  - apply Byte.to_of_N in E. rewrite E. lia.
  - apply Byte.of_N_None_iff in E. lia.
Qed.

Lemma length_le_bytes n z : length (le_bytes n z) = n.
Proof. revert z. induction n; simpl; intros; [reflexivity | now rewrite IHn]. Qed.

Lemma le_value_le_bytes n z : le_value (le_bytes n z) = z mod 2 ^ (8 * Z.of_nat n).
Proof.
  revert z. induction n as [|n IH]; intros z.
  - simpl. now rewrite Z.mod_1_r.
  - cbn [le_bytes le_value]. rewrite Z_of_byte_of_Z, IH.
    replace (8 * Z.of_nat (S n)) with (8 + 8 * Z.of_nat n) by lia.
    rewrite Z.pow_add_r by lia. change (2 ^ 8) with 256.
    rewrite (Z.rem_mul_r z 256 (2 ^ (8 * Z.of_nat n))) by lia. reflexivity.
Qed.

Lemma le_bytes_app n z rest : firstn n (le_bytes n z ++ rest) = le_bytes n z.
Proof.
  rewrite firstn_app, length_le_bytes, Nat.sub_diag. simpl.
  rewrite app_nil_r. apply firstn_all2. rewrite length_le_bytes. lia.
Qed.

Lemma total_bytes_app a b : total_bytes (a ++ b) = total_bytes a + total_bytes b.
Proof. induction a as [|c a IH]; simpl; [reflexivity | rewrite IH; lia]. Qed.


(** ** The writer's member functions, one by one *)

Lemma bind_inv {A B} (m : M A) (k : A -> M B) (w : TypedColumnWriter) r w' :
  bind m k w = (r, w') ->
  (exists a w1, m w = (Ok a, w1) /\ k a w1 = (r, w')) \/
  (exists e, m w = (Throw e, w') /\ r = Throw e).
Proof.
  unfold bind. destruct (m w) as [[a|e] w1]; intros H.
  - left. eauto.
  - right. inversion H; subst. eauto.
Qed.

(** Inversion of one [bind] in a hypothesis that a computation completed;
    the elementary steps are computed away. *)
Ltac monad_inv H :=
  let a := fresh "a" in
  let w1 := fresh "w" in
  let H1 := fresh "Hstep" in
  let e := fresh "e" in
  apply bind_inv in H;
  destruct H as [(a & w1 & H1 & H) | (e & H1 & H)];
  [ try (unfold gets, modify, ret in H1; inversion H1; subst a w1; clear H1)
  | try discriminate H ].


Lemma writer_eq (a b : TypedColumnWriter) :
  descr_ a = descr_ b -> pager_ a = pager_ b ->
  expected_rows_ a = expected_rows_ b -> has_dictionary_ a = has_dictionary_ b ->
  num_buffered_values_ a = num_buffered_values_ b ->
  num_buffered_encoded_values_ a = num_buffered_encoded_values_ b ->
  num_rows_ a = num_rows_ b -> total_bytes_written_ a = total_bytes_written_ b ->
  definition_levels_sink_ a = definition_levels_sink_ b ->
  repetition_levels_sink_ a = repetition_levels_sink_ b ->
  definition_levels_sink_valid a = definition_levels_sink_valid b ->
  repetition_levels_sink_valid a = repetition_levels_sink_valid b ->
  level_encoder_ a = level_encoder_ b ->
  data_page_buffers_ a = data_page_buffers_ b ->
  current_encoder_ a = current_encoder_ b ->
  writer_state a = writer_state b -> a = b.
Proof. destruct a, b; simpl; intros; subst; reflexivity. Qed.

Lemma sink_update_nil (w : TypedColumnWriter) :
  in_int64 (total_bytes_written_ w) -> sink_update [] w = w.
Proof.
  intros H. apply writer_eq; simpl; try reflexivity.
  - apply app_nil_r.
  - rewrite Z.add_0_r. now apply int64_id.
Qed.

Lemma sink_update_app a b (w : TypedColumnWriter) :
  sink_update b (sink_update a w) = sink_update (a ++ b) w.
Proof.
  apply writer_eq; simpl; try reflexivity.
  - now rewrite app_assoc.
  - rewrite total_bytes_app, int64_add_l. f_equal. lia.
Qed.

(** Field accesses through the setters and [sink_update]. *)
Tactic Notation "fields" :=
  cbn [sink_update descr_ pager_ expected_rows_ has_dictionary_ num_buffered_values_
       num_buffered_encoded_values_ num_rows_ total_bytes_written_
       definition_levels_sink_ repetition_levels_sink_
       definition_levels_sink_valid repetition_levels_sink_valid level_encoder_
       data_page_buffers_ current_encoder_ writer_state
       set_pager_ set_num_buffered_values_ set_num_buffered_encoded_values_
       set_num_rows_ set_total_bytes_written_ set_definition_levels_sink_
       set_repetition_levels_sink_ set_definition_levels_sink_valid
       set_repetition_levels_sink_valid new_definition_levels_sink
       new_repetition_levels_sink set_level_encoder_ set_data_page_buffers_
       set_current_encoder_ fst snd].

Tactic Notation "fields" "in" hyp(H) :=
  cbn [sink_update descr_ pager_ expected_rows_ has_dictionary_ num_buffered_values_
       num_buffered_encoded_values_ num_rows_ total_bytes_written_
       definition_levels_sink_ repetition_levels_sink_
       definition_levels_sink_valid repetition_levels_sink_valid level_encoder_
       data_page_buffers_ current_encoder_ writer_state
       set_pager_ set_num_buffered_values_ set_num_buffered_encoded_values_
       set_num_rows_ set_total_bytes_written_ set_definition_levels_sink_
       set_repetition_levels_sink_ set_definition_levels_sink_valid
       set_repetition_levels_sink_valid new_definition_levels_sink
       new_repetition_levels_sink set_level_encoder_ set_data_page_buffers_
       set_current_encoder_ fst snd] in H.

(** A page cut neither reads nor writes what talking to the sink changes. *)
Lemma AddDataPage_sink_update calls (w : TypedColumnWriter) :
  AddDataPage (sink_update calls w)
  = (fst (AddDataPage w), sink_update calls (snd (AddDataPage w))).
Proof.
  unfold AddDataPage, GetBuffer_definition_levels, GetBuffer_repetition_levels,
    GetValuesBuffer, InitSinks, RleEncodeLevels, bind, gets, modify, ret, throw.
  fields. destruct (FlushValues (current_encoder_ w)) as [buffer e']. fields.
  repeat first
    [ reflexivity
    | match goal with
      | |- context [Encode ?a ?b ?c ?d ?e] =>
          destruct (Encode a b c d e) as [[? ?]|?]
      | |- context [if ?c then _ else _] => destruct c
      end; fields ].
Qed.

Lemma call_pager_eq request (w : TypedColumnWriter) :
  call_pager request w =
  (match pager (pager_ w) request with
   | Done n => Ok n
   | Failed what => Throw (SinkFailure what)
   end,
   set_pager_
     (pager_ w ++ [{| call_request := request;
                      call_outcome := pager (pager_ w) request |}]) w).
Proof.
  unfold call_pager, bind, gets, modify, ret, throw.
  destruct (pager (pager_ w) request); reflexivity.
Qed.

Lemma sink_update_total_range calls (w : TypedColumnWriter) :
  in_int64 (total_bytes_written_ (sink_update calls w)).
Proof. simpl. apply int64_range. Qed.

Lemma WriteNewPage_eq buffers (w : TypedColumnWriter) :
  in_int64 (total_bytes_written_ w) ->
  let request := page_request (has_dictionary_ w) buffers in
  let call := {| call_request := request; call_outcome := pager (pager_ w) request |} in
  WriteNewPage buffers w =
  (match call_outcome call with
   | Done _ => Ok tt
   | Failed what => Throw (SinkFailure what)
   end,
   sink_update [call] w).
Proof.
  intros Hrange. cbv zeta. unfold WriteNewPage.
  unfold bind at 1. unfold gets at 1.
  unfold bind. rewrite call_pager_eq. fold (page_request (has_dictionary_ w) buffers).
  cbn [call_outcome].
  destruct (pager (pager_ w) (page_request (has_dictionary_ w) buffers)) as [n|what];
    unfold modify; f_equal; apply writer_eq; simpl; try reflexivity.
  - f_equal. unfold bytes_written. simpl. lia.
  - unfold bytes_written. simpl. rewrite Z.add_0_r. symmetry. now apply int64_id.
Qed.

(** The loop of [Close]: the pages go to the sink in order until one is
    refused. *)
Lemma for_each_WriteNewPage pages : forall (w : TypedColumnWriter) r w',
  in_int64 (total_bytes_written_ w) ->
  for_each pages (WriteNewPage) w = (r, w') ->
  exists calls,
    w' = sink_update calls w /\
    forallb is_data_page calls = true /\
    match r with
    | Ok _ =>
        map call_request calls = map (page_request (has_dictionary_ w)) pages /\
        forallb accepted calls = true
    | Throw e =>
        (exists what, e = SinkFailure what) /\
        exists sent, map call_request calls
                     = map (page_request (has_dictionary_ w)) sent /\
                     (length sent <= length pages)%nat /\
                     sent = firstn (length sent) pages
    end.
Proof.
  induction pages as [|p pages IH]; intros w r w' Hrange H.
  - cbn in H. inversion H; subst. exists []. rewrite sink_update_nil by assumption.
    repeat split; reflexivity.
  - cbn [for_each] in H. unfold bind in H.
    rewrite WriteNewPage_eq in H by assumption. cbn [call_outcome] in H.
    set (request := page_request (has_dictionary_ w) p) in *.
    destruct (pager (pager_ w) request) as [n|what].
    + set (call := {| call_request := request; call_outcome := Done n |}) in *.
      apply IH in H; [|apply sink_update_total_range].
      destruct H as (calls & -> & Hdata & Hr).
      exists (call :: calls). rewrite sink_update_app. split; [reflexivity|].
      split; [simpl; exact Hdata|].
      change (has_dictionary_ (sink_update [call] w)) with (has_dictionary_ w) in Hr.
      destruct r as [u|e].
      * destruct Hr as [Hm Ha]. split.
        -- simpl. now rewrite Hm.
        -- simpl. exact Ha.
      * destruct Hr as [Hw (sent & Hm & Hl & Hs)]. split; [exact Hw|].
        exists (p :: sent). simpl. rewrite Hm. repeat split; try lia.
        now rewrite <- Hs.
    + set (call := {| call_request := request; call_outcome := Failed what |}) in *.
      inversion H; subst. exists [call]. split; [reflexivity|].
      split; [reflexivity|]. split; [eauto|].
      exists [p]. simpl. repeat split; lia.
Qed.

(** [RleEncodeLevels] reads [num_buffered_values_] and nothing else of the
    object, and only adds a run to [level_encoder_]. *)
Lemma RleEncodeLevels_eq buffer max_level (w : TypedColumnWriter) :
  exists runs,
    snd (RleEncodeLevels buffer max_level w)
    = set_level_encoder_ (level_encoder_ w ++ runs) w.
Proof.
  unfold RleEncodeLevels, bind, gets, modify, throw, ret.
  destruct (Z.of_nat (length (int16s_of_bytes buffer)) <? num_buffered_values_ w).
  - exists []. simpl. apply writer_eq; simpl; try reflexivity. now rewrite app_nil_r.
  - match goal with |- context [Encode ?a ?b ?c ?d ?e] => destruct (Encode a b c d e) as [[k payload]|what] end;
      eexists; reflexivity.
Qed.

Lemma RleEncodeLevels_value buffer max_level (w1 w2 : TypedColumnWriter) :
  num_buffered_values_ w1 = num_buffered_values_ w2 ->
  fst (RleEncodeLevels buffer max_level w1)
  = fst (RleEncodeLevels buffer max_level w2).
Proof.
  intros E. unfold RleEncodeLevels, bind, gets, modify, throw, ret. rewrite E.
  destruct (Z.of_nat (length (int16s_of_bytes buffer)) <? num_buffered_values_ w2);
    [reflexivity|].
  match goal with |- context [Encode ?a ?b ?c ?d ?e] => destruct (Encode a b c d e) as [[k payload]|what] end;
    reflexivity.
Qed.

Lemma level_component_eq buffer max_level (w : TypedColumnWriter) :
  exists runs,
    snd (level_component buffer max_level w)
    = set_level_encoder_ (level_encoder_ w ++ runs) w /\
    (max_level <= 0 -> runs = []).
Proof.
  unfold level_component. destruct (0 <? max_level) eqn:E.
  - destruct (RleEncodeLevels_eq buffer max_level w) as [runs H]. exists runs.
    split; [exact H|]. apply Z.ltb_lt in E. lia.
  - exists []. split; [|reflexivity]. simpl.
    apply writer_eq; simpl; try reflexivity. now rewrite app_nil_r.
Qed.

Lemma level_component_value buffer max_level (w1 w2 : TypedColumnWriter) :
  num_buffered_values_ w1 = num_buffered_values_ w2 ->
  fst (level_component buffer max_level w1) = fst (level_component buffer max_level w2).
Proof.
  intros E. unfold level_component. destruct (0 <? max_level); [|reflexivity].
  now apply RleEncodeLevels_value.
Qed.

Lemma GetValuesBuffer_eq (w : TypedColumnWriter) :
  GetValuesBuffer w =
  (Ok (fst (FlushValues (current_encoder_ w))),
   set_current_encoder_ (snd (FlushValues (current_encoder_ w))) w).
Proof.
  unfold GetValuesBuffer, bind, gets, modify, ret.
  destruct (FlushValues (current_encoder_ w)); reflexivity.
Qed.

(** A completed page cut, field by field. *)
Lemma AddDataPage_ok (w w' : TypedColumnWriter) :
  AddDataPage w = (Ok tt, w') ->
  exists def_levels rep_levels runs,
    fst (level_component (definition_levels_sink_ w)
           (max_definition_level (descr_ w)) w) = Ok def_levels /\
    fst (level_component (repetition_levels_sink_ w)
           (max_repetition_level (descr_ w)) w) = Ok rep_levels /\
    w' = {| descr_ := descr_ w;
            pager_ := pager_ w;
            expected_rows_ := expected_rows_ w;
            has_dictionary_ := has_dictionary_ w;
            num_buffered_values_ := 0;
            num_buffered_encoded_values_ := 0;
            num_rows_ := num_rows_ w;
            total_bytes_written_ := total_bytes_written_ w;
            definition_levels_sink_ := [];
            repetition_levels_sink_ := [];
            definition_levels_sink_valid := true;
            repetition_levels_sink_valid := true;
            level_encoder_ := level_encoder_ w ++ runs;
            data_page_buffers_ :=
              data_page_buffers_ w ++
                [{| num_buffered_values := num_buffered_values_ w;
                    num_buffered_encoded_values := num_buffered_encoded_values_ w;
                    definition_levels := def_levels;
                    repetition_levels := rep_levels;
                    values := fst (FlushValues (current_encoder_ w)) |}];
            current_encoder_ := snd (FlushValues (current_encoder_ w));
            writer_state := writer_state w |} /\
    (max_definition_level (descr_ w) <= 0 ->
     max_repetition_level (descr_ w) <= 0 -> runs = []).
Proof.
  intros H. unfold AddDataPage in H.
  monad_inv H. monad_inv H. monad_inv H. monad_inv H. monad_inv H.
  rewrite GetValuesBuffer_eq in Hstep. inversion Hstep; subst a w0; clear Hstep.
  monad_inv H.
  set (w1 := set_current_encoder_ _ _) in *.
  monad_inv H. monad_inv H.
  unfold InitSinks in H. unfold bind, modify in H. inversion H; subst w'; clear H.
  change (descr_ w1) with (descr_ w) in *.
  fold (level_component (definition_levels_sink_ w) (max_definition_level (descr_ w))) in Hstep.
  fold (level_component (repetition_levels_sink_ w) (max_repetition_level (descr_ w))) in Hstep0.
  destruct (level_component_eq (definition_levels_sink_ w)
              (max_definition_level (descr_ w)) w1) as (runs1 & E1 & Z1).
  destruct (level_component_eq (repetition_levels_sink_ w)
              (max_repetition_level (descr_ w)) w0) as (runs2 & E2 & Z2).
  rewrite Hstep in E1. rewrite Hstep0 in E2. cbn [snd] in E1, E2. subst w0 w2.
  exists a, a0, (runs1 ++ runs2). split; [|split; [|split]].
  - rewrite (level_component_value _ _ w w1) by reflexivity. now rewrite Hstep.
  - rewrite (level_component_value _ _ w
               (set_level_encoder_ (level_encoder_ w1 ++ runs1) w1)) by reflexivity.
    now rewrite Hstep0.
  - apply writer_eq; simpl; try reflexivity. now rewrite app_assoc.
  - intros Hd Hr. rewrite Z1, Z2 by assumption. reflexivity.
Qed.

Lemma preserves_ret {A} P (a : A) : preserves P (ret a).
Proof. intros w r w' HP H. inversion H; subst. exact HP. Qed.

Lemma preserves_gets {A} P (f : TypedColumnWriter -> A) : preserves P (gets f).
Proof. intros w r w' HP H. inversion H; subst. exact HP. Qed.

Lemma preserves_throw {A} P e : preserves P (throw (A := A) e).
Proof. intros w r w' HP H. inversion H; subst. exact HP. Qed.

Lemma preserves_modify P f :
  (forall w, P w -> P (f w)) -> preserves P (modify f).
Proof. intros Hf w r w' HP H. inversion H; subst. now apply Hf. Qed.

Lemma preserves_bind {A B} P (m : M A) (k : A -> M B) :
  preserves P m -> (forall a, preserves P (k a)) -> preserves P (bind m k).
Proof.
  intros Hm Hk w r w' HP H. apply bind_inv in H.
  destruct H as [(a & w1 & H1 & H2) | (e & H1 & _)].
  - eapply Hk; [|exact H2]. eapply Hm; eauto.
  - eapply Hm; eauto.
Qed.

Lemma preserves_when P b m : preserves P m -> preserves P (when b m).
Proof. destruct b; [trivial | intros _; apply preserves_ret]. Qed.

Lemma preserves_for_each {A} P (l : list A) body :
  (forall x, preserves P (body x)) -> preserves P (for_each l body).
Proof.
  intros Hb. induction l as [|x l IH]; cbn [for_each].
  - apply preserves_ret.
  - apply preserves_bind; [apply Hb | intros _; exact IH].
Qed.

Lemma RleEncodeLevels_preserves P buffer max_level :
  (forall w x, P w -> P (set_level_encoder_ x w)) ->
  preserves P (RleEncodeLevels buffer max_level).
Proof.
  intros HP w r w' Hw H.
  destruct (RleEncodeLevels_eq buffer max_level w) as [runs E].
  rewrite H in E. simpl in E. subst w'. now apply HP.
Qed.

Lemma GetValuesBuffer_preserves P :
  (forall w, P w ->
     P (set_current_encoder_ (snd (FlushValues (current_encoder_ w))) w)) ->
  preserves P (GetValuesBuffer).
Proof.
  intros HP w r w' Hw H. rewrite GetValuesBuffer_eq in H. inversion H; subst. auto.
Qed.

Lemma GetBuffer_definition_levels_preserves P :
  (forall w x, P w -> P (set_definition_levels_sink_ x w)) ->
  (forall w x, P w -> P (set_definition_levels_sink_valid x w)) ->
  preserves P GetBuffer_definition_levels.
Proof.
  intros HP HV w r w' Hw H. unfold GetBuffer_definition_levels in H.
  cbv [bind gets modify ret] in H. inversion H; subst. auto.
Qed.

Lemma GetBuffer_repetition_levels_preserves P :
  (forall w x, P w -> P (set_repetition_levels_sink_ x w)) ->
  (forall w x, P w -> P (set_repetition_levels_sink_valid x w)) ->
  preserves P GetBuffer_repetition_levels.
Proof.
  intros HP HV w r w' Hw H. unfold GetBuffer_repetition_levels in H.
  cbv [bind gets modify ret] in H. inversion H; subst. auto.
Qed.

Lemma InitSinks_preserves P :
  (forall w x, P w -> P (set_definition_levels_sink_ x w)) ->
  (forall w x, P w -> P (set_repetition_levels_sink_ x w)) ->
  (forall w x, P w -> P (set_definition_levels_sink_valid x w)) ->
  (forall w x, P w -> P (set_repetition_levels_sink_valid x w)) ->
  preserves P InitSinks.
Proof.
  intros H1 H2 H3 H4. unfold InitSinks.
  apply preserves_bind; [|intros _]; apply preserves_modify; intros;
    unfold new_definition_levels_sink, new_repetition_levels_sink; auto.
Qed.

Lemma AddDataPage_preserves P : untouched_by_cut P -> preserves P AddDataPage.
Proof.
  intros [H1 H2 V1 V2 H3 H4 H5 H6 H7]. unfold AddDataPage.
  apply preserves_bind; [apply preserves_gets | intros n].
  apply preserves_bind; [apply preserves_gets | intros ne].
  apply preserves_bind; [now apply GetBuffer_definition_levels_preserves | intros db].
  apply preserves_bind; [now apply GetBuffer_repetition_levels_preserves | intros rb].
  apply preserves_bind; [now apply GetValuesBuffer_preserves | intros vb].
  apply preserves_bind; [apply preserves_gets | intros descr].
  apply preserves_bind; [|intros dl].
  { destruct (0 <? _); [now apply RleEncodeLevels_preserves | apply preserves_ret]. }
  apply preserves_bind; [|intros rl].
  { destruct (0 <? _); [now apply RleEncodeLevels_preserves | apply preserves_ret]. }
  apply preserves_bind; [apply preserves_modify; intros; auto | intros _].
  apply preserves_bind; [now apply InitSinks_preserves | intros _].
  apply preserves_bind; [apply preserves_modify; intros; auto | intros _].
  apply preserves_modify; intros; auto.
Qed.

Lemma call_pager_preserves P request :
  (forall w x, P w -> P (set_pager_ x w)) -> preserves P (call_pager request).
Proof.
  intros HP w r w' Hw H. rewrite call_pager_eq in H. inversion H; subst. now apply HP.
Qed.

Lemma WriteNewPage_preserves P buffers :
  untouched_by_sink P -> preserves P (WriteNewPage buffers).
Proof.
  intros [H1 H2]. unfold WriteNewPage.
  apply preserves_bind; [apply preserves_gets | intros hd].
  apply preserves_bind; [now apply call_pager_preserves | intros bytes].
  apply preserves_modify. intros; auto.
Qed.

Lemma WriteDictionaryPage_preserves P :
  untouched_by_sink P -> preserves P (WriteDictionaryPage).
Proof.
  intros [H1 H2]. unfold WriteDictionaryPage.
  apply preserves_bind; [apply preserves_gets|]. intros [buffer|d].
  - apply preserves_throw.
  - apply preserves_bind; [now apply call_pager_preserves|].
    intros. apply preserves_modify. intros; auto.
Qed.

Lemma Close_preserves P :
  untouched_by_cut P -> untouched_by_sink P -> preserves P Close.
Proof.
  intros Hcut Hsink. unfold Close.
  apply preserves_bind; [apply preserves_gets | intros hd].
  apply preserves_bind; [|intros _].
  { apply preserves_when. now apply WriteDictionaryPage_preserves. }
  apply preserves_bind; [apply preserves_gets | intros n].
  apply preserves_bind; [|intros _].
  { apply preserves_when. now apply AddDataPage_preserves. }
  apply preserves_bind; [apply preserves_gets | intros pages].
  apply preserves_bind; [|intros _].
  { apply preserves_for_each. intros. now apply WriteNewPage_preserves. }
  apply preserves_bind; [apply preserves_gets | intros nr].
  apply preserves_bind; [apply preserves_gets | intros er].
  apply preserves_bind; [apply preserves_when, preserves_throw | intros _].
  apply preserves_bind; [|intros _; apply preserves_gets].
  apply call_pager_preserves. now destruct Hsink.
Qed.

Lemma WriteBatch_preserves P n defs reps packed :
  untouched_by_batch P -> preserves P (WriteBatch n defs reps packed).
Proof.
  intros [Hcut He Hr]. pose proof Hcut as [H1 H2 V1 V2 H3 H4 H5 H6 H7]. unfold WriteBatch.
  apply preserves_bind; [apply preserves_gets | intros state].
  apply preserves_bind; [|intros _].
  { destruct state; [apply preserves_ret | apply preserves_throw]. }
  apply preserves_bind; [apply preserves_gets | intros descr]. cbv zeta.
  apply preserves_bind; [|intros _].
  { apply preserves_when. apply preserves_modify. intros; auto. }
  apply preserves_bind; [|intros _].
  { destruct reps; [|apply preserves_ret].
    apply preserves_when. apply preserves_modify. intros; auto. }
  apply preserves_bind; [apply preserves_modify; intros; auto | intros _].
  apply preserves_bind; [apply preserves_modify; intros; auto | intros _].
  apply preserves_bind; [apply preserves_modify; intros; auto | intros _].
  apply preserves_bind; [apply preserves_modify; intros; auto | intros _].
  apply preserves_bind; [apply preserves_gets | intros ex].
  apply preserves_when. now apply AddDataPage_preserves.
Qed.

Lemma perform_preserves P op w :
  untouched_by_batch P -> untouched_by_sink P -> P w -> P (perform op w).
Proof.
  intros Hb Hs Hw. destruct op as [n defs reps packed| |]; cbn [perform].
  - eapply (WriteBatch_preserves (P := P)); eauto. apply surjective_pairing.
  - eapply (AddDataPage_preserves (P := P)); eauto; [apply Hb|]. apply surjective_pairing.
  - eapply (Close_preserves (P := P)); eauto; [apply Hb|]. apply surjective_pairing.
Qed.

Lemma perform_all_preserves P ops : forall w,
  untouched_by_batch P -> untouched_by_sink P -> P w -> P (perform_all ops w).
Proof.
  induction ops as [|op ops IH]; intros w Hb Hs Hw; cbn [perform_all fold_left].
  - exact Hw.
  - apply IH; auto. now apply perform_preserves.
Qed.

(** Writes alone do not read or write what the sink sees. *)
Lemma perform_write_preserves P op w :
  untouched_by_batch P -> is_write op = true -> P w -> P (perform op w).
Proof.
  intros Hb Hop Hw. destruct op as [n defs reps packed| |]; cbn [perform]; try discriminate.
  - eapply (WriteBatch_preserves (P := P)); eauto. apply surjective_pairing.
  - eapply (AddDataPage_preserves (P := P)); eauto; [apply Hb|]. apply surjective_pairing.
Qed.

Lemma perform_all_writes_preserves P ops : forall w,
  untouched_by_batch P -> forallb is_write ops = true -> P w -> P (perform_all ops w).
Proof.
  induction ops as [|op ops IH]; intros w Hb Hops Hw; cbn [perform_all fold_left].
  - exact Hw.
  - cbn [forallb] in Hops. apply andb_prop in Hops. destruct Hops as [Hop Hops].
    apply IH; auto. now apply perform_write_preserves.
Qed.

(** *** The encoder variant *)

Lemma FlushValues_variant (e : Encoder) :
  is_dict_encoder (snd (FlushValues e)) = is_dict_encoder e.
Proof. destruct e; reflexivity. Qed.

Lemma Put_variant vs (e : Encoder) : is_dict_encoder (Put vs e) = is_dict_encoder e.
Proof. destruct e; reflexivity. Qed.

Ltac frame :=
  repeat match goal with
         | |- untouched_by_batch _ => constructor
         | |- untouched_by_cut _ => constructor
         | |- untouched_by_sink _ => constructor
         end;
  intros; cbn [descr_ pager_ expected_rows_ has_dictionary_ num_buffered_values_
               num_buffered_encoded_values_ num_rows_ total_bytes_written_
               definition_levels_sink_ repetition_levels_sink_
               definition_levels_sink_valid repetition_levels_sink_valid level_encoder_
               data_page_buffers_ current_encoder_ writer_state
               set_pager_ set_num_buffered_values_ set_num_buffered_encoded_values_
               set_num_rows_ set_total_bytes_written_ set_definition_levels_sink_
               set_repetition_levels_sink_ set_definition_levels_sink_valid
               set_repetition_levels_sink_valid new_definition_levels_sink
               new_repetition_levels_sink set_level_encoder_ set_data_page_buffers_
               set_current_encoder_] in *;
  rewrite ?FlushValues_variant, ?Put_variant; auto using int64_range.

Lemma has_dictionary_fixed ops (w : TypedColumnWriter) :
  has_dictionary_ (perform_all ops w) = has_dictionary_ w.
Proof.
  apply (perform_all_preserves (P := fun x => has_dictionary_ x = has_dictionary_ w));
    [frame | frame | reflexivity].
Qed.

Lemma encoder_variant_fixed ops (w : TypedColumnWriter) :
  is_dict_encoder (current_encoder_ (perform_all ops w))
  = is_dict_encoder (current_encoder_ w).
Proof.
  apply (perform_all_preserves
           (P := fun x => is_dict_encoder (current_encoder_ x)
                          = is_dict_encoder (current_encoder_ w)));
    [frame | frame | reflexivity].
Qed.

Lemma descr_fixed ops (w : TypedColumnWriter) : descr_ (perform_all ops w) = descr_ w.
Proof.
  apply (perform_all_preserves (P := fun x => descr_ x = descr_ w));
    [frame | frame | reflexivity].
Qed.

Lemma expected_rows_fixed ops (w : TypedColumnWriter) :
  expected_rows_ (perform_all ops w) = expected_rows_ w.
Proof.
  apply (perform_all_preserves (P := fun x => expected_rows_ x = expected_rows_ w));
    [frame | frame | reflexivity].
Qed.

(** C8. Constructing a typed writer with an encoding other than PLAIN,
    PLAIN_DICTIONARY and RLE_DICTIONARY throws "not yet implemented"
    (UnsupportedEncoding). With one of these three the writer is built, its
    variant is Dictionary exactly for the two dictionary encodings, and no
    sequence of operations on the writer, whatever their outcome, changes
    [has_dictionary_] or the class of [current_encoder_]. *)
Theorem encoding_fixed_at_construction schema expected_rows encoding :
  match new_TypedColumnWriter schema expected_rows encoding with
  | Throw e => encoding_supported encoding = false /\ e = UnsupportedEncoding
  | Ok w0 =>
      encoding_supported encoding = true /\
      forall ops,
        has_dictionary_ (perform_all ops w0) = is_dictionary_encoding encoding /\
        is_dict_encoder (current_encoder_ (perform_all ops w0))
        = is_dictionary_encoding encoding
  end.
Proof.
  destruct encoding; cbn [new_TypedColumnWriter encoding_supported]; split;
    try reflexivity; intros ops;
    rewrite has_dictionary_fixed, encoder_variant_fixed; split; reflexivity.
Qed.

(** *** [Close], exit by exit *)

Lemma dictionary_buffer d :
  firstn (Z.to_nat (dict_encoded_size d)) (WriteDict d) = WriteDict d.
Proof. unfold dict_encoded_size. rewrite Nat2Z.id. apply firstn_all. Qed.

Lemma dictionary_phase_eq (w : TypedColumnWriter) :
  in_int64 (total_bytes_written_ w) ->
  when (has_dictionary_ w) (WriteDictionaryPage) w =
  if has_dictionary_ w then
    match current_encoder_ w with
    | PlainEncoder _ => (Throw UndefinedBehaviour, w)
    | DictEncoder d =>
        (match pager (pager_ w) (dictionary_request d) with
         | Done _ => Ok tt
         | Failed what => Throw (SinkFailure what)
         end,
         sink_update (dictionary_calls w) w)
    end
  else (Ok tt, w).
Proof.
  intros Hrange. unfold dictionary_calls.
  destruct (has_dictionary_ w); [|reflexivity]. cbn [when].
  unfold WriteDictionaryPage. unfold bind at 1. unfold gets at 1.
  destruct (current_encoder_ w) as [buffer|d]; [reflexivity|].
  cbv zeta. rewrite dictionary_buffer.
  unfold bind. rewrite call_pager_eq. fold (dictionary_request d).
  unfold answered.
  destruct (pager (pager_ w) (dictionary_request d)) as [n|what];
    unfold modify; f_equal; apply writer_eq; simpl; try reflexivity.
  - f_equal. unfold bytes_written. simpl. lia.
  - unfold bytes_written. simpl. rewrite Z.add_0_r. symmetry. now apply int64_id.
Qed.

Lemma RleEncodeLevels_throws buffer max_level (w : TypedColumnWriter) e w' :
  RleEncodeLevels buffer max_level w = (Throw e, w') ->
  e = UndefinedBehaviour \/ exists what, e = LevelOverflow what.
Proof.
  unfold RleEncodeLevels, bind, gets, modify, throw, ret.
  destruct (Z.of_nat (length (int16s_of_bytes buffer)) <? num_buffered_values_ w).
  - intros H. inversion H. now left.
  - match goal with |- context [Encode ?a ?b ?c ?d ?e] => destruct (Encode a b c d e) as [[k payload]|what] end;
      intros H; inversion H. right. eauto.
Qed.

Lemma level_component_throws buffer max_level (w : TypedColumnWriter) e w' :
  level_component buffer max_level w = (Throw e, w') ->
  e = UndefinedBehaviour \/ exists what, e = LevelOverflow what.
Proof.
  unfold level_component. destruct (0 <? max_level).
  - apply RleEncodeLevels_throws.
  - discriminate.
Qed.

Lemma AddDataPage_throws (w : TypedColumnWriter) e w' :
  AddDataPage w = (Throw e, w') ->
  e = UndefinedBehaviour \/ exists what, e = LevelOverflow what.
Proof.
  intros H. unfold AddDataPage in H.
  apply bind_inv in H. destruct H as [(n & w1 & H1 & H) | (e1 & H1 & _)]; [|discriminate H1].
  apply bind_inv in H. destruct H as [(ne & w2 & H2 & H) | (e1 & H2 & _)]; [|discriminate H2].
  apply bind_inv in H. destruct H as [(db & w3 & H3 & H) | (e1 & H3 & _)]; [|discriminate H3].
  apply bind_inv in H. destruct H as [(rb & w4 & H4 & H) | (e1 & H4 & _)]; [|discriminate H4].
  apply bind_inv in H. destruct H as [(vb & w5 & H5 & H) | (e1 & H5 & _)];
    [|rewrite GetValuesBuffer_eq in H5; discriminate H5].
  apply bind_inv in H. destruct H as [(descr & w6 & H6 & H) | (e1 & H6 & _)]; [|discriminate H6].
  apply bind_inv in H. destruct H as [(dl & w7 & H7 & H) | (e1 & H7 & He)].
  2:{ inversion He; subst e1. eapply level_component_throws. exact H7. }
  apply bind_inv in H. destruct H as [(rl & w8 & H8 & H) | (e1 & H8 & He)].
  2:{ inversion He; subst e1. eapply level_component_throws. exact H8. }
  discriminate H.
Qed.

Lemma AddDataPage_pager (w : TypedColumnWriter) r w' :
  AddDataPage w = (r, w') ->
  pager_ w' = pager_ w /\ total_bytes_written_ w' = total_bytes_written_ w.
Proof.
  intros H. split.
  - apply (AddDataPage_preserves (P := fun x => pager_ x = pager_ w)) with (3 := H);
      [frame | reflexivity].
  - apply (AddDataPage_preserves
             (P := fun x => total_bytes_written_ x = total_bytes_written_ w))
      with (3 := H); [frame | reflexivity].
Qed.

Lemma AddDataPage_rows (w : TypedColumnWriter) r w' :
  AddDataPage w = (r, w') ->
  num_rows_ w' = num_rows_ w /\ expected_rows_ w' = expected_rows_ w /\
  has_dictionary_ w' = has_dictionary_ w.
Proof.
  intros H. repeat split.
  - apply (AddDataPage_preserves (P := fun x => num_rows_ x = num_rows_ w)) with (3 := H);
      [frame | reflexivity].
  - apply (AddDataPage_preserves (P := fun x => expected_rows_ x = expected_rows_ w))
      with (3 := H); [frame | reflexivity].
  - apply (AddDataPage_preserves (P := fun x => has_dictionary_ x = has_dictionary_ w))
      with (3 := H); [frame | reflexivity].
Qed.

Lemma final_cut_frame (w wc : TypedColumnWriter) :
  final_cut w wc ->
  pager_ wc = pager_ w /\ total_bytes_written_ wc = total_bytes_written_ w /\
  num_rows_ wc = num_rows_ w /\ expected_rows_ wc = expected_rows_ w /\
  has_dictionary_ wc = has_dictionary_ w.
Proof.
  unfold final_cut. destruct (0 <? num_buffered_values_ w).
  - intros H. pose proof H as H'. apply AddDataPage_pager in H. destruct H as [? ?].
    apply AddDataPage_rows in H'. destruct H' as (? & ? & ?). auto.
  - intros ->. auto.
Qed.

Lemma sink_update_close calls (wc : TypedColumnWriter) :
  set_pager_
    (pager_ (sink_update calls wc) ++ [answered (pager_ (sink_update calls wc)) Close_request])
    (sink_update calls wc)
  = sink_update (calls ++ [answered (pager_ wc ++ calls) Close_request]) wc.
Proof.
  apply writer_eq; simpl; try reflexivity.
  - now rewrite <- app_assoc.
  - rewrite total_bytes_app. f_equal. unfold total_bytes at 3. simpl.
    unfold bytes_written. simpl. lia.
Qed.

Lemma Close_inv (w : TypedColumnWriter) r w' :
  in_int64 (total_bytes_written_ w) ->
  Close w = (r, w') -> Close_run w r w'.
Proof.
  intros Hrange H. unfold Close in H.
  apply bind_inv in H. destruct H as [(hd & w0 & H0 & H) | (e1 & H0 & _)]; [|discriminate H0].
  inversion H0; subst hd w0; clear H0.
  apply bind_inv in H. rewrite dictionary_phase_eq in H by assumption.
  destruct H as [(a & w1 & HA & H) | (e & HA & ->)].
  2:{ destruct (has_dictionary_ w) eqn:Ehd; [|discriminate HA].
      destruct (current_encoder_ w) as [buffer|d] eqn:Eenc.
      - inversion HA; subst. apply Close_bad_cast; [assumption | now rewrite Eenc].
      - destruct (pager (pager_ w) (dictionary_request d)) as [n|what] eqn:Ep;
          inversion HA; subst. now apply Close_dictionary_refused with (d := d). }
  assert (Hd : w1 = sink_update (dictionary_calls w) w /\
               forallb accepted (dictionary_calls w) = true).
  { unfold dictionary_calls at 2. unfold dictionary_calls in HA.
    destruct (has_dictionary_ w) eqn:Ehd.
    - destruct (current_encoder_ w) as [buffer|d] eqn:Eenc; [discriminate HA|].
      destruct (pager (pager_ w) (dictionary_request d)) as [n|what] eqn:Ep;
        inversion HA; subst.
      split.
      + unfold dictionary_calls. now rewrite Ehd, Eenc.
      + simpl. unfold accepted, answered. simpl. now rewrite Ep.
    - inversion HA; subst. split; [|reflexivity].
      unfold dictionary_calls. rewrite Ehd. symmetry. now apply sink_update_nil. }
  destruct Hd as [-> Hacc]. clear HA a.
  set (w1 := sink_update (dictionary_calls w) w) in *.
  apply bind_inv in H. destruct H as [(n & w0 & H0 & H) | (e1 & H0 & _)]; [|discriminate H0].
  inversion H0; subst n w0; clear H0.
  change (num_buffered_values_ w1) with (num_buffered_values_ w) in H.
  apply bind_inv in H. destruct H as [(a & wc & HB & H) | (e & HB & ->)].
  2:{ destruct (0 <? num_buffered_values_ w) eqn:En; [|discriminate HB].
      cbn [when] in HB. apply Z.ltb_lt in En.
      apply Close_cut_failed; auto.
      - eapply AddDataPage_throws; eauto.
      - apply AddDataPage_pager in HB. destruct HB as [Hp _]. rewrite Hp. reflexivity. }
  assert (Hcut : final_cut w1 wc).
  { unfold final_cut. change (num_buffered_values_ w1) with (num_buffered_values_ w).
    destruct (0 <? num_buffered_values_ w); cbn [when] in HB.
    - destruct a. exact HB.
    - inversion HB. reflexivity. }
  clear HB a.
  pose proof Hcut as Hframe. apply final_cut_frame in Hframe.
  destruct Hframe as (Hp & Ht & Hn & He & Hh).
  apply bind_inv in H. destruct H as [(pages & w0 & H0 & H) | (e1 & H0 & _)]; [|discriminate H0].
  inversion H0; subst pages w0; clear H0.
  assert (Hrc : in_int64 (total_bytes_written_ wc)).
  { rewrite Ht. apply sink_update_total_range. }
  apply bind_inv in H. destruct H as [(a & w3 & HC & H) | (e & HC & ->)].
  2:{ apply for_each_WriteNewPage in HC; [|assumption].
      destruct HC as (calls & -> & Hdata & (what & ->) & sent & Hm & Hl & Hs).
      eapply Close_page_refused; eauto. }
  apply for_each_WriteNewPage in HC; [|assumption].
  destruct HC as (calls & -> & Hdata & Hm & Ha).
  assert (Hsent : pages_sent wc calls) by (repeat split; assumption).
  apply bind_inv in H. destruct H as [(nr & w0 & H0 & H) | (e1 & H0 & _)]; [|discriminate H0].
  inversion H0; subst nr w0; clear H0.
  apply bind_inv in H. destruct H as [(er & w0 & H0 & H) | (e1 & H0 & _)]; [|discriminate H0].
  inversion H0; subst er w0; clear H0.
  change (num_rows_ (sink_update calls wc)) with (num_rows_ wc) in H.
  change (expected_rows_ (sink_update calls wc)) with (expected_rows_ wc) in H.
  rewrite Hn, He in H.
  change (num_rows_ w1) with (num_rows_ w) in H.
  change (expected_rows_ w1) with (expected_rows_ w) in H.
  apply bind_inv in H. destruct H as [(u & w0 & HD & H) | (e & HD & ->)].
  2:{ destruct (num_rows_ w =? expected_rows_ w) eqn:Er; [discriminate HD|].
      cbn [negb when] in HD. inversion HD; subst.
      apply Z.eqb_neq in Er. now apply Close_row_count_mismatch. }
  destruct (num_rows_ w =? expected_rows_ w) eqn:Er; [|discriminate HD].
  inversion HD; subst u w0; clear HD. apply Z.eqb_eq in Er.
  apply bind_inv in H. rewrite call_pager_eq in H.
  fold (answered (pager_ (sink_update calls wc)) Close_request) in H.
  rewrite sink_update_close in H.
  change (pager_ (sink_update calls wc)) with (pager_ wc ++ calls) in H.
  destruct H as [(n & w0 & HE & H) | (e & HE & ->)].
  - destruct (pager (pager_ wc ++ calls) Close_request) as [m|what] eqn:Ec;
      inversion HE; subst n w0; clear HE.
    unfold gets in H. inversion H; subst r w'; clear H.
    assert (Hv : forall x, x = int64 (total_bytes_written_ wc + total_bytes calls) ->
                 Close_run w (Ok x)
                   (sink_update (calls ++ [answered (pager_ wc ++ calls) Close_request]) wc)).
    { intros x ->. eapply Close_completed; eauto. }
    apply Hv. simpl. rewrite total_bytes_app. f_equal. unfold total_bytes at 2. simpl.
    unfold bytes_written. simpl. lia.
  - destruct (pager (pager_ wc ++ calls) Close_request) as [m|what] eqn:Ec;
      inversion HE; subst e w'; clear HE.
    now apply Close_close_refused.
Qed.

(** *** Writers as the constructor and the operations make them *)

Lemma still_open_constructed w : still_open w -> constructed w.
Proof. intros (s & n & enc & w0 & ops & H & _ & E). exists s, n, enc, w0, ops. auto. Qed.

Lemma new_TypedColumnWriter_fields schema expected_rows encoding (w0 : TypedColumnWriter) :
  new_TypedColumnWriter schema expected_rows encoding = Ok w0 ->
  descr_ w0 = schema /\ pager_ w0 = [] /\ expected_rows_ w0 = expected_rows /\
  has_dictionary_ w0 = is_dictionary_encoding encoding /\
  is_dict_encoder (current_encoder_ w0) = is_dictionary_encoding encoding /\
  num_buffered_values_ w0 = 0 /\ num_buffered_encoded_values_ w0 = 0 /\
  num_rows_ w0 = 0 /\ total_bytes_written_ w0 = 0 /\
  definition_levels_sink_ w0 = [] /\ repetition_levels_sink_ w0 = [] /\
  level_encoder_ w0 = [] /\ data_page_buffers_ w0 = [] /\
  writer_state w0 = Open.
Proof.
  destruct encoding; cbn [new_TypedColumnWriter]; intros H; inversion H; subst;
    cbn; repeat split; reflexivity.
Qed.

Lemma constructed_variant w :
  constructed w -> has_dictionary_ w = is_dict_encoder (current_encoder_ w).
Proof.
  intros (s & n & enc & w0 & ops & H & ->).
  rewrite has_dictionary_fixed, encoder_variant_fixed.
  apply new_TypedColumnWriter_fields in H. destruct H as (_ & _ & _ & -> & -> & _).
  reflexivity.
Qed.

Lemma constructed_total_range w :
  constructed w -> in_int64 (total_bytes_written_ w).
Proof.
  intros (s & n & enc & w0 & ops & H & ->).
  apply (perform_all_preserves (P := fun x => in_int64 (total_bytes_written_ x)));
    [frame | frame |].
  apply new_TypedColumnWriter_fields in H.
  destruct H as (_ & _ & _ & _ & _ & _ & _ & _ & -> & _).
  unfold in_int64, INT64_MIN, INT64_MAX. lia.
Qed.

Lemma still_open_sink w :
  still_open w -> pager_ w = [] /\ total_bytes_written_ w = 0.
Proof.
  intros (s & n & enc & w0 & ops & H & Hops & ->).
  apply new_TypedColumnWriter_fields in H.
  destruct H as (_ & Hp & _ & _ & _ & _ & _ & _ & Ht & _).
  split.
  - apply (perform_all_writes_preserves (P := fun x => pager_ x = [])); [frame | | ]; auto.
  - apply (perform_all_writes_preserves (P := fun x => total_bytes_written_ x = 0));
      [frame | | ]; auto.
Qed.

(** What [Close] hands to the sink, whichever way it ends: the dictionary
    page of a dictionary writer, then data pages, then at most the closing
    call; and the byte counts are added up. *)
Lemma Close_calls (w : TypedColumnWriter) r w' :
  in_int64 (total_bytes_written_ w) ->
  Close w = (r, w') ->
  exists pages closing,
    pager_ w' = pager_ w ++ dictionary_calls w ++ pages ++ closing /\
    forallb is_data_page pages = true /\
    (closing = [] \/
     closing = [answered (pager_ w ++ dictionary_calls w ++ pages) Close_request]) /\
    total_bytes_written_ w'
    = int64 (total_bytes_written_ w + total_bytes (dictionary_calls w ++ pages ++ closing)).
Proof.
  intros Hrange H. apply Close_inv in H; [|assumption].
  assert (Hcut : forall wc calls,
            final_cut (sink_update (dictionary_calls w) w) wc ->
            pager_ (sink_update calls wc) = pager_ w ++ dictionary_calls w ++ calls /\
            total_bytes_written_ (sink_update calls wc)
            = int64 (total_bytes_written_ w + total_bytes (dictionary_calls w ++ calls))).
  { intros wc calls Hc. apply final_cut_frame in Hc. destruct Hc as (Hp & Ht & _).
    cbn [sink_update pager_ total_bytes_written_ set_pager_ set_total_bytes_written_].
    rewrite Hp, Ht. simpl. split.
    - now rewrite <- app_assoc.
    - rewrite int64_add_l, total_bytes_app. f_equal. lia. }
  inversion H; subst.
  - exists [], []. rewrite !app_nil_r. unfold dictionary_calls.
    destruct (has_dictionary_ w'); [|discriminate].
    destruct (current_encoder_ w'); [|discriminate].
    rewrite app_nil_r. repeat split; auto. simpl. rewrite Z.add_0_r.
    symmetry. now apply int64_id.
  - exists [], []. rewrite !app_nil_r. repeat split; auto.
  - exists [], []. rewrite !app_nil_r. repeat split; auto.
    match goal with Hf : AddDataPage _ = _ |- _ => apply AddDataPage_pager in Hf; destruct Hf as [_ Ht] end.
    rewrite Ht. reflexivity.
  - destruct (Hcut wc calls) as [Hp Ht]; [assumption|].
    exists calls, []. rewrite !app_nil_r. repeat split; auto.
  - destruct (Hcut wc calls) as [Hp Ht]; [assumption|].
    exists calls, []. rewrite !app_nil_r. repeat split; auto.
    match goal with Hs : pages_sent _ _ |- _ => apply Hs end.
  - match goal with Hf : final_cut _ wc |- _ =>
      destruct (Hcut wc (calls ++ [answered (pager_ wc ++ calls) Close_request]) Hf) as [Hp Ht];
      apply final_cut_frame in Hf; destruct Hf as (Hpw & _) end.
    exists calls, [answered (pager_ wc ++ calls) Close_request].
    rewrite Hp, Ht. repeat split; auto.
    + match goal with Hs : pages_sent _ _ |- _ => apply Hs end.
    + right. rewrite Hpw. simpl. now rewrite <- app_assoc.
  - match goal with Hf : final_cut _ wc |- _ =>
      destruct (Hcut wc (calls ++ [answered (pager_ wc ++ calls) Close_request]) Hf) as [Hp Ht];
      apply final_cut_frame in Hf; destruct Hf as (Hpw & _) end.
    exists calls, [answered (pager_ wc ++ calls) Close_request].
    rewrite Hp, Ht. repeat split; auto.
    + match goal with Hs : pages_sent _ _ |- _ => apply Hs end.
    + right. rewrite Hpw. simpl. now rewrite <- app_assoc.
Qed.

(** ** The dictionary page *)

Lemma data_pages_not_dictionary calls :
  forallb is_data_page calls = true -> existsb is_dictionary_page calls = false.
Proof.
  induction calls as [|c calls IH]; [reflexivity|].
  cbn [forallb existsb]. intros H. apply andb_prop in H. destruct H as [Hc H].
  rewrite (IH H), orb_false_r.
  unfold is_data_page in Hc. unfold is_dictionary_page.
  destruct (call_request c); (discriminate || reflexivity).
Qed.

Lemma dictionary_calls_dict (w : TypedColumnWriter) d :
  has_dictionary_ w = true -> current_encoder_ w = DictEncoder d ->
  dictionary_calls w = [answered (pager_ w) (dictionary_request d)].
Proof. intros H E. unfold dictionary_calls. now rewrite H, E. Qed.

Lemma constructed_dictionary w :
  constructed w -> has_dictionary_ w = true ->
  exists d, current_encoder_ w = DictEncoder d.
Proof.
  intros Hc Hd. apply constructed_variant in Hc. rewrite Hd in Hc.
  destruct (current_encoder_ w) as [buffer|d]; [discriminate Hc | eauto].
Qed.

(** C10. For a writer built with a dictionary encoding, whatever has been
    done with it since (nothing at all included): the first thing [Close]
    does is to call the sink's [WriteDictionaryPage], with the number of
    entries of the dictionary as it is at that moment and its serialized
    values. No counter, row count or staged page is looked at before. *)
Theorem dictionary_page_unconditional w r w' :
  constructed w ->
  has_dictionary_ w = true ->
  Close w = (r, w') ->
  exists d rest,
    current_encoder_ w = DictEncoder d /\
    pager_ w' =
      pager_ w ++
      answered (pager_ w)
        (WriteDictionaryPage_request
           (Z.of_nat (length (dict_entries d))) (WriteDict d) PLAIN_DICTIONARY)
      :: rest.
Proof.
  intros Hc Hd H.
  destruct (constructed_dictionary Hc Hd) as [d Ed].
  apply Close_calls in H; [|now apply constructed_total_range].
  destruct H as (pages & closing & Hp & _).
  rewrite (dictionary_calls_dict _ Hd Ed) in Hp.
  exists d, (pages ++ closing). split; [exact Ed|]. exact Hp.
Qed.

(** C1. For a writer of the Dictionary variant that has not been closed
    before, [Close] leaves the sink with the dictionary page as the very
    first call it ever received, so before every data page; it is the only
    dictionary page, and the byte count the sink returned for it is part of
    [total_bytes_written_], which is the (wrapped) sum of this count and of
    those of the calls that follow. *)
Theorem dictionary_page_first w r w' :
  still_open w ->
  has_dictionary_ w = true ->
  Close w = (r, w') ->
  exists d rest,
    let call :=
      answered [] (WriteDictionaryPage_request (num_entries d) (WriteDict d) PLAIN_DICTIONARY) in
    current_encoder_ w = DictEncoder d /\
    pager_ w' = call :: rest /\
    existsb is_dictionary_page rest = false /\
    (forall i c, nth_error (pager_ w') i = Some c -> is_data_page c = true -> (0 < i)%nat) /\
    total_bytes_written_ w' = int64 (bytes_written call + total_bytes rest).
Proof.
  intros Ho Hd H. pose proof (still_open_constructed Ho) as Hc.
  destruct (still_open_sink Ho) as [Hp0 Ht0].
  destruct (constructed_dictionary Hc Hd) as [d Ed].
  apply Close_calls in H; [|now apply constructed_total_range].
  destruct H as (pages & closing & Hp & Hdata & Hclose & Ht).
  rewrite (dictionary_calls_dict _ Hd Ed), Hp0 in Hp, Ht. rewrite Ht0 in Ht.
  cbn [app] in Hp, Ht.
  exists d, (pages ++ closing). cbv zeta. split; [exact Ed|]. split; [exact Hp|].
  split; [|split].
  - rewrite existsb_app, (data_pages_not_dictionary _ Hdata).
    destruct Hclose as [-> | ->]; reflexivity.
  - intros [|i] c Hn Hdp; [|lia]. rewrite Hp in Hn. cbn in Hn. inversion Hn; subst c.
    discriminate Hdp.
  - rewrite Ht. reflexivity.
Qed.

(** ** The row count *)





(** ** A completed [Close] *)

(** C3. For a writer that has not been closed before, a [Close] that
    returns has cut one last page exactly when [num_buffered_values_] was
    positive (the staged pages grew by that one page, holding the buffered
    counts, and by none otherwise), has handed every staged page to the sink
    in staging order between the dictionary page (if any) and the closing
    call, each accepted, and returns [total_bytes_written_]: the sum of the
    byte counts the sink returned for all pages, the dictionary page
    included, as an [int64_t]. *)
Theorem Close_completed_run w b w' :
  still_open w ->
  Close w = (Ok b, w') ->
  exists calls,
    (if 0 <? num_buffered_values_ w
     then exists page,
            data_page_buffers_ w' = data_page_buffers_ w ++ [page] /\
            num_buffered_values page = num_buffered_values_ w /\
            num_buffered_encoded_values page = num_buffered_encoded_values_ w
     else data_page_buffers_ w' = data_page_buffers_ w) /\
    pager_ w' =
      dictionary_calls w ++ calls
        ++ [answered (dictionary_calls w ++ calls) Close_request] /\
    map call_request calls
    = map (page_request (has_dictionary_ w)) (data_page_buffers_ w') /\
    forallb accepted (pager_ w') = true /\
    b = total_bytes_written_ w' /\
    b = int64 (total_bytes (pager_ w')) /\
    (in_int64 (total_bytes (pager_ w')) -> b = total_bytes (pager_ w')).
Proof.
  intros Ho H. pose proof (still_open_constructed Ho) as Hc.
  destruct (still_open_sink Ho) as [Hp0 Ht0].
  apply Close_inv in H; [|now apply constructed_total_range].
  inversion H; subst. clear H.
  match goal with Hs : pages_sent _ _ |- _ => destruct Hs as (Hm & Ha & Hd) end.
  match goal with Hf : final_cut _ wc |- _ =>
    pose proof Hf as Hcut; apply final_cut_frame in Hf;
    destruct Hf as (Hp & Ht & _ & _ & Hh) end.
  cbn [sink_update pager_ total_bytes_written_ has_dictionary_ set_pager_
       set_total_bytes_written_] in Hp, Ht, Hh.
  rewrite Hp0 in Hp. rewrite Ht0 in Ht. cbn [app] in Hp.
  exists calls.
  assert (Hpager : pager_ (sink_update (calls ++ [answered (pager_ wc ++ calls) Close_request]) wc)
                   = dictionary_calls w ++ calls
                       ++ [answered (dictionary_calls w ++ calls) Close_request]).
  { cbn. rewrite Hp. reflexivity. }
  assert (Htotal : int64 (total_bytes_written_ wc + total_bytes calls)
                   = int64 (total_bytes (dictionary_calls w ++ calls
                              ++ [answered (dictionary_calls w ++ calls) Close_request]))).
  { rewrite Ht, int64_add_l. f_equal. rewrite !total_bytes_app.
    change (total_bytes [answered (dictionary_calls w ++ calls) Close_request]) with 0.
    lia. }
  rewrite Hpager. split; [|split; [|split; [|split; [|split; [|split]]]]].
  - unfold final_cut in Hcut. cbn [sink_update num_buffered_values_ set_pager_
      set_total_bytes_written_] in Hcut.
    destruct (0 <? num_buffered_values_ w).
    + apply AddDataPage_ok in Hcut. destruct Hcut as (dl & rl & runs & _ & _ & -> & _).
      eexists. cbn. split; [reflexivity|]. split; reflexivity.
    + subst wc. reflexivity.
  - reflexivity.
  - cbn. rewrite Hm, Hh. reflexivity.
  - rewrite !forallb_app. rewrite Ha.
    match goal with Hx : forallb accepted (dictionary_calls w) = true |- _ => rewrite Hx end.
    cbn. unfold accepted, answered. cbn. rewrite <- Hp.
    match goal with Hx : pager _ Close_request = Done _ |- _ => rewrite Hx end.
    reflexivity.
  - cbn. rewrite total_bytes_app. f_equal. unfold total_bytes at 3. simpl.
    unfold bytes_written. simpl. lia.
  - exact Htotal.
  - intros Hr. rewrite Htotal. now apply int64_id.
Qed.

(** ** The page cut *)

Lemma AddDataPage_throw_pages (w : TypedColumnWriter) e w' :
  AddDataPage w = (Throw e, w') -> data_page_buffers_ w' = data_page_buffers_ w.
Proof.
  intros H. unfold AddDataPage in H.
  apply bind_inv in H. destruct H as [(n & w1 & H1 & H) | (e1 & H1 & _)]; [|discriminate H1].
  inversion H1; subst n w1; clear H1.
  apply bind_inv in H. destruct H as [(ne & w2 & H2 & H) | (e1 & H2 & _)]; [|discriminate H2].
  inversion H2; subst ne w2; clear H2.
  apply bind_inv in H. destruct H as [(db & w3 & H3 & H) | (e1 & H3 & _)]; [|discriminate H3].
  inversion H3; subst db w3; clear H3.
  apply bind_inv in H. destruct H as [(rb & w4 & H4 & H) | (e1 & H4 & _)]; [|discriminate H4].
  inversion H4; subst rb w4; clear H4.
  apply bind_inv in H. rewrite GetValuesBuffer_eq in H.
  destruct H as [(vb & w5 & H5 & H) | (e1 & H5 & _)]; [|discriminate H5].
  inversion H5; subst vb w5; clear H5.
  apply bind_inv in H. destruct H as [(descr & w6 & H6 & H) | (e1 & H6 & _)]; [|discriminate H6].
  inversion H6; subst descr w6; clear H6.
  match type of H with bind _ _ ?x = _ => set (w6 := x) in * end.
  change (descr_ w6) with (descr_ w) in *.
  apply bind_inv in H. destruct H as [(dl & w7 & H7 & H) | (e1 & H7 & He)].
  2:{ destruct (level_component_eq (definition_levels_sink_ w)
                  (max_definition_level (descr_ w)) w6) as (runs & E & _).
      unfold level_component in E. rewrite H7 in E. cbn [snd] in E. subst w'. reflexivity. }
  destruct (level_component_eq (definition_levels_sink_ w)
              (max_definition_level (descr_ w)) w6) as (runs & E & _).
  unfold level_component in E. rewrite H7 in E. cbn [snd] in E. subst w7.
  apply bind_inv in H. destruct H as [(rl & w8 & H8 & H) | (e1 & H8 & He)].
  2:{ match type of H8 with _ ?x = _ =>
        destruct (level_component_eq (repetition_levels_sink_ w)
                    (max_repetition_level (descr_ w)) x) as (runs2 & E & _) end.
      unfold level_component in E. rewrite H8 in E. cbn [snd] in E. subst w'. reflexivity. }
  discriminate H.
Qed.

Lemma level_component_output buffer max_level (w : TypedColumnWriter) out :
  fst (level_component buffer max_level w) = Ok out ->
  staged_levels (num_buffered_values_ w) buffer max_level out.
Proof.
  unfold level_component, staged_levels, level_payload.
  destruct (0 <? max_level); [|intros H; now inversion H].
  unfold RleEncodeLevels, bind, gets, modify, throw, ret.
  destruct (Z.of_nat (length (int16s_of_bytes buffer)) <? num_buffered_values_ w);
    [discriminate|].
  match goal with |- context [Encode ?a ?b ?c ?d ?e] =>
    destruct (Encode a b c d e) as [[encoded payload]|what] end; [|discriminate].
  cbn [fst]. intros H. inversion H; subst. eauto.
Qed.

(** C6. A page cut that completes appends exactly one page to the staged
    pages, which are otherwise as they were. The page holds the two buffered
    counts; for each kind of levels the column has, what the level encoder
    made of the first [num_buffered_values_] levels of the sink, behind its
    length as four little-endian bytes, and the sink's bytes as they are for
    a kind it does not have; and the values the encoder flushed, which the
    encoder no longer holds. Afterwards both level sinks are new streams,
    valid and empty, and both buffered counts are zero; [num_rows_],
    [total_bytes_written_] and the sink are as before. A page cut that
    throws appends nothing. *)
Theorem page_cut_stages_one_page (w : TypedColumnWriter) r w' :
  AddDataPage w = (r, w') ->
  match r with
  | Ok _ =>
      exists page,
        data_page_buffers_ w' = data_page_buffers_ w ++ [page] /\
        num_buffered_values page = num_buffered_values_ w /\
        num_buffered_encoded_values page = num_buffered_encoded_values_ w /\
        staged_levels (num_buffered_values_ w) (definition_levels_sink_ w)
          (max_definition_level (descr_ w)) (definition_levels page) /\
        staged_levels (num_buffered_values_ w) (repetition_levels_sink_ w)
          (max_repetition_level (descr_ w)) (repetition_levels page) /\
        values page = fst (FlushValues (current_encoder_ w)) /\
        current_encoder_ w' = snd (FlushValues (current_encoder_ w)) /\
        definition_levels_sink_ w' = [] /\
        definition_levels_sink_valid w' = true /\
        repetition_levels_sink_ w' = [] /\
        repetition_levels_sink_valid w' = true /\
        num_buffered_values_ w' = 0 /\
        num_buffered_encoded_values_ w' = 0 /\
        num_rows_ w' = num_rows_ w /\
        total_bytes_written_ w' = total_bytes_written_ w /\
        pager_ w' = pager_ w
  | Throw _ => data_page_buffers_ w' = data_page_buffers_ w
  end.
Proof.
  intros H. destruct r as [[]|e]; [|now apply AddDataPage_throw_pages in H].
  apply AddDataPage_ok in H. destruct H as (dl & rl & runs & Hd & Hr & -> & _).
  apply level_component_output in Hd. apply level_component_output in Hr.
  eexists. cbn. split; [reflexivity|]. split; [reflexivity|]. split; [reflexivity|].
  split; [exact Hd|]. split; [exact Hr|]. repeat split; reflexivity.
Qed.

(** ** The framing of level buffers *)

Lemma RleEncodeLevels_framing buffer max_level (w : TypedColumnWriter) out :
  len_is_int level_encoder ->
  fst (RleEncodeLevels buffer max_level w) = Ok out ->
  exists encoded payload,
    level_payload (num_buffered_values_ w) buffer max_level = Done (encoded, payload) /\
    framing payload out.
Proof.
  intros Hint. unfold RleEncodeLevels, level_payload, bind, gets, modify, throw, ret.
  remember (le_bytes 4) as le32 eqn:Ele.
  destruct (Z.of_nat (length (int16s_of_bytes buffer)) <? num_buffered_values_ w);
    [discriminate|].
  match goal with |- context [Encode ?a ?b ?c ?d ?e] =>
    destruct (Encode a b c d e) as [[k payload]|what] eqn:E end; [|discriminate].
  cbn [fst]. intros H. injection H as Hout. subst out.
  exists k, payload. split; [reflexivity|].
  apply Hint in E. unfold INT32_MAX in E.
  assert (Hu : uint32 (Z.of_nat (length payload)) = Z.of_nat (length payload)).
  { unfold uint32. apply Z.mod_small. lia. }
  unfold framing. rewrite Hu. subst le32. split; [|split].
  - rewrite length_app, length_le_bytes. lia.
  - rewrite le_bytes_app, le_value_le_bytes. change (8 * Z.of_nat 4) with 32.
    apply Z.mod_small. lia.
  - rewrite skipn_app, length_le_bytes, Nat.sub_diag, skipn_all2
      by (rewrite length_le_bytes; lia).
    reflexivity.
Qed.

(** C4. Every level buffer a page cut encodes, for a kind of level with a
    positive maximal level, is the level encoder's payload behind a 4-byte
    little-endian prefix that holds the payload's length in bytes; the whole
    buffer is four bytes longer than the payload. [WriteNewPage] passes the
    staged buffers on to the sink as they are. *)
Theorem level_buffers_are_framed (w w' : TypedColumnWriter) :
  len_is_int level_encoder ->
  AddDataPage w = (Ok tt, w') ->
  exists page,
    data_page_buffers_ w' = data_page_buffers_ w ++ [page] /\
    (0 < max_definition_level (descr_ w) ->
     exists encoded payload,
       level_payload (num_buffered_values_ w) (definition_levels_sink_ w)
         (max_definition_level (descr_ w)) = Done (encoded, payload) /\
       framing payload (definition_levels page)) /\
    (0 < max_repetition_level (descr_ w) ->
     exists encoded payload,
       level_payload (num_buffered_values_ w) (repetition_levels_sink_ w)
         (max_repetition_level (descr_ w)) = Done (encoded, payload) /\
       framing payload (repetition_levels page)).
Proof.
  intros Hint H. apply AddDataPage_ok in H.
  destruct H as (dl & rl & runs & Hd & Hr & -> & _).
  eexists. cbn. split; [reflexivity|]. unfold level_component in Hd, Hr. split.
  - intros Hpos. apply Z.ltb_lt in Hpos. rewrite Hpos in Hd.
    now apply RleEncodeLevels_framing.
  - intros Hpos. apply Z.ltb_lt in Hpos. rewrite Hpos in Hr.
    now apply RleEncodeLevels_framing.
Qed.

(** ** Columns without levels *)

(** When both maximal levels are 0 a page cut cannot fail, does not use the
    level encoder, and stages the sinks' bytes as they are. *)
Lemma AddDataPage_without_levels (w : TypedColumnWriter) :
  max_definition_level (descr_ w) = 0 ->
  max_repetition_level (descr_ w) = 0 ->
  AddDataPage w =
  (Ok tt,
   {| descr_ := descr_ w;
      pager_ := pager_ w;
      expected_rows_ := expected_rows_ w;
      has_dictionary_ := has_dictionary_ w;
      num_buffered_values_ := 0;
      num_buffered_encoded_values_ := 0;
      num_rows_ := num_rows_ w;
      total_bytes_written_ := total_bytes_written_ w;
      definition_levels_sink_ := [];
      repetition_levels_sink_ := [];
      definition_levels_sink_valid := true;
      repetition_levels_sink_valid := true;
      level_encoder_ := level_encoder_ w;
      data_page_buffers_ :=
        data_page_buffers_ w ++
          [{| num_buffered_values := num_buffered_values_ w;
              num_buffered_encoded_values := num_buffered_encoded_values_ w;
              definition_levels := definition_levels_sink_ w;
              repetition_levels := repetition_levels_sink_ w;
              values := fst (FlushValues (current_encoder_ w)) |}];
      current_encoder_ := snd (FlushValues (current_encoder_ w));
      writer_state := writer_state w |}).
Proof.
  intros Hd Hr.
  unfold AddDataPage, GetBuffer_definition_levels, GetBuffer_repetition_levels,
    GetValuesBuffer, InitSinks, bind, gets, modify, ret.
  cbn [descr_ current_encoder_ set_definition_levels_sink_ set_repetition_levels_sink_
       set_definition_levels_sink_valid set_repetition_levels_sink_valid].
  destruct (FlushValues (current_encoder_ w)) as [buffer e'].
  cbn -[Z.ltb RleEncodeLevels].
  rewrite Hd, Hr. reflexivity.
Qed.

Lemma preserves_gets_bind {A B} P (f : TypedColumnWriter -> A) (k : A -> M B) :
  (forall w0, P w0 -> forall r w', k (f w0) w0 = (r, w') -> P w') ->
  preserves P (bind (gets f) k).
Proof. intros Hk w r w' HP H. unfold bind, gets in H. eapply Hk; eauto. Qed.

Lemma preserves_for_each_In {A} P (l : list A) body :
  (forall x, In x l -> preserves P (body x)) -> preserves P (for_each l body).
Proof.
  induction l as [|x l IH]; intros Hb; cbn [for_each].
  - apply preserves_ret.
  - apply preserves_bind.
    + apply Hb. now left.
    + intros _. apply IH. intros y Hy. apply Hb. now right.
Qed.

Lemma call_pager_appends P request :
  (forall w, P w -> P (set_pager_ (pager_ w ++ [answered (pager_ w) request]) w)) ->
  preserves P (call_pager request).
Proof.
  intros HP w r w' Hw H. rewrite call_pager_eq in H. inversion H; subst. now apply HP.
Qed.

Lemma level_free_cut : preserves level_free AddDataPage.
Proof.
  intros w r w' (Hd & Hr & Hds & Hrs & Hle & Hpages & Hcalls) H.
  rewrite (AddDataPage_without_levels w Hd Hr) in H. inversion H; subst; clear H.
  unfold level_free. cbn. repeat split; auto.
  apply Forall_app. split; [assumption|]. constructor; [|constructor].
  split; assumption.
Qed.

Lemma level_free_call request :
  (match request with
   | WriteDataPage_request _ _ def_levels _ rep_levels _ _ _ =>
       def_levels = [] /\ rep_levels = []
   | _ => True
   end) ->
  preserves level_free (call_pager request).
Proof.
  intros Hreq. apply call_pager_appends.
  intros w (Hd & Hr & Hds & Hrs & Hle & Hpages & Hcalls).
  unfold level_free. cbn. repeat split; auto.
  apply Forall_app. split; [assumption|]. constructor; [|constructor]. exact Hreq.
Qed.

Lemma level_free_Close : preserves level_free Close.
Proof.
  unfold Close.
  apply preserves_bind; [apply preserves_gets | intros hd].
  apply preserves_bind; [|intros _].
  { apply preserves_when. unfold WriteDictionaryPage.
    apply preserves_bind; [apply preserves_gets | intros [buffer|d]].
    - apply preserves_throw.
    - apply preserves_bind; [now apply level_free_call | intros bytes].
      apply preserves_modify. intros w Hw. exact Hw. }
  apply preserves_bind; [apply preserves_gets | intros n].
  apply preserves_bind; [apply preserves_when, level_free_cut | intros _].
  apply preserves_gets_bind. intros w0 Hw0 r w' H.
  assert (Hpages : Forall no_levels (data_page_buffers_ w0)) by apply Hw0.
  match type of H with ?m w0 = _ =>
    cut (preserves level_free m); [intros Hc; exact (Hc w0 r w' Hw0 H)|] end.
  clear H Hw0 r w'.
  apply preserves_bind; [|intros _].
  { apply preserves_for_each_In. intros page Hin.
    rewrite Forall_forall in Hpages. destruct (Hpages page Hin) as [Hdl Hrl].
    unfold WriteNewPage.
    apply preserves_bind; [apply preserves_gets | intros hd'].
    apply preserves_bind; [|intros bytes].
    - apply level_free_call. split; assumption.
    - apply preserves_modify. intros w Hw. exact Hw. }
  apply preserves_bind; [apply preserves_gets | intros nr].
  apply preserves_bind; [apply preserves_gets | intros er].
  apply preserves_bind; [apply preserves_when, preserves_throw | intros _].
  apply preserves_bind; [|intros _; apply preserves_gets].
  now apply level_free_call.
Qed.

Lemma level_free_WriteBatch n defs reps packed :
  preserves level_free (WriteBatch n defs reps packed).
Proof.
  unfold WriteBatch.
  apply preserves_bind; [apply preserves_gets | intros state].
  apply preserves_bind; [|intros _].
  { destruct state; [apply preserves_ret | apply preserves_throw]. }
  apply preserves_gets_bind. intros w0 Hw0 r w' H.
  cbv zeta in H.
  destruct Hw0 as (Hd & Hr & Hrest). rewrite Hd, Hr in H.
  change (0 <? 0) with false in H. cbn [when] in H.
  assert (Hw0 : level_free w0) by (split; [|split]; assumption).
  match type of H with ?m w0 = _ =>
    cut (preserves level_free m); [intros Hc; exact (Hc w0 r w' Hw0 H)|] end.
  clear.
  apply preserves_bind; [apply preserves_ret | intros _].
  apply preserves_bind; [destruct reps; apply preserves_ret | intros _].
  apply preserves_bind; [apply preserves_modify; intros w Hw; exact Hw | intros _].
  apply preserves_bind; [apply preserves_modify; intros w Hw; exact Hw | intros _].
  apply preserves_bind; [apply preserves_modify; intros w Hw; exact Hw | intros _].
  apply preserves_bind; [apply preserves_modify; intros w Hw; exact Hw | intros _].
  apply preserves_bind; [apply preserves_gets | intros ex].
  apply preserves_when, level_free_cut.
Qed.

Lemma level_free_perform_all ops : forall w,
  level_free w -> level_free (perform_all ops w).
Proof.
  induction ops as [|op ops IH]; intros w Hw; cbn [perform_all fold_left]; [exact Hw|].
  apply IH. destruct op as [n defs reps packed| |]; cbn [perform].
  - eapply level_free_WriteBatch; [exact Hw | apply surjective_pairing].
  - eapply level_free_cut; [exact Hw | apply surjective_pairing].
  - eapply level_free_Close; [exact Hw | apply surjective_pairing].
Qed.

(** C5. For a column whose maximal definition and repetition levels are
    both 0, at every moment of the writer's life: the level encoder has not
    been run, the level sinks are empty, and no page, staged or handed to
    the sink, carries a level buffer: both level components of every data
    page are empty, so there is no 4-byte length prefix either. *)
Theorem no_level_buffers_without_levels schema expected_rows encoding w0 ops :
  max_definition_level schema = 0 ->
  max_repetition_level schema = 0 ->
  new_TypedColumnWriter schema expected_rows encoding = Ok w0 ->
  let w := perform_all ops w0 in
  level_encoder_ w = [] /\
  definition_levels_sink_ w = [] /\
  repetition_levels_sink_ w = [] /\
  (forall page, In page (data_page_buffers_ w) ->
     definition_levels page = [] /\ repetition_levels page = []) /\
  (forall n ne def_levels de rep_levels re vals enc outcome,
     In {| call_request :=
             WriteDataPage_request n ne def_levels de rep_levels re vals enc;
           call_outcome := outcome |} (pager_ w) ->
     def_levels = [] /\ rep_levels = []).
Proof.
  intros Hd Hr Hnew w.
  assert (H0 : level_free w0).
  { apply new_TypedColumnWriter_fields in Hnew.
    destruct Hnew as (E1 & E2 & _ & _ & _ & _ & _ & _ & _ & E3 & E4 & E5 & E6 & _).
    unfold level_free. rewrite E1, E2, E3, E4, E5, E6. repeat split; auto. }
  apply (level_free_perform_all ops) in H0. fold w in H0.
  destruct H0 as (_ & _ & Hds & Hrs & Hle & Hpages & Hcalls).
  repeat split; try assumption.
  - rewrite Forall_forall in Hpages. now apply Hpages.
  - rewrite Forall_forall in Hpages. now apply Hpages.
  - rewrite Forall_forall in Hcalls. apply Hcalls in H. apply H.
  - rewrite Forall_forall in Hcalls. apply Hcalls in H. apply H.
Qed.

(** ** After [Close] *)

Lemma FlushValues_dictionary (e : Encoder) :
  encoder_dictionary (snd (FlushValues e)) = encoder_dictionary e.
Proof. destruct e; reflexivity. Qed.










(** ** Writing a required column and reading it back *)

Lemma read_values_encode {laws : PlainTypeLaws T} vs : forall rest,
  all_valid vs ->
  read_values (length vs) (plain_encode_all vs ++ rest) = vs.
Proof.
  induction vs as [|v vs IH]; intros rest Hv; [reflexivity|].
  inversion Hv; subst. cbn [length read_values plain_encode_all flat_map].
  rewrite <- app_assoc, plain_decode_encode by assumption.
  f_equal. now apply IH.
Qed.

(** The dictionary encoder: every value put gets the index of its entry. *)
Lemma dict_lookup_Some v entries i :
  dict_lookup v entries = Some i -> nth_error entries i = Some v.
Proof.
  revert i. induction entries as [|e entries IH]; intros i; cbn [dict_lookup];
    [discriminate|].
  destruct (value_eq_dec e v) as [->|Hne].
  - intros H. inversion H. reflexivity.
  - destruct (dict_lookup v entries) as [j|]; [|discriminate].
    intros H. inversion H. cbn. now apply IH.
Qed.

Lemma nth_error_extend {A} (l extra : list A) i x :
  nth_error l i = Some x -> nth_error (l ++ extra) i = Some x.
Proof.
  intros H. rewrite nth_error_app1; [exact H|].
  apply nth_error_Some. congruence.
Qed.

Lemma dict_put_index d v :
  exists extra i,
    dict_entries (dict_put d v) = dict_entries d ++ extra /\
    dict_indices (dict_put d v) = dict_indices d ++ [i] /\
    nth_error (dict_entries (dict_put d v)) i = Some v /\
    (extra = [] \/ extra = [v]).
Proof.
  unfold dict_put. destruct (dict_lookup v (dict_entries d)) as [i|] eqn:E.
  - exists [], i. cbn. rewrite app_nil_r. repeat split; auto.
    now apply dict_lookup_Some.
  - exists [v], (length (dict_entries d)). cbn. repeat split; auto.
    rewrite nth_error_app2, Nat.sub_diag by lia. reflexivity.
Qed.

Lemma dict_put_all vs : forall d,
  exists extra indices,
    dict_entries (fold_left dict_put vs d) = dict_entries d ++ extra /\
    dict_indices (fold_left dict_put vs d) = dict_indices d ++ indices /\
    length indices = length vs /\
    lookup_all (dict_entries (fold_left dict_put vs d)) indices = vs /\
    Forall (fun i => (i < length (dict_entries (fold_left dict_put vs d)))%nat) indices /\
    (forall x, In x extra -> In x vs).
Proof.
  induction vs as [|v vs IH]; intros d.
  - exists [], []. cbn. rewrite !app_nil_r. repeat split; auto.
  - cbn [fold_left].
    destruct (dict_put_index d v) as (e1 & i & He1 & Hi1 & Hn1 & Hex).
    destruct (IH (dict_put d v)) as (e2 & js & He2 & Hi2 & Hlen & Hlook & Hlt & Hin).
    exists (e1 ++ e2), (i :: js).
    rewrite He2, Hi2, He1, Hi1. rewrite <- !app_assoc.
    assert (Hn : nth_error (dict_entries d ++ e1 ++ e2) i = Some v).
    { rewrite app_assoc. apply nth_error_extend. now rewrite <- He1. }
    split; [reflexivity|]. split; [reflexivity|]. split; [cbn; lia|].
    rewrite He2, He1, <- app_assoc in Hlook, Hlt.
    split; [|split].
    + cbn [lookup_all flat_map]. rewrite Hn. cbn. f_equal. exact Hlook.
    + constructor; [|exact Hlt]. apply nth_error_Some. congruence.
    + intros x Hx. apply in_app_or in Hx. destruct Hx as [Hx|Hx].
      * destruct Hex as [-> | ->]; [destruct Hx|].
        destruct Hx as [<-|[]]. now left.
      * right. now apply Hin.
Qed.

Lemma WriteBatch_without_levels vs (w : TypedColumnWriter) :
  writer_state w = Open ->
  max_definition_level (descr_ w) = 0 ->
  max_repetition_level (descr_ w) = 0 ->
  WriteBatch (Z.of_nat (length vs)) None None vs w =
  if page_size_exceeded (batch_recorded vs w)
  then AddDataPage (batch_recorded vs w)
  else (Ok tt, batch_recorded vs w).
Proof.
  intros Ho Hd Hr. unfold WriteBatch, WriteValues.
  unfold bind at 1. unfold gets at 1. rewrite Ho.
  unfold bind at 1. unfold ret at 1.
  unfold bind at 1. unfold gets at 1. cbv zeta. rewrite Hd.
  change (0 <? 0) with false. cbn [when].
  rewrite Nat2Z.id, firstn_all.
  unfold bind, ret, modify, gets, batch_recorded.
  destruct (page_size_exceeded _); reflexivity.
Qed.

Lemma Close_without_levels (w : TypedColumnWriter) r w' :
  max_definition_level (descr_ w) = 0 ->
  max_repetition_level (descr_ w) = 0 ->
  has_dictionary_ w = is_dict_encoder (current_encoder_ w) ->
  pager_ w = [] ->
  total_bytes_written_ w = 0 ->
  Close w = (r, w') ->
  (forall what, r <> Throw (SinkFailure what)) ->
  exists calls closing,
    pager_ w' = dictionary_calls w ++ calls ++ closing /\
    forallb accepted (dictionary_calls w) = true /\
    forallb accepted calls = true /\
    map call_request calls = map (page_request (has_dictionary_ w)) (staged_at_close w) /\
    forallb is_close closing = true /\
    num_rows_ w' = num_rows_ w /\
    ((exists b, r = Ok b) /\ num_rows_ w = expected_rows_ w \/
     r = Throw RowCountMismatch /\ num_rows_ w <> expected_rows_ w).
Proof.
  intros Hd Hr Hv Hp0 Ht0 H Hsink.
  apply Close_inv in H.
  2:{ rewrite Ht0. unfold in_int64, INT64_MIN, INT64_MAX. lia. }
  assert (Hcut : forall wc,
            final_cut (sink_update (dictionary_calls w) w) wc ->
            data_page_buffers_ wc = staged_at_close w /\
            pager_ wc = dictionary_calls w /\
            has_dictionary_ wc = has_dictionary_ w /\
            num_rows_ wc = num_rows_ w).
  { intros wc. unfold final_cut, staged_at_close.
    change (num_buffered_values_ (sink_update (dictionary_calls w) w))
      with (num_buffered_values_ w).
    destruct (0 <? num_buffered_values_ w).
    - rewrite AddDataPage_without_levels by assumption. intros Hc.
      inversion Hc; subst wc; clear Hc. cbn. rewrite Hp0. auto.
    - intros ->. cbn. rewrite Hp0, app_nil_r. auto. }
  inversion H; subst; clear H.
  - congruence.
  - exfalso. eapply Hsink. reflexivity.
  - exfalso.
    match goal with Hf : AddDataPage _ = _ |- _ =>
      rewrite AddDataPage_without_levels in Hf by assumption; discriminate Hf end.
  - exfalso. eapply Hsink. reflexivity.
  - match goal with Hf : final_cut _ wc |- _ =>
      destruct (Hcut wc Hf) as (Hpages & Hpw & Hh & Hn) end.
    match goal with Hs : pages_sent _ _ |- _ => destruct Hs as (Hm & Ha & _) end.
    exists calls, []. cbn. rewrite Hpw, app_nil_r. repeat split; auto.
    + rewrite Hm, Hh, Hpages. reflexivity.
  - exfalso. eapply Hsink. reflexivity.
  - match goal with Hf : final_cut _ wc |- _ =>
      destruct (Hcut wc Hf) as (Hpages & Hpw & Hh & Hn) end.
    match goal with Hs : pages_sent _ _ |- _ => destruct Hs as (Hm & Ha & _) end.
    exists calls, [answered (pager_ wc ++ calls) Close_request].
    cbn. rewrite Hpw. repeat split; auto.
    + rewrite Hm, Hh, Hpages. reflexivity.
    + left. split; [eauto | assumption].
Qed.

Lemma closing_reads_nothing dictionary closing :
  forallb is_close closing = true ->
  flat_map (read_page dictionary) closing = [] /\ read_dictionary closing = [].
Proof.
  induction closing as [|c closing IH]; [auto|].
  cbn [forallb]. intros H. apply andb_prop in H. destruct H as [Hc H].
  destruct (IH H) as [IH1 IH2]. unfold read_dictionary in *. cbn [flat_map].
  rewrite IH1, IH2. unfold read_page, is_close in *.
  destruct (call_request c); try discriminate Hc. auto.
Qed.

Lemma dictionary_calls_read (w : TypedColumnWriter) dictionary :
  flat_map (read_page dictionary) (dictionary_calls w) = [].
Proof.
  unfold dictionary_calls. destruct (has_dictionary_ w); [|reflexivity].
  destruct (current_encoder_ w); reflexivity.
Qed.

Lemma accepted_Done c : accepted c = true -> exists n, call_outcome c = Done n.
Proof. unfold accepted. destruct (call_outcome c); [eauto | discriminate]. Qed.

Lemma read_dictionary_dict {laws : PlainTypeLaws T} (w : TypedColumnWriter) d :
  has_dictionary_ w = true ->
  current_encoder_ w = DictEncoder d ->
  forallb accepted (dictionary_calls w) = true ->
  all_valid (dict_entries d) ->
  read_dictionary (dictionary_calls w) = dict_entries d.
Proof.
  intros Hh He Ha Hv. rewrite (dictionary_calls_dict _ Hh He) in *.
  cbn [forallb] in Ha. rewrite andb_true_r in Ha. apply accepted_Done in Ha.
  destruct Ha as [n Hn]. unfold read_dictionary. cbn [flat_map].
  rewrite Hn. cbn [call_request answered dictionary_request].
  rewrite app_nil_r. unfold num_entries, WriteDict. rewrite Nat2Z.id.
  rewrite <- (app_nil_r (plain_encode_all (dict_entries d))).
  now apply read_values_encode.
Qed.

(** C9. Writing [N] values of the column's type in one batch without levels
    to a freshly built writer for a column whose maximal levels are 0,
    closing it, and reading back what the sink accepted yields the [N]
    values in their order; [WriteBatch] returns, [num_rows_] is [N], and
    [Close] returns when [N] rows were expected (and throws
    RowCountMismatch, after the pages were written, when not). *)
Theorem required_column_round_trip {laws : PlainTypeLaws T}
    schema expected_rows encoding (w0 : TypedColumnWriter) vs r1 w1 r2 w2 :
  indices_round_trip ->
  max_definition_level schema = 0 ->
  max_repetition_level schema = 0 ->
  new_TypedColumnWriter schema expected_rows encoding = Ok w0 ->
  all_valid vs ->
  Z.of_nat (length vs) <= INT64_MAX ->
  WriteBatch (Z.of_nat (length vs)) None None vs w0 = (r1, w1) ->
  Close w1 = (r2, w2) ->
  (forall what, r2 <> Throw (SinkFailure what)) ->
  r1 = Ok tt /\
  ReadColumn (pager_ w2) = vs /\
  length (ReadColumn (pager_ w2)) = length vs /\
  num_rows_ w2 = Z.of_nat (length vs) /\
  ((exists b, r2 = Ok b) /\ expected_rows = Z.of_nat (length vs) \/
   r2 = Throw RowCountMismatch /\ expected_rows <> Z.of_nat (length vs)).
Proof.
  intros Hidx Hd Hr Hnew Hvalid Hmax Hbatch Hclose Hsink.
  set (N := Z.of_nat (length vs)) in *.
  pose proof (new_TypedColumnWriter_fields _ _ _ Hnew) as
    (F1 & F2 & F3 & F4 & F5 & F6 & F7 & F8 & F9 & F10 & F11 & F12 & F13 & F14).
  assert (HN : int64 (0 + N) = N).
  { apply int64_id. unfold in_int64, INT64_MIN, INT64_MAX in *. unfold N. lia. }
  set (e1 := Put vs (current_encoder_ w0)).
  set (page := {| num_buffered_values := N;
                  num_buffered_encoded_values := N;
                  definition_levels := [];
                  repetition_levels := [];
                  values := fst (FlushValues e1) |}).
  (* the writer after the batch *)
  assert (Hw1 : r1 = Ok tt /\
                descr_ w1 = schema /\ pager_ w1 = [] /\ total_bytes_written_ w1 = 0 /\
                has_dictionary_ w1 = is_dictionary_encoding encoding /\
                is_dict_encoder (current_encoder_ w1) = is_dictionary_encoding encoding /\
                encoder_dictionary (current_encoder_ w1) = encoder_dictionary e1 /\
                num_rows_ w1 = N /\ expected_rows_ w1 = expected_rows /\
                (staged_at_close w1 = [page] \/ staged_at_close w1 = [] /\ vs = [])).
  { unfold N in Hbatch.
    rewrite WriteBatch_without_levels in Hbatch by (rewrite ?F1; assumption).
    assert (Hrec : batch_recorded vs w0 =
                   {| descr_ := schema; pager_ := []; expected_rows_ := expected_rows;
                      has_dictionary_ := is_dictionary_encoding encoding;
                      num_buffered_values_ := N; num_buffered_encoded_values_ := N;
                      num_rows_ := N; total_bytes_written_ := 0;
                      definition_levels_sink_ := []; repetition_levels_sink_ := [];
                      definition_levels_sink_valid := definition_levels_sink_valid w0;
                      repetition_levels_sink_valid := repetition_levels_sink_valid w0;
                      level_encoder_ := []; data_page_buffers_ := [];
                      current_encoder_ := e1;
                      writer_state := writer_state w0 |}).
    { unfold batch_recorded. fold N. apply writer_eq; cbn;
        rewrite ?F6, ?F7, ?F8, ?HN; try congruence; reflexivity. }
    rewrite Hrec in Hbatch.
    destruct (page_size_exceeded _).
    - rewrite AddDataPage_without_levels in Hbatch by assumption.
      inversion Hbatch; subst r1 w1; clear Hbatch. cbn.
      unfold e1 at 1 2. rewrite FlushValues_variant, FlushValues_dictionary, Put_variant.
      repeat split; auto.
    - inversion Hbatch; subst r1 w1; clear Hbatch. unfold staged_at_close. cbn.
      unfold e1 at 1. rewrite Put_variant.
      repeat split; auto.
      destruct (0 <? N) eqn:EN; [now left|]. right. split; [reflexivity|].
      apply Z.ltb_ge in EN. destruct vs; [reflexivity|]. unfold N in EN. cbn in EN. lia. }
  destruct Hw1 as (-> & G1 & G2 & G3 & G4 & G5 & G6 & G7 & G8 & Hstaged).
  split; [reflexivity|].
  apply Close_without_levels in Hclose; try assumption; try (rewrite G1; assumption);
    try congruence.
  destruct Hclose as (calls & closing & Hp & Had & Hac & Hm & Hcl & Hn & Hres).
  destruct (closing_reads_nothing (read_dictionary (pager_ w2)) closing Hcl) as [Hc1 _].
  destruct (closing_reads_nothing [] closing Hcl) as [_ Hc2].
  assert (Hread : ReadColumn (pager_ w2) = vs).
  { unfold ReadColumn. rewrite Hp at 2. rewrite !flat_map_app.
    rewrite dictionary_calls_read, Hc1, app_nil_r. cbn [app].
    destruct Hstaged as [Hst | [Hst ->]].
    2:{ rewrite Hst in Hm. destruct calls; [reflexivity | discriminate Hm]. }
    rewrite Hst in Hm. destruct calls as [|c [|c2 calls]]; try discriminate Hm.
    cbn [map] in Hm. injection Hm as Hreq.
    cbn [forallb] in Hac. rewrite andb_true_r in Hac.
    apply accepted_Done in Hac. destruct Hac as [n Hn'].
    cbn [flat_map]. rewrite app_nil_r.
    assert (Hdictread : read_dictionary (pager_ w2) = read_dictionary (dictionary_calls w1)).
    { rewrite Hp. unfold read_dictionary. rewrite !flat_map_app.
      fold (read_dictionary closing). rewrite Hc2, app_nil_r.
      cbn [flat_map]. rewrite Hreq. cbn. now rewrite app_nil_r. }
    rewrite Hdictread.
    unfold read_page. rewrite Hreq, Hn'. unfold page_request. cbn [page values
      num_buffered_encoded_values].
    rewrite G4. unfold e1 in *.
    destruct (current_encoder_ w0) as [buffer0|d0] eqn:Ee0.
    - (* Plain *)
      cbn in F5. rewrite <- F5. cbn.
      destruct encoding; cbn in Hnew; inversion Hnew; subst w0; cbn in Ee0;
        inversion Ee0; subst buffer0.
      cbn [app]. unfold N. rewrite Nat2Z.id.
      rewrite <- (app_nil_r (plain_encode_all vs)). now apply read_values_encode.
    - (* Dictionary *)
      cbn in F5. rewrite <- F5. cbn [FlushValues Put fst].
      assert (Hd0 : d0 = {| dict_entries := []; dict_indices := [] |}).
      { destruct encoding; cbn in Hnew; inversion Hnew; subst w0; cbn in Ee0;
          inversion Ee0; reflexivity. }
      subst d0.
      destruct (dict_put_all vs {| dict_entries := []; dict_indices := [] |})
        as (extra & js & He & Hi & Hlen & Hlook & Hlt & Hin).
      cbn [dict_entries dict_indices app] in He, Hi.
      destruct (current_encoder_ w1) as [b1|d1] eqn:Ee1.
      { cbn in G5. rewrite <- F5 in G5. discriminate G5. }
      cbn in G6.
      rewrite (read_dictionary_dict w1 (d := d1)); try assumption.
      + rewrite G6, Hi. unfold N. rewrite Nat2Z.id, <- Hlen.
        rewrite He. rewrite Hidx.
        * rewrite <- He. exact Hlook.
        * rewrite <- He. exact Hlt.
      + rewrite G4, <- F5. reflexivity.
      + rewrite G6, He. unfold all_valid in *. rewrite Forall_forall in *.
        intros x Hx. apply Hvalid. now apply Hin. }
  split; [exact Hread|]. split; [now rewrite Hread|]. split; [congruence|].
  rewrite G7, G8 in Hres. destruct Hres as [[Hb He] | [Hb He]].
  - left. split; [exact Hb | congruence].
  - right. split; [exact Hb | congruence].
Qed.

(** * Further properties of [writer.cc] *)

(** ** Levels on their way to the level encoder *)

Lemma int16_le_value_le_bytes z : is_int16 z -> int16 (le_value (le_bytes 2 z)) = z.
Proof.
  unfold is_int16. change (2 ^ 15) with 32768. intros H.
  rewrite le_value_le_bytes. change (8 * Z.of_nat 2) with 16.
  unfold int16, wrap_signed. rewrite Zplus_mod_idemp_l.
  change (2 ^ (16 - 1)) with 32768. change (2 ^ 16) with 65536.
  rewrite Z.mod_small; lia.
Qed.

Lemma levels_bytes_app a b : levels_bytes (a ++ b) = levels_bytes a ++ levels_bytes b.
Proof. unfold levels_bytes. apply flat_map_app. Qed.

(** The two [reinterpret_cast]s undo each other. *)
Lemma int16s_of_levels_bytes levels :
  Forall is_int16 levels -> int16s_of_bytes (levels_bytes levels) = levels.
Proof.
  induction 1 as [|x levels Hx _ IH]; [reflexivity|].
  change (levels_bytes (x :: levels))
    with (byte_of_Z x :: byte_of_Z (x / 256) :: levels_bytes levels).
  cbn [int16s_of_bytes].
  change [byte_of_Z x; byte_of_Z (x / 256)] with (le_bytes 2 x).
  now rewrite int16_le_value_le_bytes, IH.
Qed.

Lemma firstn_levels_bytes k : forall levels,
  firstn (2 * k) (levels_bytes levels) = levels_bytes (firstn k levels).
Proof.
  induction k as [|k IH]; intros levels; [reflexivity|].
  replace (2 * S k)%nat with (S (S (2 * k))) by lia.
  destruct levels as [|x levels]; [reflexivity|].
  change (levels_bytes (x :: levels))
    with (byte_of_Z x :: byte_of_Z (x / 256) :: levels_bytes levels).
  cbn [firstn]. rewrite IH. reflexivity.
Qed.

Lemma written_bytes n levels :
  0 <= n ->
  firstn (Z.to_nat (2 * n)) (levels_bytes levels)
  = levels_bytes (firstn (Z.to_nat n) levels).
Proof.
  intros Hn. rewrite Z2Nat.inj_mul by lia. change (Z.to_nat 2) with 2%nat.
  apply firstn_levels_bytes.
Qed.

Lemma Forall_prefix {A} (P : A -> Prop) n : forall l,
  Forall P l -> Forall P (firstn n l).
Proof.
  induction n as [|n IH]; intros [|x l] H; cbn [firstn]; try constructor;
    inversion H; subst; auto.
Qed.

Lemma written_levels_int16 writes :
  Forall array_of_levels writes ->
  Forall is_int16 (written_definition_levels writes) /\
  Forall is_int16 (written_repetition_levels writes).
Proof.
  induction 1 as [|lw writes Hlw _ [IHd IHr]]; [split; constructor|].
  unfold written_definition_levels, written_repetition_levels. cbn [flat_map].
  destruct lw as [n levels|n levels]; destruct Hlw as [_ Hl];
    split; try assumption; apply Forall_app; split; try assumption;
    now apply Forall_prefix.
Qed.

(** A sequence of level writes, sink by sink. *)
Lemma level_writes_sinks writes : forall (w : TypedColumnWriter) r w',
  Forall array_of_levels writes ->
  for_each writes write_levels w = (r, w') ->
  r = Ok tt /\
  w' = set_repetition_levels_sink_
         (repetition_levels_sink_ w
            ++ levels_bytes (written_repetition_levels writes))
         (set_definition_levels_sink_
            (definition_levels_sink_ w
               ++ levels_bytes (written_definition_levels writes)) w).
Proof.
  induction writes as [|lw writes IH]; intros w r w' Hw H.
  - cbn in H. inversion H; subst. split; [reflexivity|].
    apply writer_eq; cbn; try reflexivity; now rewrite app_nil_r.
  - inversion Hw as [|? ? Hlw Hws]; subst.
    cbn [for_each] in H. unfold bind in H.
    destruct lw as [n levels|n levels]; destruct Hlw as [[Hn _] _];
      cbn [write_levels] in H;
      unfold WriteDefinitionLevels, WriteRepetitionLevels, modify in H;
      apply IH in H; try assumption; destruct H as [-> ->];
      (split; [reflexivity|]);
      unfold written_definition_levels, written_repetition_levels;
      cbn [flat_map]; rewrite written_bytes by assumption;
      apply writer_eq; cbn; try reflexivity;
      now rewrite ?levels_bytes_app, ?app_assoc.
Qed.

(** X1. Levels written through [WriteDefinitionLevels] and
    [WriteRepetitionLevels], in any interleaving, starting from empty sinks:
    every call completes; read back as [int16_t] arrays, the way
    [RleEncodeLevels] reads them, the definition sink holds the definition
    levels of all calls in call order and the repetition sink the repetition
    levels; nothing else in the object has changed, the buffered counts
    included. *)
Theorem level_writes_round_trip writes (w : TypedColumnWriter) r w' :
  Forall array_of_levels writes ->
  definition_levels_sink_ w = [] ->
  repetition_levels_sink_ w = [] ->
  for_each writes write_levels w = (r, w') ->
  r = Ok tt /\
  int16s_of_bytes (definition_levels_sink_ w') = written_definition_levels writes /\
  int16s_of_bytes (repetition_levels_sink_ w') = written_repetition_levels writes /\
  w' = set_repetition_levels_sink_ (repetition_levels_sink_ w')
         (set_definition_levels_sink_ (definition_levels_sink_ w') w).
Proof.
  intros Hw Hd Hr H. destruct (written_levels_int16 Hw) as [Hid Hir].
  apply level_writes_sinks in H; [|assumption]. destruct H as [-> ->].
  rewrite Hd, Hr. cbn.
  rewrite !int16s_of_levels_bytes by assumption. repeat split; reflexivity.
Qed.

(** What one level component adds to [level_encoder_] when it completes. *)
Lemma level_component_run buffer max_level (w : TypedColumnWriter) out w' :
  level_component buffer max_level w = (Ok out, w') ->
  w' = set_level_encoder_
         (level_encoder_ w ++ level_run (num_buffered_values_ w) buffer max_level) w.
Proof.
  unfold level_component, level_run. destruct (0 <? max_level).
  - unfold RleEncodeLevels, bind, gets, modify, throw, ret.
    destruct (Z.of_nat (length (int16s_of_bytes buffer)) <? num_buffered_values_ w);
      [discriminate|].
    match goal with |- context [Encode ?a ?b ?c ?d ?e] =>
      destruct (Encode a b c d e) as [[k payload]|what] end; [|discriminate].
    intros H. inversion H; subst. reflexivity.
  - intros H. inversion H; subst.
    apply writer_eq; cbn; try reflexivity. now rewrite app_nil_r.
Qed.

(** X2. A page cut that completes has used the level encoder once for each
    kind of levels the column has, the definition levels first, each time
    for [num_buffered_values_] values and on the first [num_buffered_values_]
    levels of the kind's sink; these are the only uses it made of it. *)
Theorem page_cut_encoder_runs (w w' : TypedColumnWriter) :
  AddDataPage w = (Ok tt, w') ->
  level_encoder_ w' = level_encoder_ w ++ cut_runs w.
Proof.
  intros H. unfold AddDataPage in H.
  monad_inv H. monad_inv H. monad_inv H. monad_inv H. monad_inv H.
  rewrite GetValuesBuffer_eq in Hstep. inversion Hstep; subst a w0; clear Hstep.
  monad_inv H.
  set (w1 := set_current_encoder_ _ _) in *.
  monad_inv H. monad_inv H.
  unfold InitSinks in H. unfold bind, modify in H. inversion H; subst w'; clear H.
  change (descr_ w1) with (descr_ w) in *.
  fold (level_component (definition_levels_sink_ w) (max_definition_level (descr_ w)))
    in Hstep.
  fold (level_component (repetition_levels_sink_ w) (max_repetition_level (descr_ w)))
    in Hstep0.
  apply level_component_run in Hstep. subst w0.
  apply level_component_run in Hstep0. subst w2.
  unfold cut_runs. cbn. now rewrite app_assoc.
Qed.

(** ** The byte total *)

Lemma accounted_range (w : TypedColumnWriter) :
  accounted w -> in_int64 (total_bytes_written_ w).
Proof. unfold accounted. intros ->. apply int64_range. Qed.

Lemma accounted_sink_update calls (w : TypedColumnWriter) :
  accounted w -> accounted (sink_update calls w).
Proof.
  unfold accounted, sink_update.
  cbn [total_bytes_written_ pager_ set_total_bytes_written_ set_pager_].
  intros ->.
  now rewrite int64_add_l, total_bytes_app.
Qed.

Lemma accounted_WriteDictionaryPage : preserves accounted WriteDictionaryPage.
Proof.
  intros w r w' Hw H. unfold WriteDictionaryPage in H.
  unfold bind at 1 in H. unfold gets at 1 in H.
  destruct (current_encoder_ w) as [buffer|d]; [inversion H; now subst|].
  cbv zeta in H. unfold bind in H. rewrite call_pager_eq in H.
  match type of H with context [pager (pager_ w) ?q] =>
    set (request := q) in *; destruct (pager (pager_ w) request) as [n|what] eqn:E end;
    unfold modify in H; inversion H; subst; clear H;
    unfold accounted in *;
    cbn [total_bytes_written_ pager_ set_total_bytes_written_ set_pager_];
    rewrite Hw, total_bytes_app, ?int64_add_l; f_equal; cbn; lia.
Qed.

(** X3. [total_bytes_written_] is the sum, as an [int64_t], of the byte
    counts the sink has returned: it is so for a writer as the constructor
    builds it, and every member function of [writer.cc] keeps it so however
    it ends; a call the sink refuses adds nothing. *)
Theorem byte_total_is_accounted :
  (forall schema expected_rows encoding w0,
     new_TypedColumnWriter schema expected_rows encoding = Ok w0 -> accounted w0) /\
  (forall w : TypedColumnWriter,
     accounted w ->
     accounted (snd (Close w)) /\
     accounted (snd (AddDataPage w)) /\
     accounted (snd (WriteDictionaryPage w)) /\
     (forall buffers, accounted (snd (WriteNewPage buffers w))) /\
     (forall lw, accounted (snd (write_levels lw w)))).
Proof.
  split.
  - intros schema expected_rows encoding w0 H.
    destruct encoding; inversion H; subst; reflexivity.
  - intros w Hw. pose proof (accounted_range Hw) as Hrange.
    split; [|split; [|split; [|split]]].
    + destruct (Close w) as [r w'] eqn:H. cbn [snd].
      apply Close_calls in H; [|assumption].
      destruct H as (pages & closing & Hp & _ & _ & Ht).
      unfold accounted in *. rewrite Ht, Hp, Hw.
      now rewrite int64_add_l, (total_bytes_app (pager_ w)).
    + destruct (AddDataPage w) as [r w'] eqn:H. cbn [snd].
      apply AddDataPage_pager in H. destruct H as [Hp Ht].
      unfold accounted in *. now rewrite Hp, Ht.
    + destruct (WriteDictionaryPage w) as [r w'] eqn:H. cbn [snd].
      exact (accounted_WriteDictionaryPage Hw H).
    + intros buffers. rewrite WriteNewPage_eq by assumption. cbn [snd].
      now apply accounted_sink_update.
    + intros [n levels|n levels]; exact Hw.
Qed.

(** ** The encodings the sink is told *)

Lemma hard_coded_call hd request earlier :
  (forall outcome,
     hard_coded hd {| call_request := request; call_outcome := outcome |}) ->
  preserves
    (fun x => has_dictionary_ x = hd /\
              exists calls, pager_ x = earlier ++ calls /\ Forall (hard_coded hd) calls)
    (call_pager request).
Proof.
  intros Hreq. apply call_pager_appends.
  intros w (Hhd & calls & Hp & Hc). split; [exact Hhd|].
  exists (calls ++ [answered (pager_ w) request]). cbn. split.
  - now rewrite Hp, app_assoc.
  - apply Forall_app. split; [assumption|]. constructor; [|constructor].
    apply Hreq.
Qed.

Lemma hard_coded_Close hd earlier :
  preserves
    (fun x => has_dictionary_ x = hd /\
              exists calls, pager_ x = earlier ++ calls /\ Forall (hard_coded hd) calls)
    Close.
Proof.
  set (P := fun x : TypedColumnWriter =>
              has_dictionary_ x = hd /\
              exists calls, pager_ x = earlier ++ calls /\ Forall (hard_coded hd) calls).
  unfold Close. apply preserves_gets_bind. intros w0 Hw0 r w' H.
  assert (Hhd : has_dictionary_ w0 = hd) by apply Hw0. rewrite Hhd in H.
  match type of H with ?m w0 = _ =>
    cut (preserves P m); [intros Hc; exact (Hc w0 r w' Hw0 H)|] end.
  clear H Hw0 Hhd r w' w0.
  apply preserves_bind; [|intros _].
  { destruct hd eqn:Ehd; cbn [when]; [|apply preserves_ret].
    unfold WriteDictionaryPage.
    apply preserves_bind; [apply preserves_gets | intros [buffer|d]].
    - apply preserves_throw.
    - apply preserves_bind; [|intros bytes].
      + apply hard_coded_call. intros outcome. split; reflexivity.
      + apply preserves_modify. intros w Hw. exact Hw. }
  apply preserves_bind; [apply preserves_gets | intros n].
  apply preserves_bind; [|intros _].
  { apply preserves_when, AddDataPage_preserves.
    constructor; intros w; intros; assumption. }
  apply preserves_bind; [apply preserves_gets | intros pages].
  apply preserves_bind; [|intros _].
  { apply preserves_for_each. intros page. unfold WriteNewPage.
    apply preserves_gets_bind. intros w0 Hw0 r w' H.
    assert (Hhd : has_dictionary_ w0 = hd) by apply Hw0. rewrite Hhd in H.
    match type of H with ?m w0 = _ =>
      cut (preserves P m); [intros Hc; exact (Hc w0 r w' Hw0 H)|] end.
    apply preserves_bind; [|intros bytes].
    - apply hard_coded_call. intros outcome. repeat split.
    - apply preserves_modify. intros w Hw. exact Hw. }
  apply preserves_bind; [apply preserves_gets | intros nr].
  apply preserves_bind; [apply preserves_gets | intros er].
  apply preserves_bind; [apply preserves_when, preserves_throw | intros _].
  apply preserves_bind; [|intros _; apply preserves_gets].
  apply hard_coded_call. intros outcome. exact I.
Qed.

(** X4. Whatever [Close] hands to the sink, and however it ends, carries
    the encodings written down in [writer.cc]: both level buffers of every
    data page are announced as RLE and its values as PLAIN_DICTIONARY when
    [has_dictionary_] is set (as it is for a writer built with
    PLAIN_DICTIONARY and for one built with RLE_DICTIONARY) and as PLAIN
    otherwise; a dictionary page is announced as PLAIN_DICTIONARY, and is
    sent only when [has_dictionary_] is set. The calls the sink received
    before are left as they were. *)
Theorem Close_announces_hard_coded_encodings (w : TypedColumnWriter) r w' :
  Close w = (r, w') ->
  exists calls,
    pager_ w' = pager_ w ++ calls /\
    Forall (hard_coded (has_dictionary_ w)) calls.
Proof.
  intros H.
  refine (proj2 (@hard_coded_Close (has_dictionary_ w) (pager_ w) w r w' _ H)).
  split; [reflexivity|]. exists []. split; [now rewrite app_nil_r | constructor].
Qed.

(** ** A sink that refuses a call *)

Lemma refusals_accepted {A} (r : Result A) calls :
  (forall what, r <> Throw (SinkFailure what)) ->
  forallb accepted calls = true -> refusals r calls.
Proof.
  intros Hr Ha. destruct r as [a|[]]; cbn; try assumption.
  exfalso. eapply Hr. reflexivity.
Qed.

Lemma stops_ret {A} (a : A) : stops_at_refusal (ret a).
Proof. intros p0 calls w r w' Hp Ha H. inversion H; subst. exists calls. auto. Qed.

Lemma stops_gets {A} (f : TypedColumnWriter -> A) : stops_at_refusal (gets f).
Proof. intros p0 calls w r w' Hp Ha H. inversion H; subst. exists calls. auto. Qed.

Lemma stops_modify f :
  (forall w, pager_ (f w) = pager_ w) -> stops_at_refusal (modify f).
Proof.
  intros Hf p0 calls w r w' Hp Ha H. inversion H; subst. exists calls.
  rewrite Hf. auto.
Qed.

Lemma stops_throw {A} e :
  (forall what, e <> SinkFailure what) -> stops_at_refusal (throw (A := A) e).
Proof.
  intros He p0 calls w r w' Hp Ha H. inversion H; subst. exists calls.
  split; [assumption|]. apply refusals_accepted; [|assumption].
  intros what E. inversion E. eapply He. eassumption.
Qed.

Lemma stops_bind {A B} (m : M A) (k : A -> M B) :
  stops_at_refusal m -> (forall a, stops_at_refusal (k a)) ->
  stops_at_refusal (bind m k).
Proof.
  intros Hm Hk p0 calls w r w' Hp Ha H. apply bind_inv in H.
  destruct H as [(a & w1 & H1 & H2) | (e & H1 & ->)].
  - destruct (Hm p0 calls w _ _ Hp Ha H1) as (calls1 & Hp1 & Ha1).
    exact (Hk a p0 calls1 w1 r w' Hp1 Ha1 H2).
  - destruct (Hm p0 calls w _ _ Hp Ha H1) as (calls1 & Hp1 & Ha1).
    exists calls1. split; [assumption|]. exact Ha1.
Qed.

Lemma stops_when b m : stops_at_refusal m -> stops_at_refusal (when b m).
Proof. destruct b; [trivial | intros _; apply stops_ret]. Qed.

Lemma stops_for_each {A} (l : list A) body :
  (forall x, stops_at_refusal (body x)) -> stops_at_refusal (for_each l body).
Proof.
  intros Hb. induction l as [|x l IH]; cbn [for_each].
  - apply stops_ret.
  - apply stops_bind; [apply Hb | intros _; exact IH].
Qed.

Lemma stops_call_pager request : stops_at_refusal (call_pager request).
Proof.
  intros p0 calls w r w' Hp Ha H. rewrite call_pager_eq in H.
  destruct (pager (pager_ w) request) as [n|what]; inversion H; subst; clear H;
    cbn [pager_ set_pager_]; rewrite Hp, <- app_assoc;
    eexists; (split; [reflexivity|]).
  - cbn [refusals]. rewrite forallb_app, Ha. reflexivity.
  - cbn [refusals]. eexists _, _. split; [reflexivity|]. split; [assumption|].
    reflexivity.
Qed.

Lemma stops_AddDataPage : stops_at_refusal AddDataPage.
Proof.
  intros p0 calls w r w' Hp Ha H. exists calls.
  pose proof H as Hp'. apply AddDataPage_pager in Hp'. destruct Hp' as [Hp' _].
  rewrite Hp'. split; [assumption|].
  apply refusals_accepted; [|assumption].
  intros what ->. apply AddDataPage_throws in H.
  destruct H as [H | [what' H]]; discriminate H.
Qed.

Lemma stops_Close : stops_at_refusal Close.
Proof.
  unfold Close.
  apply stops_bind; [apply stops_gets | intros hd].
  apply stops_bind; [|intros _].
  { apply stops_when. unfold WriteDictionaryPage.
    apply stops_bind; [apply stops_gets | intros [buffer|d]].
    - apply stops_throw. discriminate.
    - apply stops_bind; [apply stops_call_pager | intros bytes].
      apply stops_modify. reflexivity. }
  apply stops_bind; [apply stops_gets | intros n].
  apply stops_bind; [apply stops_when, stops_AddDataPage | intros _].
  apply stops_bind; [apply stops_gets | intros pages].
  apply stops_bind; [|intros _].
  { apply stops_for_each. intros page. unfold WriteNewPage.
    apply stops_bind; [apply stops_gets | intros hd'].
    apply stops_bind; [apply stops_call_pager | intros bytes].
    apply stops_modify. reflexivity. }
  apply stops_bind; [apply stops_gets | intros nr].
  apply stops_bind; [apply stops_gets | intros er].
  apply stops_bind; [apply stops_when, stops_throw; discriminate | intros _].
  apply stops_bind; [apply stops_call_pager | intros _; apply stops_gets].
Qed.

(** X5. [Close] stops at the first call the sink refuses. It ends in a sink
    failure exactly when the sink refused a call: that call is then the last
    the sink received, the failure is the one it answered, every call before
    it was accepted, and neither a later page nor the completion signal was
    attempted. When [Close] ends in any other way every call it made was
    accepted. *)
Theorem Close_stops_at_the_first_refusal (w : TypedColumnWriter) r w' :
  Close w = (r, w') ->
  exists calls, pager_ w' = pager_ w ++ calls /\ refusals r calls.
Proof.
  intros H.
  refine (@stops_Close (pager_ w) [] w r w' _ _ H).
  - now rewrite app_nil_r.
  - reflexivity.
Qed.

(** ** The ways [Close] fails *)

(** X6. For a column without levels, and a writer whose encoder is of the
    class [has_dictionary_] announces (as the constructor makes it), [Close]
    fails in two ways only: the sink refused a call, or the row count is not
    the expected one; when it completes the row count is the expected one.
    The level encoder is not run and the cast in [WriteDictionaryPage] is to
    the encoder's class. *)
Theorem Close_fails_in_two_ways (w : TypedColumnWriter) r w' :
  in_int64 (total_bytes_written_ w) ->
  max_definition_level (descr_ w) = 0 ->
  max_repetition_level (descr_ w) = 0 ->
  has_dictionary_ w = is_dict_encoder (current_encoder_ w) ->
  Close w = (r, w') ->
  match r with
  | Ok _ => num_rows_ w = expected_rows_ w
  | Throw e =>
      (e = RowCountMismatch /\ num_rows_ w <> expected_rows_ w) \/
      exists what, e = SinkFailure what
  end.
Proof.
  intros Hrange Hd Hr Hv H. apply Close_inv in H; [|assumption].
  inversion H; subst; clear H; eauto.
  - congruence.
  - match goal with Hc : AddDataPage _ = _ |- _ =>
      rewrite AddDataPage_without_levels in Hc by assumption; discriminate Hc end.
Qed.

(** ** Reading the level buffers *)

Lemma level_component_bounds buffer max_level (w : TypedColumnWriter) e w' :
  holds_levels (num_buffered_values_ w) buffer max_level ->
  level_component buffer max_level w = (Throw e, w') ->
  exists what,
    e = LevelOverflow what /\ 0 < max_level /\
    level_payload (num_buffered_values_ w) buffer max_level = Failed what.
Proof.
  unfold holds_levels, level_component, level_payload. intros Hb.
  destruct (0 <? max_level) eqn:E; [|discriminate].
  apply Z.ltb_lt in E. specialize (Hb E).
  unfold RleEncodeLevels, bind, gets, modify, throw, ret.
  replace (Z.of_nat (length (int16s_of_bytes buffer)) <? num_buffered_values_ w)
    with false by (symmetry; apply Z.ltb_ge; lia).
  match goal with |- context [Encode ?a ?b ?c ?d ?e] =>
    destruct (Encode a b c d e) as [[k payload]|what] end; [discriminate|].
  intros H. inversion H; subst. eauto.
Qed.

(** X7. When the sink of each kind of levels the column has holds at least
    [num_buffered_values_] levels, a page cut reads nothing outside the level
    buffers, and the only way it can fail is that the level encoder does,
    on the levels of one of these kinds. For a column without levels it
    always completes. *)
Theorem page_cut_reads_inside_the_level_buffers (w : TypedColumnWriter) r w' :
  holds_levels (num_buffered_values_ w) (definition_levels_sink_ w)
    (max_definition_level (descr_ w)) ->
  holds_levels (num_buffered_values_ w) (repetition_levels_sink_ w)
    (max_repetition_level (descr_ w)) ->
  AddDataPage w = (r, w') ->
  match r with
  | Ok _ => True
  | Throw e =>
      exists what,
        e = LevelOverflow what /\
        (0 < max_definition_level (descr_ w) /\
         level_payload (num_buffered_values_ w) (definition_levels_sink_ w)
           (max_definition_level (descr_ w)) = Failed what \/
         0 < max_repetition_level (descr_ w) /\
         level_payload (num_buffered_values_ w) (repetition_levels_sink_ w)
           (max_repetition_level (descr_ w)) = Failed what)
  end.
Proof.
  intros Hd Hr H. destruct r as [u|e]; [exact I|].
  unfold AddDataPage in H.
  apply bind_inv in H. destruct H as [(n & w1 & H1 & H) | (e1 & H1 & _)]; [|discriminate H1].
  inversion H1; subst n w1; clear H1.
  apply bind_inv in H. destruct H as [(ne & w2 & H2 & H) | (e1 & H2 & _)]; [|discriminate H2].
  inversion H2; subst ne w2; clear H2.
  apply bind_inv in H. destruct H as [(db & w3 & H3 & H) | (e1 & H3 & _)]; [|discriminate H3].
  inversion H3; subst db w3; clear H3.
  apply bind_inv in H. destruct H as [(rb & w4 & H4 & H) | (e1 & H4 & _)]; [|discriminate H4].
  inversion H4; subst rb w4; clear H4.
  apply bind_inv in H. rewrite GetValuesBuffer_eq in H.
  destruct H as [(vb & w5 & H5 & H) | (e1 & H5 & _)]; [|discriminate H5].
  inversion H5; subst vb w5; clear H5.
  apply bind_inv in H. destruct H as [(descr & w6 & H6 & H) | (e1 & H6 & _)]; [|discriminate H6].
  inversion H6; subst descr w6; clear H6.
  match type of H with bind _ _ ?x = _ => set (w6 := x) in * end.
  change (descr_ w6) with (descr_ w) in *.
  fold (level_component (definition_levels_sink_ w) (max_definition_level (descr_ w)))
    in H.
  apply bind_inv in H. destruct H as [(dl & w7 & H7 & H) | (e1 & H7 & He)].
  2:{ inversion He; subst e1. apply level_component_bounds in H7; [|exact Hd].
      destruct H7 as (what & -> & Hp). exists what. split; [reflexivity|]. now left. }
  pose proof (level_component_run _ _ _ H7) as E7.
  fold (level_component (repetition_levels_sink_ w) (max_repetition_level (descr_ w)))
    in H.
  apply bind_inv in H. destruct H as [(rl & w8 & H8 & H) | (e1 & H8 & He)].
  2:{ inversion He; subst e1. subst w7. apply level_component_bounds in H8; [|exact Hr].
      destruct H8 as (what & -> & Hp). exists what. split; [reflexivity|]. now right. }
  discriminate H.
Qed.

(** ** The order of the calls *)

(** X8. However [Close] ends, and whatever the writer has been through,
    the calls it makes on the sink come in one order: at most one dictionary
    page, and none when [has_dictionary_] is not set; then data pages only;
    then at most one completion signal, which is the last call. *)
Theorem Close_calls_in_order (w : TypedColumnWriter) r w' :
  in_int64 (total_bytes_written_ w) ->
  Close w = (r, w') ->
  exists dictionary pages closing,
    pager_ w' = pager_ w ++ dictionary ++ pages ++ closing /\
    (length dictionary <= 1)%nat /\
    forallb is_dictionary_page dictionary = true /\
    (has_dictionary_ w = false -> dictionary = []) /\
    forallb is_data_page pages = true /\
    (length closing <= 1)%nat /\
    forallb is_close closing = true.
Proof.
  intros Hrange H. apply Close_calls in H; [|assumption].
  destruct H as (pages & closing & Hp & Hdata & Hclose & _).
  exists (dictionary_calls w), pages, closing.
  split; [exact Hp|]. unfold dictionary_calls.
  destruct (has_dictionary_ w); [destruct (current_encoder_ w)|];
    destruct Hclose as [-> | ->]; cbn; repeat split; auto; discriminate.
Qed.

(** ** A page cut before [Close] *)

Lemma bind_gets {A B} (f : TypedColumnWriter -> A) (k : A -> M B) (w : TypedColumnWriter) :
  bind (gets f) k w = k (f w) w.
Proof. reflexivity. Qed.

Lemma bind_step {A B} (m : M A) (k : A -> M B) (w : TypedColumnWriter) :
  bind m k w =
  match m w with
  | (Ok a, w') => k a w'
  | (Throw e, w') => (Throw e, w')
  end.
Proof. reflexivity. Qed.

Lemma dictionary_calls_after_cut (w w1 : TypedColumnWriter) :
  AddDataPage w = (Ok tt, w1) -> dictionary_calls w1 = dictionary_calls w.
Proof.
  intros H. apply AddDataPage_ok in H. destruct H as (dl & rl & runs & _ & _ & -> & _).
  unfold dictionary_calls. fields.
  destruct (has_dictionary_ w); [|reflexivity].
  destruct (current_encoder_ w) as [buffer|d]; reflexivity.
Qed.

(** X9. Cutting a page by hand right before [Close], when values are
    buffered, changes nothing of what [Close] does for its caller and for
    the sink: it ends the same way and the sink has received the same calls
    with the same answers. [Close] then finds nothing buffered and makes no
    cut of its own; the dictionary page still reaches the sink first, with
    the same dictionary. *)
Theorem page_cut_before_Close (w w1 : TypedColumnWriter) :
  in_int64 (total_bytes_written_ w) ->
  0 < num_buffered_values_ w ->
  AddDataPage w = (Ok tt, w1) ->
  fst (Close w1) = fst (Close w) /\
  pager_ (snd (Close w1)) = pager_ (snd (Close w)).
Proof.
  intros Hrange Hn H.
  pose proof H as Hcalls. apply dictionary_calls_after_cut in Hcalls.
  pose proof H as Hok. apply AddDataPage_ok in Hok.
  destruct Hok as (dl & rl & runs & _ & _ & Hw1 & _).
  assert (Hrange1 : in_int64 (total_bytes_written_ w1)) by (subst w1; exact Hrange).
  assert (Hn1 : num_buffered_values_ w1 = 0) by (subst w1; reflexivity).
  assert (Hhd : has_dictionary_ w1 = has_dictionary_ w) by (subst w1; reflexivity).
  assert (Hp : pager_ w1 = pager_ w) by (subst w1; reflexivity).
  assert (He : current_encoder_ w1 = snd (FlushValues (current_encoder_ w)))
    by (subst w1; reflexivity).
  clear Hw1. apply Z.ltb_lt in Hn.
  assert (Hsame : forall calls,
            (n <- gets num_buffered_values_ ;;
             when (0 <? n) AddDataPage ;;;
             pages <- gets data_page_buffers_ ;;
             for_each pages WriteNewPage ;;;
             num_rows <- gets num_rows_ ;;
             expected_rows <- gets expected_rows_ ;;
             when (negb (num_rows =? expected_rows)) (throw RowCountMismatch) ;;;
             call_pager Close_request ;;; gets total_bytes_written_)
              (sink_update calls w1)
            = (n <- gets num_buffered_values_ ;;
               when (0 <? n) AddDataPage ;;;
               pages <- gets data_page_buffers_ ;;
               for_each pages WriteNewPage ;;;
               num_rows <- gets num_rows_ ;;
               expected_rows <- gets expected_rows_ ;;
               when (negb (num_rows =? expected_rows)) (throw RowCountMismatch) ;;;
               call_pager Close_request ;;; gets total_bytes_written_)
                (sink_update calls w)).
  { intros calls. rewrite !bind_gets. fields. rewrite Hn1, Hn.
    change (0 <? 0) with false. cbn [when].
    rewrite (bind_step AddDataPage), AddDataPage_sink_update, H. reflexivity. }
  unfold Close. rewrite !bind_gets.
  rewrite (bind_step _ _ w1), (bind_step _ _ w).
  rewrite !dictionary_phase_eq by assumption.
  rewrite Hcalls, Hhd, Hp, He.
  destruct (has_dictionary_ w).
  - destruct (current_encoder_ w) as [buffer|d]; cbn [FlushValues snd].
    + split; [reflexivity | exact Hp].
    + change (dictionary_request {| dict_entries := dict_entries d; dict_indices := [] |})
        with (dictionary_request d).
      destruct (pager (pager_ w) (dictionary_request d)) as [k|what].
      * rewrite Hsame. split; reflexivity.
      * split; [reflexivity|]. cbn. now rewrite Hp.
  - rewrite <- (sink_update_nil w1 Hrange1), <- (sink_update_nil w Hrange).
    rewrite Hsame. split; reflexivity.
Qed.

(** ** A column chunk without data *)

Lemma no_page_no_call (calls : list PagerCall) {A} (f : A -> PageRequest) :
  map call_request calls = map f [] -> calls = [].
Proof. destruct calls; [reflexivity | discriminate]. Qed.

(** X10. When no page is staged and nothing is buffered, [Close] makes no
    page cut and hands no data page to the sink, however it ends: the sink
    receives the dictionary page of a dictionary writer and the completion
    signal at most, and no page is staged afterwards either. *)
Theorem Close_of_an_empty_column (w : TypedColumnWriter) r w' :
  in_int64 (total_bytes_written_ w) ->
  data_page_buffers_ w = [] ->
  num_buffered_values_ w <= 0 ->
  Close w = (r, w') ->
  exists calls,
    pager_ w' = pager_ w ++ calls /\
    existsb is_data_page calls = false /\
    data_page_buffers_ w' = [].
Proof.
  intros Hrange Hpages Hn H. apply Close_inv in H; [|assumption].
  assert (Hdict : existsb is_data_page (dictionary_calls w) = false).
  { unfold dictionary_calls. destruct (has_dictionary_ w); [|reflexivity].
    destruct (current_encoder_ w); reflexivity. }
  assert (Hcut : forall wc,
            final_cut (sink_update (dictionary_calls w) w) wc ->
            wc = sink_update (dictionary_calls w) w).
  { unfold final_cut. fields.
    replace (0 <? num_buffered_values_ w) with false
      by (symmetry; apply Z.ltb_ge; lia).
    trivial. }
  inversion H; subst; clear H.
  - exists []. rewrite app_nil_r. auto.
  - exists (dictionary_calls w). fields. auto.
  - lia.
  - match goal with Hf : final_cut _ _ |- _ => apply Hcut in Hf; subst wc end.
    match goal with Hs : sent = _ |- _ =>
      fields in Hs; rewrite Hpages, firstn_nil in Hs; subst sent end.
    match goal with Hm : map call_request calls = _ |- _ =>
      apply no_page_no_call in Hm; subst calls end.
    fields. exists (dictionary_calls w). rewrite app_nil_r. auto.
  - match goal with Hf : final_cut _ _ |- _ => apply Hcut in Hf; subst wc end.
    match goal with Hs : pages_sent _ _ |- _ => destruct Hs as (Hm & _) end.
    fields. fields in Hm. rewrite Hpages in Hm.
    apply no_page_no_call in Hm; subst calls.
    exists (dictionary_calls w). rewrite app_nil_r. auto.
  - match goal with Hf : final_cut _ _ |- _ => apply Hcut in Hf; subst wc end.
    match goal with Hs : pages_sent _ _ |- _ => destruct Hs as (Hm & _) end.
    fields. fields in Hm. rewrite Hpages in Hm.
    apply no_page_no_call in Hm; subst calls.
    eexists. rewrite <- app_assoc. split; [reflexivity|].
    rewrite existsb_app, Hdict. split; [reflexivity | assumption].
  - match goal with Hf : final_cut _ _ |- _ => apply Hcut in Hf; subst wc end.
    match goal with Hs : pages_sent _ _ |- _ => destruct Hs as (Hm & _) end.
    fields. fields in Hm. rewrite Hpages in Hm.
    apply no_page_no_call in Hm; subst calls.
    eexists. rewrite <- app_assoc. split; [reflexivity|].
    rewrite existsb_app, Hdict. split; [reflexivity | assumption].
Qed.

End Writer.

(** ** The 64-bit integer type *)

Lemma int64_of_unsigned z : in_int64 z -> int64 (z mod 2 ^ 64) = z.
Proof.
  unfold in_int64, INT64_MIN, INT64_MAX, int64, wrap_signed. intros H.
  rewrite Zplus_mod_idemp_l. rewrite Z.mod_small; lia.
Qed.

Lemma in_int64b_iff z : in_int64b z = true <-> in_int64 z.
Proof.
  unfold in_int64b, in_int64. rewrite andb_true_iff, !Z.leb_le. tauto.
Qed.

#[export] Instance Int64Laws : PlainTypeLaws Z.
Proof.
  constructor. intros v rest Hv. apply in_int64b_iff in Hv.
  cbn [plain_decode plain_encode Int64Type].
  unfold int64_plain_decode, int64_plain_encode.
  assert (Hlen : length (le_bytes 8 v) = 8%nat) by apply length_le_bytes.
  replace (length (le_bytes 8 v ++ rest) <? 8)%nat with false.
  2:{ symmetry. apply Nat.ltb_ge. rewrite length_app. lia. }
  rewrite le_bytes_app.
  rewrite skipn_app, Hlen, Nat.sub_diag, skipn_all2 by lia. simpl skipn. simpl app.
  rewrite le_value_le_bytes. change (8 * Z.of_nat 8) with 64.
  now rewrite int64_of_unsigned.
Qed.

(** ** The example collaborators *)

Import Example.

Lemma varint_round_trip fuel : forall z rest,
  0 <= z < 128 ^ Z.of_nat (S fuel) ->
  varint_decode (varint (S fuel) z ++ rest) = Some (z, rest).
Proof.
  induction fuel as [|fuel IH]; intros z rest Hz.
  - change (128 ^ Z.of_nat 1) with 128 in Hz.
    cbn [varint]. replace (z <? 128) with true by (symmetry; apply Z.ltb_lt; lia).
    cbn [app varint_decode]. rewrite Z_of_byte_of_Z, Z.mod_small by lia.
    replace (z <? 128) with true by (symmetry; apply Z.ltb_lt; lia). reflexivity.
  - remember (S fuel) as f eqn:Ef. cbn [varint].
    destruct (z <? 128) eqn:E.
    + apply Z.ltb_lt in E. cbn [app varint_decode].
      rewrite Z_of_byte_of_Z, Z.mod_small by lia.
      replace (z <? 128) with true by (symmetry; apply Z.ltb_lt; lia). reflexivity.
    + apply Z.ltb_ge in E. cbn [app varint_decode].
      pose proof (Z.mod_pos_bound z 128 ltac:(lia)) as Hm.
      rewrite Z_of_byte_of_Z, (Z.mod_small (z mod 128 + 128)) by lia.
      replace (z mod 128 + 128 <? 128) with false by (symmetry; apply Z.ltb_ge; lia).
      subst f. rewrite IH.
      * f_equal. f_equal. pose proof (Z.div_mod z 128 ltac:(lia)). lia.
      * split; [apply Z.div_pos; lia|].
        apply Z.div_lt_upper_bound; [lia|].
        replace (Z.of_nat (S (S fuel))) with (1 + Z.of_nat (S fuel)) in Hz by lia.
        rewrite Z.pow_add_r in Hz by lia. change (128 ^ 1) with 128 in Hz. lia.
Qed.

Lemma varint_index_round_trip i rest :
  varint_decode (varint_index i ++ rest) = Some (Z.of_nat i, rest).
Proof.
  unfold varint_index. apply varint_round_trip. split; [lia|].
  pose proof (Z.pow_gt_lin_r 128 (Z.of_nat (S i)) ltac:(lia) ltac:(lia)). lia.
Qed.

Lemma varint_indices_round_trip : indices_round_trip varint_indices varint_indices_decode.
Proof.
  intros cardinality indices _. unfold varint_indices.
  induction indices as [|i indices IH]; [reflexivity|].
  cbn [flat_map length varint_indices_decode].
  rewrite varint_index_round_trip, Nat2Z.id. now rewrite IH.
Qed.

Lemma rle_level_encoder_len_is_int : len_is_int rle_level_encoder.
Proof.
  intros max_level n capacity levels encoded payload. cbn [Encode rle_level_encoder].
  destruct (forallb _ levels); [|discriminate].
  destruct (Z.of_nat (length (encode_runs max_level levels)) <=? Z.min capacity INT32_MAX)
    eqn:E; [|discriminate].
  intros H. inversion H; subst. apply Z.leb_le in E. lia.
Qed.

(** ** The properties at work

    Runs of the writer over [Int64Type] values with the example
    collaborators: a dictionary writer for a required column after one batch
    of three values, and a plain writer for an optional column, told to
    expect five rows, after one batch of three entries of which the second
    is null. *)

Abbreviation never_cut := (fun _ : TypedColumnWriter (T := Z) => false).

Abbreviation close := (Close (T := Z) varint_indices rle_level_encoder counting_pager).

Abbreviation cut := (AddDataPage (T := Z) varint_indices rle_level_encoder).

Abbreviation run :=
  (perform_all (T := Z) varint_indices rle_level_encoder counting_pager never_cut).

Abbreviation is_constructed :=
  (constructed (T := Z) varint_indices rle_level_encoder counting_pager never_cut).

Abbreviation is_still_open :=
  (still_open (T := Z) varint_indices rle_level_encoder counting_pager never_cut).

Abbreviation fresh_dictionary :=
  (ColumnWriter_init (T := Z) required 3 true
     (DictEncoder {| dict_entries := []; dict_indices := [] |})).

Abbreviation dictionary_sample :=
  (run [Op_WriteBatch 3 None None [128; 128; 7]] fresh_dictionary).

Abbreviation fresh_plain :=
  (ColumnWriter_init (T := Z) required 0 false (PlainEncoder [])).

Abbreviation fresh_optional :=
  (ColumnWriter_init (T := Z) optional 5 false (PlainEncoder [])).

Abbreviation optional_sample :=
  (run [Op_WriteBatch 3 (Some [1; 0; 1]) None [128; 7]] fresh_optional).

(** What the sink of the dictionary writer has seen once the writer is
    closed: two distinct values, then a page of three indices. *)
Example dictionary_sample_sink :
  map call_request (pager_ (snd (close dictionary_sample))) =
  [ WriteDictionaryPage_request 2
      [x80; x00; x00; x00; x00; x00; x00; x00; x07; x00; x00; x00; x00; x00; x00; x00]
      PLAIN_DICTIONARY;
    WriteDataPage_request 3 3 [] RLE [] RLE [x00; x00; x01] PLAIN_DICTIONARY;
    Close_request ].
Proof. vm_compute. reflexivity. Qed.

Example dictionary_sample_read :
  ReadColumn varint_indices_decode (pager_ (snd (close dictionary_sample)))
  = [128; 128; 7].
Proof. vm_compute. reflexivity. Qed.

(** The definition levels 1, 0, 1 of the optional column as the page cut
    stages them: the length 6, then three runs of one value each. *)
Example optional_sample_levels :
  map definition_levels (data_page_buffers_ (snd (cut optional_sample))) =
  [[x06; x00; x00; x00; x02; x01; x02; x00; x02; x01]].
Proof. vm_compute. reflexivity. Qed.

(** Two of three entries are defined; three rows were written where five
    were announced. *)
Example optional_sample_counts :
  (num_buffered_values_ optional_sample,
   num_buffered_encoded_values_ optional_sample,
   num_rows_ optional_sample,
   fst (close optional_sample))
  = (3, 2, 3, Throw RowCountMismatch).
Proof. vm_compute. reflexivity. Qed.

(** A sink that refuses the dictionary page: [Close] unwinds at once. *)
Example refused_dictionary_page :
  let refusing : PageWriter := fun _ _ => Failed "disk full" in
  let closed := Close (T := Z) varint_indices rle_level_encoder refusing dictionary_sample in
  fst closed = Throw (SinkFailure "disk full") /\
  map call_request (pager_ (snd closed))
  = [WriteDictionaryPage_request 2
       [x80; x00; x00; x00; x00; x00; x00; x00; x07; x00; x00; x00; x00; x00; x00; x00]
       PLAIN_DICTIONARY] /\
  data_page_buffers_ (snd closed) = [].
Proof. vm_compute. repeat split; reflexivity. Qed.

Example rle_is_not_a_value_encoding :
  new_TypedColumnWriter (T := Z) required 3 RLE = Throw UnsupportedEncoding.
Proof. reflexivity. Qed.

Lemma dictionary_page_first_witness :
  is_still_open dictionary_sample /\
  has_dictionary_ dictionary_sample = true /\
  close dictionary_sample = (Ok 19, snd (close dictionary_sample)) /\
  exists d rest,
    let call :=
      answered counting_pager []
        (WriteDictionaryPage_request (num_entries d) (WriteDict d) PLAIN_DICTIONARY) in
    current_encoder_ dictionary_sample = DictEncoder d /\
    pager_ (snd (close dictionary_sample)) = call :: rest /\
    existsb is_dictionary_page rest = false /\
    (forall i c,
       nth_error (pager_ (snd (close dictionary_sample))) i = Some c ->
       is_data_page c = true -> (0 < i)%nat) /\
    total_bytes_written_ (snd (close dictionary_sample))
    = int64 (bytes_written call + total_bytes rest).
Proof.
  assert (H1 : is_still_open dictionary_sample).
  { exists required, 3, PLAIN_DICTIONARY, fresh_dictionary,
      [Op_WriteBatch 3 None None [128; 128; 7]].
    split; [reflexivity|]. split; vm_compute; reflexivity. }
  assert (H2 : has_dictionary_ dictionary_sample = true) by (vm_compute; reflexivity).
  assert (H3 : close dictionary_sample = (Ok 19, snd (close dictionary_sample)))
    by (vm_compute; reflexivity).
  split; [exact H1|]. split; [exact H2|]. split; [exact H3|].
  exact (dictionary_page_first H1 H2 H3).
Defined.

Lemma dictionary_page_unconditional_witness :
  is_constructed fresh_dictionary /\
  has_dictionary_ fresh_dictionary = true /\
  close fresh_dictionary = (Throw RowCountMismatch, snd (close fresh_dictionary)) /\
  exists d rest,
    current_encoder_ fresh_dictionary = DictEncoder d /\
    pager_ (snd (close fresh_dictionary)) =
      pager_ fresh_dictionary ++
      answered counting_pager (pager_ fresh_dictionary)
        (WriteDictionaryPage_request
           (Z.of_nat (length (dict_entries d))) (WriteDict d) PLAIN_DICTIONARY)
      :: rest.
Proof.
  assert (H1 : is_constructed fresh_dictionary).
  { exists required, 3, PLAIN_DICTIONARY, fresh_dictionary, [].
    split; vm_compute; reflexivity. }
  assert (H2 : has_dictionary_ fresh_dictionary = true) by (vm_compute; reflexivity).
  assert (H3 : close fresh_dictionary
               = (Throw RowCountMismatch, snd (close fresh_dictionary)))
    by (vm_compute; reflexivity).
  split; [exact H1|]. split; [exact H2|]. split; [exact H3|].
  exact (dictionary_page_unconditional H1 H2 H3).
Defined.



Lemma Close_completed_run_witness :
  is_still_open dictionary_sample /\
  close dictionary_sample = (Ok 19, snd (close dictionary_sample)) /\
  exists calls,
    (if 0 <? num_buffered_values_ dictionary_sample
     then exists page,
            data_page_buffers_ (snd (close dictionary_sample))
            = data_page_buffers_ dictionary_sample ++ [page] /\
            num_buffered_values page = num_buffered_values_ dictionary_sample /\
            num_buffered_encoded_values page
            = num_buffered_encoded_values_ dictionary_sample
     else data_page_buffers_ (snd (close dictionary_sample))
          = data_page_buffers_ dictionary_sample) /\
    pager_ (snd (close dictionary_sample)) =
      dictionary_calls counting_pager dictionary_sample ++ calls
        ++ [answered counting_pager
              (dictionary_calls counting_pager dictionary_sample ++ calls)
              Close_request] /\
    map call_request calls
    = map (page_request (has_dictionary_ dictionary_sample))
        (data_page_buffers_ (snd (close dictionary_sample))) /\
    forallb accepted (pager_ (snd (close dictionary_sample))) = true /\
    19 = total_bytes_written_ (snd (close dictionary_sample)) /\
    19 = int64 (total_bytes (pager_ (snd (close dictionary_sample)))) /\
    (in_int64 (total_bytes (pager_ (snd (close dictionary_sample)))) ->
     19 = total_bytes (pager_ (snd (close dictionary_sample)))).
Proof.
  assert (H1 : is_still_open dictionary_sample).
  { exists required, 3, PLAIN_DICTIONARY, fresh_dictionary,
      [Op_WriteBatch 3 None None [128; 128; 7]].
    split; [reflexivity|]. split; vm_compute; reflexivity. }
  assert (H2 : close dictionary_sample = (Ok 19, snd (close dictionary_sample)))
    by (vm_compute; reflexivity).
  split; [exact H1|]. split; [exact H2|].
  exact (Close_completed_run H1 H2).
Defined.

Lemma level_buffers_are_framed_witness :
  len_is_int rle_level_encoder /\
  cut optional_sample = (Ok tt, snd (cut optional_sample)) /\
  exists page,
    data_page_buffers_ (snd (cut optional_sample))
    = data_page_buffers_ optional_sample ++ [page] /\
    (0 < max_definition_level (descr_ optional_sample) ->
     exists encoded payload,
       level_payload rle_level_encoder (num_buffered_values_ optional_sample)
         (definition_levels_sink_ optional_sample)
         (max_definition_level (descr_ optional_sample)) = Done (encoded, payload) /\
       framing payload (definition_levels page)) /\
    (0 < max_repetition_level (descr_ optional_sample) ->
     exists encoded payload,
       level_payload rle_level_encoder (num_buffered_values_ optional_sample)
         (repetition_levels_sink_ optional_sample)
         (max_repetition_level (descr_ optional_sample)) = Done (encoded, payload) /\
       framing payload (repetition_levels page)).
Proof.
  assert (H1 : cut optional_sample = (Ok tt, snd (cut optional_sample)))
    by (vm_compute; reflexivity).
  split; [exact rle_level_encoder_len_is_int|]. split; [exact H1|].
  exact (level_buffers_are_framed varint_indices optional_sample
           rle_level_encoder_len_is_int H1).
Defined.

Lemma no_level_buffers_without_levels_witness :
  max_definition_level required = 0 /\
  max_repetition_level required = 0 /\
  new_TypedColumnWriter required 3 PLAIN_DICTIONARY = Ok fresh_dictionary /\
  let w := run [Op_WriteBatch 3 None None [128; 128; 7]; Op_Close] fresh_dictionary in
  level_encoder_ w = [] /\
  definition_levels_sink_ w = [] /\
  repetition_levels_sink_ w = [] /\
  (forall page, In page (data_page_buffers_ w) ->
     definition_levels page = [] /\ repetition_levels page = []) /\
  (forall n ne def_levels de rep_levels re vals enc outcome,
     In {| call_request :=
             WriteDataPage_request n ne def_levels de rep_levels re vals enc;
           call_outcome := outcome |} (pager_ w) ->
     def_levels = [] /\ rep_levels = []).
Proof.
  split; [reflexivity|]. split; [reflexivity|]. split; [reflexivity|].
  exact (no_level_buffers_without_levels varint_indices rle_level_encoder
           counting_pager never_cut required 3 PLAIN_DICTIONARY
           [Op_WriteBatch 3 None None [128; 128; 7]; Op_Close]
           eq_refl eq_refl eq_refl).
Defined.

Lemma page_cut_stages_one_page_witness :
  cut optional_sample = (Ok tt, snd (cut optional_sample)) /\
  map definition_levels (data_page_buffers_ (snd (cut optional_sample)))
  = [[x06; x00; x00; x00; x02; x01; x02; x00; x02; x01]] /\
  exists page,
    data_page_buffers_ (snd (cut optional_sample))
    = data_page_buffers_ optional_sample ++ [page] /\
    num_buffered_values page = num_buffered_values_ optional_sample /\
    num_buffered_encoded_values page = num_buffered_encoded_values_ optional_sample /\
    staged_levels rle_level_encoder (num_buffered_values_ optional_sample)
      (definition_levels_sink_ optional_sample)
      (max_definition_level (descr_ optional_sample)) (definition_levels page) /\
    staged_levels rle_level_encoder (num_buffered_values_ optional_sample)
      (repetition_levels_sink_ optional_sample)
      (max_repetition_level (descr_ optional_sample)) (repetition_levels page) /\
    values page = fst (FlushValues varint_indices (current_encoder_ optional_sample)) /\
    current_encoder_ (snd (cut optional_sample))
    = snd (FlushValues varint_indices (current_encoder_ optional_sample)) /\
    definition_levels_sink_ (snd (cut optional_sample)) = [] /\
    definition_levels_sink_valid (snd (cut optional_sample)) = true /\
    repetition_levels_sink_ (snd (cut optional_sample)) = [] /\
    repetition_levels_sink_valid (snd (cut optional_sample)) = true /\
    num_buffered_values_ (snd (cut optional_sample)) = 0 /\
    num_buffered_encoded_values_ (snd (cut optional_sample)) = 0 /\
    num_rows_ (snd (cut optional_sample)) = num_rows_ optional_sample /\
    total_bytes_written_ (snd (cut optional_sample))
    = total_bytes_written_ optional_sample /\
    pager_ (snd (cut optional_sample)) = pager_ optional_sample.
Proof.
  assert (H1 : cut optional_sample = (Ok tt, snd (cut optional_sample)))
    by (vm_compute; reflexivity).
  split; [exact H1|]. split; [vm_compute; reflexivity|].
  exact (page_cut_stages_one_page varint_indices rle_level_encoder optional_sample H1).
Defined.



Lemma required_column_round_trip_witness :
  indices_round_trip varint_indices varint_indices_decode /\
  max_definition_level required = 0 /\
  max_repetition_level required = 0 /\
  new_TypedColumnWriter required 3 PLAIN_DICTIONARY = Ok fresh_dictionary /\
  all_valid [128; 128; 7] /\
  Z.of_nat (length [128; 128; 7]) <= INT64_MAX /\
  WriteBatch varint_indices rle_level_encoder never_cut 3 None None [128; 128; 7]
    fresh_dictionary = (Ok tt, dictionary_sample) /\
  close dictionary_sample = (Ok 19, snd (close dictionary_sample)) /\
  (forall what, Ok 19 <> Throw (SinkFailure what)) /\
  Ok tt = Ok tt /\
  ReadColumn varint_indices_decode (pager_ (snd (close dictionary_sample)))
  = [128; 128; 7] /\
  length (ReadColumn varint_indices_decode (pager_ (snd (close dictionary_sample))))
  = length [128; 128; 7] /\
  num_rows_ (snd (close dictionary_sample)) = Z.of_nat (length [128; 128; 7]) /\
  ((exists b, Ok 19 = Ok b) /\ 3 = Z.of_nat (length [128; 128; 7]) \/
   Ok 19 = Throw RowCountMismatch /\ 3 <> Z.of_nat (length [128; 128; 7])).
Proof.
  assert (H1 : all_valid [128; 128; 7]) by (repeat constructor).
  assert (H2 : Z.of_nat (length [128; 128; 7]) <= INT64_MAX) by (vm_compute; discriminate).
  assert (H3 : WriteBatch varint_indices rle_level_encoder never_cut
                 (Z.of_nat (length [128; 128; 7])) None None [128; 128; 7]
                 fresh_dictionary = (Ok tt, dictionary_sample))
    by (vm_compute; reflexivity).
  assert (H4 : close dictionary_sample = (Ok 19, snd (close dictionary_sample)))
    by (vm_compute; reflexivity).
  assert (H5 : forall what, Ok 19 <> Throw (SinkFailure what)) by (intros what; discriminate).
  split; [exact varint_indices_round_trip|].
  split; [reflexivity|]. split; [reflexivity|]. split; [reflexivity|].
  split; [exact H1|]. split; [exact H2|]. split; [exact H3|]. split; [exact H4|].
  split; [exact H5|].
  exact (required_column_round_trip (laws := Int64Laws)
           rle_level_encoder counting_pager never_cut required 3 PLAIN_DICTIONARY
           varint_indices_round_trip eq_refl eq_refl eq_refl H1 H2 H3 H4 H5).
Defined.

(** ** The dynamic constructor *)

Section Dynamic.

(** The C++ type of the values of each physical type. *)
Variable value_type : PhysicalType -> Type.

(** X11. [Make] builds a writer exactly when the physical type of the
    descriptor is one of the eight enumerators of [Type::type] and the
    encoding the properties hold for the column's path is PLAIN,
    PLAIN_DICTIONARY or RLE_DICTIONARY; the writer is then the typed writer
    of that physical type, as its constructor builds it from the descriptor,
    the expected rows and that encoding. For any other physical type [Make]
    throws "type reader not implemented", whatever the encoding; for one of
    the eight types with another encoding, the constructor's "Selected
    encoding is not supported" passes through. *)
Theorem Make_outcome descr expected_rows properties :
  let requested := encoding properties (path descr) in
  match
    Make (fun t => @TypedColumnWriter (value_type t))
      (fun t => @new_TypedColumnWriter (value_type t))
      descr expected_rows properties
  with
  | Ok made =>
      is_physical_type (physical_type descr) = true /\
      encoding_supported requested = true /\
      projT1 made = physical_type descr /\
      new_TypedColumnWriter (descriptor descr) expected_rows requested
      = Ok (projT2 made)
  | Throw e =>
      if is_physical_type (physical_type descr)
      then encoding_supported requested = false /\ e = UnsupportedEncoding
      else e = TypeNotImplemented
  end.
Proof.
  cbv zeta. unfold Make, make_shared.
  destruct (physical_type descr); cbn [is_physical_type]; try reflexivity;
    destruct (encoding properties (path descr));
    cbn [new_TypedColumnWriter encoding_supported projT1 projT2];
    repeat split; reflexivity.
Qed.

End Dynamic.

(** ** The further properties at work *)

(** The column of the writer's test, an INT64 column named "int64", and
    properties that ask for one encoding for every column. *)
Abbreviation int64_column levels :=
  {| descriptor := levels; physical_type := INT64; path := ["int64"%string] |}.

Abbreviation every_column requested := {| encoding := fun _ => requested |}.

Abbreviation cpp_type :=
  (fun t =>
     match t with
     | BOOLEAN => bool
     | BYTE_ARRAY | FIXED_LEN_BYTE_ARRAY => list byte
     | _ => Z
     end).

Abbreviation make :=
  (Make (fun t => @TypedColumnWriter (cpp_type t))
     (fun t => @new_TypedColumnWriter (cpp_type t))).

Example Make_int64_writer :
  make (int64_column optional) 5 (every_column PLAIN)
  = Ok (existT _ INT64 fresh_optional) /\
  make (int64_column optional) 5 (every_column RLE) = Throw UnsupportedEncoding /\
  make {| descriptor := optional; physical_type := OTHER_TYPE 8; path := [] |} 5
    (every_column RLE)
  = Throw TypeNotImplemented.
Proof. repeat split; reflexivity. Qed.

Abbreviation fresh_repeated :=
  (ColumnWriter_init (T := Z) repeated 3 false (PlainEncoder [])).

Abbreviation level_writes_sample :=
  [Definition_levels 2 [1; 0; 1]; Repetition_levels 2 [0; 1]; Definition_levels 1 [1]].

Lemma level_writes_round_trip_witness :
  let written := for_each level_writes_sample write_levels fresh_repeated in
  Forall array_of_levels level_writes_sample /\
  written = (Ok tt, snd written) /\
  int16s_of_bytes (definition_levels_sink_ (snd written)) = [1; 0; 1] /\
  int16s_of_bytes (repetition_levels_sink_ (snd written)) = [0; 1] /\
  num_buffered_values_ (snd written) = 0.
Proof.
  cbv zeta.
  assert (H1 : Forall array_of_levels level_writes_sample).
  { repeat constructor; cbn; unfold is_int16; lia. }
  assert (H2 : for_each level_writes_sample write_levels fresh_repeated
               = (Ok tt, snd (for_each level_writes_sample write_levels fresh_repeated)))
    by (vm_compute; reflexivity).
  destruct (level_writes_round_trip fresh_repeated H1 eq_refl eq_refl H2)
    as (_ & Ed & Er & Ew).
  split; [exact H1|]. split; [exact H2|].
  split; [rewrite Ed; reflexivity|]. split; [rewrite Er; reflexivity|].
  rewrite Ew. reflexivity.
Defined.

Lemma page_cut_encoder_runs_witness :
  cut optional_sample = (Ok tt, snd (cut optional_sample)) /\
  level_encoder_ (snd (cut optional_sample))
  = [{| run_max_level := 1; run_num_values := 3; run_levels := [1; 0; 1] |}].
Proof.
  assert (H : cut optional_sample = (Ok tt, snd (cut optional_sample)))
    by (vm_compute; reflexivity).
  split; [exact H|].
  rewrite (page_cut_encoder_runs varint_indices rle_level_encoder optional_sample H).
  vm_compute. reflexivity.
Defined.

Lemma byte_total_is_accounted_witness :
  accounted dictionary_sample /\
  total_bytes_written_ (snd (close dictionary_sample)) = 19 /\
  accounted (snd (close dictionary_sample)).
Proof.
  assert (H : accounted dictionary_sample) by (vm_compute; reflexivity).
  split; [exact H|]. split; [vm_compute; reflexivity|].
  exact (proj1 (proj2 (byte_total_is_accounted (T := Z) varint_indices
                         rle_level_encoder counting_pager) dictionary_sample H)).
Defined.

Lemma Close_announces_hard_coded_encodings_witness :
  close dictionary_sample = (Ok 19, snd (close dictionary_sample)) /\
  exists calls,
    pager_ (snd (close dictionary_sample)) = pager_ dictionary_sample ++ calls /\
    Forall (hard_coded (has_dictionary_ dictionary_sample)) calls.
Proof.
  assert (H : close dictionary_sample = (Ok 19, snd (close dictionary_sample)))
    by (vm_compute; reflexivity).
  split; [exact H|].
  exact (Close_announces_hard_coded_encodings varint_indices rle_level_encoder
           counting_pager dictionary_sample H).
Defined.

(** The dictionary writer with a sink that takes the dictionary page and
    then refuses the data page. *)
Abbreviation close_on_full_sink :=
  (Close (T := Z) varint_indices rle_level_encoder (full_after 1) dictionary_sample).

Lemma Close_stops_at_the_first_refusal_witness :
  close_on_full_sink = (Throw (SinkFailure "disk full"), snd close_on_full_sink) /\
  map is_data_page (pager_ (snd close_on_full_sink)) = [false; true] /\
  exists calls,
    pager_ (snd close_on_full_sink) = pager_ dictionary_sample ++ calls /\
    refusals (Throw (A := Z) (SinkFailure "disk full")) calls.
Proof.
  assert (H : close_on_full_sink
              = (Throw (SinkFailure "disk full"), snd close_on_full_sink))
    by (vm_compute; reflexivity).
  split; [exact H|]. split; [vm_compute; reflexivity|].
  exact (Close_stops_at_the_first_refusal varint_indices rle_level_encoder
           (full_after 1) dictionary_sample H).
Defined.

Lemma Close_fails_in_two_ways_witness :
  in_int64 (total_bytes_written_ dictionary_sample) /\
  has_dictionary_ dictionary_sample
  = is_dict_encoder (current_encoder_ dictionary_sample) /\
  close_on_full_sink = (Throw (SinkFailure "disk full"), snd close_on_full_sink) /\
  ((SinkFailure "disk full" = RowCountMismatch /\
    num_rows_ dictionary_sample <> expected_rows_ dictionary_sample) \/
   exists what, SinkFailure "disk full" = SinkFailure what).
Proof.
  assert (H1 : in_int64 (total_bytes_written_ dictionary_sample))
    by (vm_compute; split; discriminate).
  assert (H2 : has_dictionary_ dictionary_sample
               = is_dict_encoder (current_encoder_ dictionary_sample))
    by (vm_compute; reflexivity).
  assert (H : close_on_full_sink
              = (Throw (SinkFailure "disk full"), snd close_on_full_sink))
    by (vm_compute; reflexivity).
  split; [exact H1|]. split; [exact H2|]. split; [exact H|].
  exact (Close_fails_in_two_ways varint_indices rle_level_encoder (full_after 1)
           dictionary_sample H1 eq_refl eq_refl H2 H).
Defined.

(** The optional column with a definition level above its maximal level 1,
    which the example level encoder refuses. *)
Abbreviation overflowing_sample :=
  (run [Op_WriteBatch 3 (Some [1; 2; 1]) None [128; 7]] fresh_optional).

Lemma page_cut_reads_inside_the_level_buffers_witness :
  holds_levels (num_buffered_values_ overflowing_sample)
    (definition_levels_sink_ overflowing_sample)
    (max_definition_level (descr_ overflowing_sample)) /\
  holds_levels (num_buffered_values_ overflowing_sample)
    (repetition_levels_sink_ overflowing_sample)
    (max_repetition_level (descr_ overflowing_sample)) /\
  cut overflowing_sample
  = (Throw (LevelOverflow "level exceeds the maximal level"),
     snd (cut overflowing_sample)) /\
  exists what,
    LevelOverflow "level exceeds the maximal level" = LevelOverflow what /\
    (0 < max_definition_level (descr_ overflowing_sample) /\
     level_payload rle_level_encoder (num_buffered_values_ overflowing_sample)
       (definition_levels_sink_ overflowing_sample)
       (max_definition_level (descr_ overflowing_sample)) = Failed what \/
     0 < max_repetition_level (descr_ overflowing_sample) /\
     level_payload rle_level_encoder (num_buffered_values_ overflowing_sample)
       (repetition_levels_sink_ overflowing_sample)
       (max_repetition_level (descr_ overflowing_sample)) = Failed what).
Proof.
  assert (H1 : holds_levels (num_buffered_values_ overflowing_sample)
                 (definition_levels_sink_ overflowing_sample)
                 (max_definition_level (descr_ overflowing_sample))).
  { intros _. vm_compute. discriminate. }
  assert (H2 : holds_levels (num_buffered_values_ overflowing_sample)
                 (repetition_levels_sink_ overflowing_sample)
                 (max_repetition_level (descr_ overflowing_sample))).
  { intros Hpos. vm_compute in Hpos. discriminate Hpos. }
  assert (H : cut overflowing_sample
              = (Throw (LevelOverflow "level exceeds the maximal level"),
                 snd (cut overflowing_sample)))
    by (vm_compute; reflexivity).
  split; [exact H1|]. split; [exact H2|]. split; [exact H|].
  exact (page_cut_reads_inside_the_level_buffers varint_indices rle_level_encoder
           overflowing_sample H1 H2 H).
Defined.

Lemma Close_calls_in_order_witness :
  in_int64 (total_bytes_written_ dictionary_sample) /\
  close_on_full_sink = (Throw (SinkFailure "disk full"), snd close_on_full_sink) /\
  exists dictionary pages closing,
    pager_ (snd close_on_full_sink)
    = pager_ dictionary_sample ++ dictionary ++ pages ++ closing /\
    (length dictionary <= 1)%nat /\
    forallb is_dictionary_page dictionary = true /\
    (has_dictionary_ dictionary_sample = false -> dictionary = []) /\
    forallb is_data_page pages = true /\
    (length closing <= 1)%nat /\
    forallb is_close closing = true.
Proof.
  assert (H1 : in_int64 (total_bytes_written_ dictionary_sample))
    by (vm_compute; split; discriminate).
  assert (H : close_on_full_sink
              = (Throw (SinkFailure "disk full"), snd close_on_full_sink))
    by (vm_compute; reflexivity).
  split; [exact H1|]. split; [exact H|].
  exact (Close_calls_in_order varint_indices rle_level_encoder (full_after 1)
           dictionary_sample H1 H).
Defined.

Lemma page_cut_before_Close_witness :
  in_int64 (total_bytes_written_ dictionary_sample) /\
  0 < num_buffered_values_ dictionary_sample /\
  cut dictionary_sample = (Ok tt, snd (cut dictionary_sample)) /\
  fst (close (snd (cut dictionary_sample))) = Ok 19 /\
  fst (close (snd (cut dictionary_sample))) = fst (close dictionary_sample) /\
  pager_ (snd (close (snd (cut dictionary_sample))))
  = pager_ (snd (close dictionary_sample)).
Proof.
  assert (H1 : in_int64 (total_bytes_written_ dictionary_sample))
    by (vm_compute; split; discriminate).
  assert (H2 : 0 < num_buffered_values_ dictionary_sample) by (vm_compute; reflexivity).
  assert (H : cut dictionary_sample = (Ok tt, snd (cut dictionary_sample)))
    by (vm_compute; reflexivity).
  split; [exact H1|]. split; [exact H2|]. split; [exact H|].
  split; [vm_compute; reflexivity|].
  exact (page_cut_before_Close varint_indices rle_level_encoder counting_pager
           dictionary_sample H1 H2 H).
Defined.

Lemma Close_of_an_empty_column_witness :
  in_int64 (total_bytes_written_ fresh_dictionary) /\
  num_buffered_values_ fresh_dictionary <= 0 /\
  close fresh_dictionary = (Throw RowCountMismatch, snd (close fresh_dictionary)) /\
  map is_dictionary_page (pager_ (snd (close fresh_dictionary))) = [true] /\
  exists calls,
    pager_ (snd (close fresh_dictionary)) = pager_ fresh_dictionary ++ calls /\
    existsb is_data_page calls = false /\
    data_page_buffers_ (snd (close fresh_dictionary)) = [].
Proof.
  assert (H1 : in_int64 (total_bytes_written_ fresh_dictionary))
    by (vm_compute; split; discriminate).
  assert (H2 : num_buffered_values_ fresh_dictionary <= 0) by (vm_compute; discriminate).
  assert (H : close fresh_dictionary
              = (Throw RowCountMismatch, snd (close fresh_dictionary)))
    by (vm_compute; reflexivity).
  split; [exact H1|]. split; [exact H2|]. split; [exact H|].
  split; [vm_compute; reflexivity|].
  exact (Close_of_an_empty_column varint_indices rle_level_encoder counting_pager
           fresh_dictionary H1 eq_refl H2 H).
Defined.
